(** * A shallow embedding of the BACnet/IP client codec (package bacnet)

    The development follows the Go sources: [decoder.go] (application-value
    decoder, request builders, ReadPropertyMultiple ACK decoder, subscription
    worker), [parser.go] (I-Am, object-list, property-list and notification
    parsers) and the type and constant files of the package.

    Conventions.
    - An octet is a [Z] in 0..255; a datagram is a [list Z].
    - A [*bytes.Reader] is modelled by the list of octets that are still
      unread; reading drops a prefix of it.
    - Go's [uint32] arithmetic is written out with its wrap-around
      ([mod 2^32]); [byte(x)] is [x mod 256].
    - A function returning [(T, error)] returns [result T]. *)

From Stdlib Require Import ZArith List Lia.
From Stdlib Require Import SpecFloat.
From stdpp Require Import gmap list strings.

Set Warnings "-register-all".

Local Open Scope Z_scope.

(** ** Errors and results *)

(** [io.EOF], [io.ErrUnexpectedEOF], and the errors built by [fmt.Errorf]:
    [Errorf] keeps the constant part of the message, [Errorw] also the error
    wrapped with the [%w] verb.  [OutOfFuel] is not a Go error: it is the
    answer of a loop of the model whose iteration budget is used up, and is
    shown never to be returned by the parsers (lemmas [*_budget]). *)
Inductive error : Type :=
  | EOF
  | ErrUnexpectedEOF
  | Errorf (msg : string)
  | Errorw (msg : string) (wrapped : error)
  | OutOfFuel.

Inductive result (A : Type) : Type :=
  | Ok (a : A)
  | Err (e : error).
Arguments Ok {A} a.
Arguments Err {A} e.

Definition is_ok {A} (r : result A) : bool :=
  match r with Ok _ => true | Err _ => false end.

Definition is_err {A} (r : result A) : bool := negb (is_ok r).

(** ** The reader monad *)

Definition Reader : Type := list Z.

Definition M (A : Type) : Type := Reader -> result (A * Reader).

Definition ret {A} (a : A) : M A := fun r => Ok (a, r).

Definition bind {A B} (m : M A) (k : A -> M B) : M B :=
  fun r => match m r with
           | Ok (a, r') => k a r'
           | Err e => Err e
           end.

Definition fail {A} (e : error) : M A := fun _ => Err e.

(** [fmt.Errorf(msg + ": %w", err)] around a failing call. *)
Definition wrap {A} (msg : string) (m : M A) : M A :=
  fun r => match m r with
           | Ok x => Ok x
           | Err e => Err (Errorw msg e)
           end.

Notation "'let*' x ':=' m 'in' k" := (bind m (fun x => k))
  (at level 10, x pattern, m at level 100, k at level 200).

(** [r.ReadByte()] *)
Definition ReadByte : M Z :=
  fun r => match r with
           | [] => Err EOF
           | b :: r' => Ok (b, r')
           end.

(** [b, _ := r.ReadByte()]: the error is dropped, the value is then 0. *)
Definition ReadByte_ : M Z :=
  fun r => match r with
           | [] => Ok (0, [])
           | b :: r' => Ok (b, r')
           end.

(** [r.Len()] *)
Definition Len (r : Reader) : Z := Z.of_nat (length r).

(** [io.ReadFull(r, buf)] with [len(buf) = n]: nothing is read for [n = 0];
    [io.EOF] when no octet is left, [io.ErrUnexpectedEOF] when fewer than
    [n] are. *)
Definition ReadFull (n : Z) : M (list Z) :=
  fun r =>
    if n <=? 0 then Ok ([], r)
    else if Len r <? n then
      Err (match r with [] => EOF | _ => ErrUnexpectedEOF end)
    else Ok (firstn (Z.to_nat n) r, skipn (Z.to_nat n) r).

(** Big-endian value of a sequence of octets, as [binary.BigEndian] reads
    it. *)
Definition be_value (bs : list Z) : Z :=
  fold_left (fun acc b => acc * 256 + b) bs 0.

(** [binary.Read(r, binary.BigEndian, &v)] for an unsigned [v] of [n]
    octets. *)
Definition binaryRead (n : Z) : M Z :=
  let* bs := ReadFull n in ret (be_value bs).

(** The same call with its error dropped, as parseCOVNotification does: the
    octets that are left are consumed and the variable keeps its zero value. *)
Definition binaryRead_ (n : Z) : M Z :=
  fun r =>
    match ReadFull n r with
    | Ok (bs, r') => Ok (be_value bs, r')
    | Err _ => Ok (0, [])
    end.

(** [binary.Write(&buf, binary.BigEndian, v)] for a [uint32] and a
    [uint16]. *)
Definition putUint32 (v : Z) : list Z :=
  [Z.shiftr v 24 mod 256; Z.shiftr v 16 mod 256; Z.shiftr v 8 mod 256; v mod 256].

Definition putUint16 (v : Z) : list Z :=
  [Z.shiftr v 8 mod 256; v mod 256].

(** ** Constants of the package *)

Definition BVLC_TYPE_BACNET_IP : Z := 0x81.
Definition BVLC_ORIGINAL_UNICAST_NPDU : Z := 0x0a.
Definition BVLC_ORIGINAL_BROADCAST_NPDU : Z := 0x0b.
Definition NPDU_CONTROL_NORMAL_MESSAGE : Z := 0x00.

Definition APDU_CONFIRMED_REQUEST : Z := 0x00.
Definition APDU_UNCONFIRMED_REQUEST : Z := 0x10.
Definition APDU_SIMPLE_ACK : Z := 0x20.
Definition APDU_COMPLEX_ACK : Z := 0x30.
Definition APDU_ERROR : Z := 0x50.

Definition SERVICE_UNCONFIRMED_I_AM : Z := 0x00.
Definition SERVICE_UNCONFIRMED_WHO_IS : Z := 0x08.
Definition SERVICE_UNCONFIRMED_COV_NOTIFICATION : Z := 0x01.
Definition SERVICE_UNCONFIRMED_EVENT_NOTIFICATION : Z := 0x02.

Definition SERVICE_CONFIRMED_READ_PROPERTY : Z := 0x0c.
Definition SERVICE_CONFIRMED_READ_PROPERTY_MULTIPLE : Z := 0x0e.
Definition SERVICE_CONFIRMED_SUBSCRIBE_COV : Z := 0x05.

Definition PROP_ALL : Z := 8.
Definition PROP_OBJECT_LIST : Z := 76.
Definition PROP_OBJECT_NAME : Z := 77.
Definition PROP_PRESENT_VALUE : Z := 85.

Definition OBJECT_ANALOG_INPUT : Z := 0.
Definition OBJECT_DEVICE : Z := 8.

(** ** Data model *)

(** [type BACnetObject struct { Type ObjectType; Instance uint32 }] *)
Record BACnetObject : Type := mkObject {
  obj_type : Z;
  obj_instance : Z
}.

Global Instance BACnetObject_eq_dec : EqDecision BACnetObject.
Proof. solve_decision. Defined.

Global Instance BACnetObject_countable : Countable BACnetObject.
Proof.
  refine (inj_countable' (fun o => (obj_type o, obj_instance o))
                         (fun p => mkObject p.1 p.2) _).
  intros []; reflexivity.
Defined.

Record StatusFlags : Type := mkStatusFlags {
  InAlarm : bool;
  Fault : bool;
  Overridden : bool;
  OutOfService : bool
}.

(** The dynamic values ([interface{}]) the decoders produce: [nil], [bool],
    [uint32] (Unsigned and Enumerated alike), [float32] (kept as its
    IEEE-754 bit pattern), [string], [StatusFlags], [BACnetObject], [[]byte]
    and [[]interface{}]. *)
Inductive Value : Type :=
  | VNil
  | VBool (b : bool)
  | VUint32 (n : Z)
  | VFloat32 (bits : Z)
  | VString (s : list Z)
  | VStatusFlags (f : StatusFlags)
  | VObject (o : BACnetObject)
  | VBytes (bs : list Z)
  | VList (vs : list Value).

Record BACnetPropertyValue : Type := mkPropertyValue {
  PropertyID : Z;
  PropValue : Value
}.

Record COVNotification : Type := mkCOVNotification {
  SubscriberProcessIdentifier : Z;
  InitiatingDeviceIdentifier : BACnetObject;
  MonitoredObjectIdentifier : BACnetObject;
  TimeRemaining : Z;
  ListOfValues : list BACnetPropertyValue
}.

(** [net.UDPAddr] reduced to what the parsers copy. *)
Record UDPAddr : Type := mkUDPAddr {
  addr_IP : list Z;
  addr_Port : Z
}.

Record DeviceInfo : Type := mkDeviceInfo {
  DeviceID : Z;
  IPAddress : list Z;
  Port : Z;
  MaxAPDU : Z
}.

(** The two halves of the packed object identifier, as every decoder takes
    them: [ObjectType(val >> 22)] and [val & 0x3FFFFF]. *)
Definition unpackObject (val : Z) : BACnetObject :=
  {| obj_type := Z.shiftr val 22; obj_instance := Z.land val 0x3FFFFF |}.

(** [(uint32(object.Type) << 22) | object.Instance], in [uint32]. *)
Definition packObject (o : BACnetObject) : Z :=
  Z.lor (Z.shiftl (obj_type o) 22 mod 2^32) (obj_instance o).

(** ** decoder.go: application values *)

Definition decodeStatusFlags : M StatusFlags :=
  let* unusedBits := wrap "failed to read unused bits for Status_Flags" ReadByte in
  if negb (unusedBits =? 4) then
    fail (Errorf "unexpected number of unused bits for Status_Flags")
  else
    let* flagsByte := wrap "failed to read flags byte for Status_Flags" ReadByte in
    ret {| InAlarm := Z.land (Z.shiftr flagsByte 3) 1 =? 1;
           Fault := Z.land (Z.shiftr flagsByte 2) 1 =? 1;
           Overridden := Z.land (Z.shiftr flagsByte 1) 1 =? 1;
           OutOfService := Z.land (Z.shiftr flagsByte 0) 1 =? 1 |}.

(** [for i := 0; i < int(lenVal); i++ { val = (val << 8) | uint32(buf[i]) }] *)
Definition accumulateUint32 (buf : list Z) : Z :=
  fold_left (fun val b => Z.lor (Z.shiftl val 8 mod 2^32) b) buf 0.

Definition decodeApplicationValue : M Value :=
  let* tag := ReadByte in
  let tagNumber := Z.shiftr tag 4 in
  let lenVal := Z.land tag 0x0F in
  let* lenVal :=
    (if lenVal =? 5
     then wrap "failed to read extended length" ReadByte
     else ret lenVal) in
  match tagNumber with
  | 0 => ret VNil
  | 1 => ret (VBool (lenVal =? 1))
  | 2 =>
      let* buf := ReadFull lenVal in
      ret (VUint32 (accumulateUint32 buf))
  | 4 =>
      let* val := binaryRead 4 in
      ret (VFloat32 val)
  | 7 =>
      let* _ := ReadByte in
      let* buf := ReadFull ((lenVal - 1) mod 2^32) in
      ret (VString buf)
  | 8 =>
      let* flags := decodeStatusFlags in
      ret (VStatusFlags flags)
  | 9 =>
      let* buf := ReadFull lenVal in
      ret (VUint32 (accumulateUint32 buf))
  | 12 =>
      let* val := binaryRead 4 in
      ret (VObject (unpackObject val))
  | _ =>
      let* buf := ReadFull lenVal in
      ret (VBytes buf)
  end.

(** ** Envelope headers *)

Record BVLCHeader : Type := mkBVLCHeader {
  bvlc_Type : Z;
  bvlc_Function : Z;
  bvlc_Length : Z
}.

Record NPDU : Type := mkNPDU {
  npdu_Version : Z;
  npdu_Control : Z
}.

(** [binary.Read(r, binary.BigEndian, &bvlcHeader)]: four octets. *)
Definition readBVLCHeader : M BVLCHeader :=
  let* bs := ReadFull 4 in
  ret {| bvlc_Type := nth 0 bs 0;
         bvlc_Function := nth 1 bs 0;
         bvlc_Length := be_value (skipn 2 bs) |}.

(** [binary.Read(r, binary.BigEndian, &npduHeader)]: two octets. *)
Definition readNPDU : M NPDU :=
  let* bs := ReadFull 2 in
  ret {| npdu_Version := nth 0 bs 0; npdu_Control := nth 1 bs 0 |}.

(** [binary.Write(&buffer, binary.BigEndian, &bvlc)] and the same for the
    NPDU. *)
Definition writeBVLCHeader (h : BVLCHeader) : list Z :=
  [bvlc_Type h; bvlc_Function h] ++ putUint16 (bvlc_Length h).

Definition writeNPDU (n : NPDU) : list Z :=
  [npdu_Version n; npdu_Control n].

(** The result of a parser that owns its reader: what is left unread is
    dropped. *)
Definition run {A} (m : M A) (data : list Z) : result A :=
  match m data with
  | Ok (a, _) => Ok a
  | Err e => Err e
  end.

(** ** parser.go: I-Am *)

Definition parseIAm (data : list Z) (addr : UDPAddr) : result DeviceInfo :=
  run
    (let* bvlcHeader := wrap "error reading BVLC header" readBVLCHeader in
     if negb (bvlc_Type bvlcHeader =? BVLC_TYPE_BACNET_IP) then
       fail (Errorf "not a BACnet/IP packet")
     else
     let* npduHeader := wrap "error reading NPDU header" readNPDU in
     let* apduType := ReadByte_ in
     let apduHeader_Type := Z.land apduType 0xF0 in
     if negb (apduHeader_Type =? APDU_UNCONFIRMED_REQUEST) then
       fail (Errorf "not an unconfirmed request")
     else
     let* serviceChoice := ReadByte_ in
     if negb (serviceChoice =? SERVICE_UNCONFIRMED_I_AM) then
       fail (Errorf "not an I-Am service")
     else
     let* tag := wrap "failed to read object identifier tag" ReadByte in
     if negb (tag =? 0xC4) then
       fail (Errorf "unexpected tag for object identifier")
     else
     let* objectIdentifier := wrap "failed to read object identifier" (binaryRead 4) in
     let* tag := wrap "failed to read max APDU tag" ReadByte in
     if negb (tag =? 0x22) then
       fail (Errorf "unexpected tag for max APDU")
     else
     let* maxAPDULen := wrap "failed to read max APDU" (binaryRead 2) in
     let* tag := wrap "failed to read segmentation tag" ReadByte in
     if negb (tag =? 0x91) then
       fail (Errorf "unexpected tag for segmentation")
     else
     let* segmentation := wrap "failed to read segmentation" (binaryRead 1) in
     let* tag := wrap "failed to read vendor ID tag" ReadByte in
     if negb (tag =? 0x22) then
       fail (Errorf "unexpected tag for vendor ID")
     else
     let* vendorID := wrap "failed to read vendor ID" (binaryRead 2) in
     ret {| DeviceID := Z.land objectIdentifier 0x3FFFFF;
            IPAddress := addr_IP addr;
            Port := addr_Port addr;
            MaxAPDU := maxAPDULen |})
    data.

(** ** The header shared by the two ReadPropertyMultiple ACK decoders

    Both functions open with the same statements: the envelope, the
    Complex-ACK check, the invoke ID (read with its error dropped) and the
    service choice. *)
Definition readComplexAckHeader (expectedInvokeID : Z) : M unit :=
  let* bvlcHeader := wrap "error reading BVLC header" readBVLCHeader in
  let* npduHeader := wrap "error reading NPDU header" readNPDU in
  let* apduType := wrap "error reading APDU type" ReadByte in
  if Z.land apduType 0xF0 =? APDU_ERROR then
    fail (Errorf "received BACnet Error PDU")
  else if negb (Z.land apduType 0xF0 =? APDU_COMPLEX_ACK) then
    fail (Errorf "not a Complex-ACK")
  else
  let* invokeID := ReadByte_ in
  if negb (invokeID =? expectedInvokeID) then
    fail (Errorf "invoke ID mismatch")
  else
  let* service := wrap "error reading service choice" ReadByte in
  if negb (service =? SERVICE_CONFIRMED_READ_PROPERTY_MULTIPLE) then
    fail (Errorf "not a ReadPropertyMultiple ACK")
  else ret tt.

(** ** parser.go: parseObjectPropertyList *)

(** [peek, err := r.ReadByte(); ...; r.UnreadByte()] *)
Definition PeekByte : M Z :=
  fun r => match r with
           | [] => Err EOF
           | b :: _ => Ok (b, r)
           end.

(** The innermost loop: application values up to the closing tag 0x4F. *)
Fixpoint opl_values (fuel : nat) (values : list Value) : M (list Value) :=
  match fuel with
  | O => fail OutOfFuel
  | S fuel' =>
      let* peek := PeekByte in
      if peek =? 0x4F then
        let* _ := ReadByte_ in ret values
      else
        let* val := wrap "failed to decode application value for prop" decodeApplicationValue in
        opl_values fuel' (values ++ [val])
  end.

(** [if len(values) == 1 { finalValue = values[0] } else { finalValue = values }] *)
Definition finalValue (values : list Value) : Value :=
  match values with
  | [v] => v
  | _ => VList values
  end.

(** The loop over the property results of one object, up to the closing
    tag 0x1F. *)
Fixpoint opl_properties (fuel : nat) (allProperties : list BACnetPropertyValue)
  : M (list BACnetPropertyValue) :=
  match fuel with
  | O => fail OutOfFuel
  | S fuel' =>
      let* tag := wrap "failed to read tag inside property list" ReadByte in
      if tag =? 0x1F then ret allProperties
      else if negb (tag =? 0x29) then
        fail (Errorf "expected property identifier tag 0x29")
      else
      let* propID := wrap "failed to read property identifier" (binaryRead 1) in
      let* tag := wrap "failed to read opening tag for property value" ReadByte in
      if negb (tag =? 0x4E) then
        fail (Errorf "expected opening tag 0x4E for property value")
      else
      let* values := opl_values fuel' [] in
      opl_properties fuel'
        (allProperties ++ [{| PropertyID := propID; PropValue := finalValue values |}])
  end.

(** The outer loop, [for r.Len() > 0]. *)
Fixpoint opl_results (fuel : nat) (allProperties : list BACnetPropertyValue)
  : M (list BACnetPropertyValue) :=
  match fuel with
  | O => fail OutOfFuel
  | S fuel' =>
      fun r =>
        if 0 <? Len r then
          match ReadByte r with
          | Err _ => Ok (allProperties, r)
          | Ok (tag, r) =>
              (if negb (tag =? 0x0C) then
                 fail (Errorf "expected object identifier tag 0x0C")
               else
               let* objectIdentifier := wrap "failed to read object identifier" (binaryRead 4) in
               let* tag := wrap "failed to read opening tag for property list" ReadByte in
               if negb (tag =? 0x1E) then
                 fail (Errorf "expected opening tag 0x1E for property list")
               else
               let* allProperties := opl_properties fuel' allProperties in
               opl_results fuel' allProperties) r
          end
        else Ok (allProperties, r)
  end.

Definition parseObjectPropertyList (data : list Z) (expectedInvokeID : Z)
  : result (list BACnetPropertyValue) :=
  run
    (let* _ := readComplexAckHeader expectedInvokeID in
     opl_results (S (length data)) [])
    data.

(** ** decoder.go: parseReadPropertyMultipleResponse *)

(** The loop over the properties of one object: [objectProperties] is the
    map being filled, one value per bracket. *)
Fixpoint rpm_properties (fuel : nat) (objectProperties : gmap Z Value)
  : M (gmap Z Value) :=
  match fuel with
  | O => fail OutOfFuel
  | S fuel' =>
      let* tag := wrap "failed to read tag inside property list" ReadByte in
      if tag =? 0x1F then ret objectProperties
      else if negb (tag =? 0x29) then
        fail (Errorf "expected property identifier tag 0x29")
      else
      let* propID := wrap "failed to read property identifier" (binaryRead 1) in
      let* tag := wrap "failed to read opening tag for property value" ReadByte in
      if negb (tag =? 0x4E) then
        fail (Errorf "expected opening tag 0x4E for property value")
      else
      let* val := wrap "failed to decode application value for prop" decodeApplicationValue in
      let* tag := wrap "failed to read closing tag for property value" ReadByte in
      if negb (tag =? 0x4F) then
        fail (Errorf "expected closing tag 0x4F for property value")
      else
      rpm_properties fuel' (<[propID := val]> objectProperties)
  end.

(** The outer loop: [results[currentObject] = objectProperties] at the end
    of each read-access-result. *)
Fixpoint rpm_results (fuel : nat) (results : gmap BACnetObject (gmap Z Value))
  : M (gmap BACnetObject (gmap Z Value)) :=
  match fuel with
  | O => fail OutOfFuel
  | S fuel' =>
      fun r =>
        if 0 <? Len r then
          match ReadByte r with
          | Err _ => Ok (results, r)
          | Ok (tag, r) =>
              (if negb (tag =? 0x0C) then
                 fail (Errorf "expected object identifier tag 0x0C")
               else
               let* objectIdentifier := wrap "failed to read object identifier" (binaryRead 4) in
               let currentObject := unpackObject objectIdentifier in
               let* tag := wrap "failed to read opening tag for property list" ReadByte in
               if negb (tag =? 0x1E) then
                 fail (Errorf "expected opening tag 0x1E for property list")
               else
               let* objectProperties := rpm_properties fuel' ∅ in
               rpm_results fuel' (<[currentObject := objectProperties]> results)) r
          end
        else Ok (results, r)
  end.

Definition parseReadPropertyMultipleResponse (data : list Z) (expectedInvokeID : Z)
  : result (gmap BACnetObject (gmap Z Value)) :=
  run
    (let* _ := readComplexAckHeader expectedInvokeID in
     rpm_results (S (length data)) ∅)
    data.

(** ** parser.go: parseCOVNotification *)

(** The loop over the list of values, up to the closing tag 0x4F. *)
Fixpoint cov_values (fuel : nat) (listOfValues : list BACnetPropertyValue)
  : M (list BACnetPropertyValue) :=
  match fuel with
  | O => fail OutOfFuel
  | S fuel' =>
      let* tag := wrap "failed to read tag inside property values" ReadByte in
      if tag =? 0x4F then ret listOfValues
      else if negb (tag =? 0x09) then
        fail (Errorf "expected property identifier tag 0x09")
      else
      let* propID := wrap "failed to read property identifier" (binaryRead 1) in
      let* tag := wrap "failed to read opening tag for property value" ReadByte in
      if negb (tag =? 0x2E) then
        fail (Errorf "expected opening tag 0x2E for property value")
      else
      let* val := wrap "failed to decode application value for prop" decodeApplicationValue in
      let* tag := wrap "failed to read closing tag for property value" ReadByte in
      if negb (tag =? 0x2F) then
        fail (Errorf "expected closing tag 0x2F for property value")
      else
      cov_values fuel' (listOfValues ++ [{| PropertyID := propID; PropValue := val |}])
  end.

(** [r.Seek(6, 0)] on a fresh reader, then the fields in order.  The tag
    reads of the four fixed fields drop their errors (the tag is then 0 and
    fails the comparison), and so do the two identifier reads. *)
Definition parseCOVNotification (data : list Z) : result COVNotification :=
  run
    (let* apduType := wrap "error reading APDU type" ReadByte in
     if negb (Z.land apduType 0xF0 =? APDU_UNCONFIRMED_REQUEST) then
       fail (Errorf "not an Unconfirmed-Request")
     else
     let* service := wrap "error reading service choice" ReadByte in
     if negb (service =? SERVICE_UNCONFIRMED_EVENT_NOTIFICATION) then
       fail (Errorf "not a COV Notification or Event Notification")
     else
     let* tag := ReadByte_ in
     if negb (tag =? 0x09) then
       fail (Errorf "error reading subscriber process identifier tag")
     else
     let* subId := ReadByte_ in
     let* tag := ReadByte_ in
     if negb (tag =? 0x1C) then
       fail (Errorf "unexpected tag for device identifier")
     else
     let* devId := binaryRead_ 4 in
     let* tag := ReadByte_ in
     if negb (tag =? 0x2C) then
       fail (Errorf "unexpected tag for object identifier")
     else
     let* objId := binaryRead_ 4 in
     let* tag := ReadByte_ in
     if negb (tag =? 0x39) then
       fail (Errorf "error reading time remaining tag")
     else
     let* timeRem := ReadByte_ in
     let* tag := wrap "failed to read opening tag for property values" ReadByte in
     if negb (tag =? 0x4E) then
       fail (Errorf "expected opening tag 0x4E for property values")
     else
     let* listOfValues := cov_values (S (length data)) [] in
     ret {| SubscriberProcessIdentifier := subId;
            InitiatingDeviceIdentifier := unpackObject devId;
            MonitoredObjectIdentifier := unpackObject objId;
            TimeRemaining := timeRem;
            ListOfValues := listOfValues |})
    (skipn 6 data).

(** ** Invoke-ID allocator *)

(** [type invokeIDManager struct { mu sync.Mutex; lastID byte }]; the mutex
    makes [Next] atomic, so a call is a function of the state. *)
Record invokeIDManager : Type := mkInvokeIDManager { lastID : Z }.

(** [m.lastID++; return m.lastID] on a [byte]. *)
Definition Next (m : invokeIDManager) : Z * invokeIDManager :=
  let id := (lastID m + 1) mod 256 in
  (id, {| lastID := id |}).

(** ** decoder.go: the confirmed-request builders

    Each client method builds [apduBuffer], frames it with the BVLC header
    and the NPDU, and hands [buffer.Bytes()] to [c.conn.WriteTo].  A
    [request] records the allocator state after the call to [Next], the
    invoke ID it returned, and the datagram handed to [WriteTo]. *)

Record request : Type := mkRequest {
  req_manager : invokeIDManager;
  req_invokeID : Z;
  req_apdu : list Z;
  req_datagram : list Z
}.

(** The framing statements, the same in the five methods: BVLC header with
    [Length: uint16(4 + 2 + apduBuffer.Len())], NPDU with control 0x04, then
    the APDU. *)
Definition frameConfirmed (apduBuffer : list Z) : list Z :=
  writeBVLCHeader {| bvlc_Type := BVLC_TYPE_BACNET_IP;
                     bvlc_Function := BVLC_ORIGINAL_UNICAST_NPDU;
                     bvlc_Length := (4 + 2 + Z.of_nat (length apduBuffer)) mod 2^16 |}
  ++ writeNPDU {| npdu_Version := 1; npdu_Control := 0x04 |}
  ++ apduBuffer.

Definition mkConfirmed (m : invokeIDManager) (invokeID : Z) (apduBuffer : list Z)
  : request :=
  {| req_manager := m; req_invokeID := invokeID;
     req_apdu := apduBuffer; req_datagram := frameConfirmed apduBuffer |}.

Definition sendSubscribeCOVRequest (m : invokeIDManager) (object : BACnetObject)
    (subscriberProcessIdentifier : Z) (issueConfirmedNotifications : bool)
    (lifetime : Z) : request :=
  let apduBuffer := [Z.lor APDU_CONFIRMED_REQUEST 0x02; 0x75] in
  let '(invokeID, m) := Next m in
  let apduBuffer := apduBuffer ++ [invokeID] in
  let apduBuffer := apduBuffer ++ [SERVICE_CONFIRMED_SUBSCRIBE_COV] in
  let apduBuffer := apduBuffer ++ [0x09; subscriberProcessIdentifier mod 256] in
  let apduBuffer := apduBuffer ++ [0x1C] in
  let monitoredObjectIdentifier := packObject object in
  let apduBuffer := apduBuffer ++ putUint32 monitoredObjectIdentifier in
  let apduBuffer := apduBuffer ++ [0x29] in
  let apduBuffer := apduBuffer ++ [if issueConfirmedNotifications then 1 else 0] in
  let apduBuffer := apduBuffer ++ [0x39; lifetime mod 256] in
  mkConfirmed m invokeID apduBuffer.

Definition GetObjectList (m : invokeIDManager) (device : DeviceInfo) : request :=
  let apduBuffer := [Z.lor APDU_CONFIRMED_REQUEST 0x02; 0x75] in
  let '(invokeID, m) := Next m in
  let apduBuffer := apduBuffer ++ [invokeID] in
  let apduBuffer := apduBuffer ++ [SERVICE_CONFIRMED_READ_PROPERTY] in
  let apduBuffer := apduBuffer ++ [0x0C] in
  let objectIdentifier := Z.lor (Z.shiftl OBJECT_DEVICE 22 mod 2^32) (DeviceID device) in
  let apduBuffer := apduBuffer ++ putUint32 objectIdentifier in
  let apduBuffer := apduBuffer ++ [0x19; PROP_OBJECT_LIST mod 256] in
  mkConfirmed m invokeID apduBuffer.

Definition GetObjectAllPropertyList (m : invokeIDManager) (object : BACnetObject)
  : request :=
  let apduBuffer := [Z.lor APDU_CONFIRMED_REQUEST 0x02; 0x75] in
  let '(invokeID, m) := Next m in
  let apduBuffer := apduBuffer ++ [invokeID] in
  let apduBuffer := apduBuffer ++ [SERVICE_CONFIRMED_READ_PROPERTY_MULTIPLE] in
  let apduBuffer := apduBuffer ++ [0x0C] in
  let objectIdentifier := packObject object in
  let apduBuffer := apduBuffer ++ putUint32 objectIdentifier in
  let apduBuffer := apduBuffer ++ [0x1E] in
  let apduBuffer := apduBuffer ++ [0x09; PROP_ALL] in
  let apduBuffer := apduBuffer ++ [0x1F] in
  mkConfirmed m invokeID apduBuffer.

(** The invoke ID is obtained from [Next] but no [WriteByte(invokeID)]
    follows: the service choice is written right after 0x75. *)
Definition ReadPropertiesFromMultipleObjects (m : invokeIDManager)
    (objects : list BACnetObject) (propertyID : Z) : request :=
  let apduBuffer := [Z.lor APDU_CONFIRMED_REQUEST 0x02; 0x75] in
  let '(invokeID, m) := Next m in
  let apduBuffer := apduBuffer ++ [SERVICE_CONFIRMED_READ_PROPERTY_MULTIPLE] in
  let apduBuffer :=
    fold_left
      (fun apduBuffer obj =>
         let apduBuffer := apduBuffer ++ [0x0C] in
         let objectIdentifier := packObject obj in
         let apduBuffer := apduBuffer ++ putUint32 objectIdentifier in
         let apduBuffer := apduBuffer ++ [0x1E] in
         let apduBuffer := apduBuffer ++ [0x09; propertyID mod 256] in
         apduBuffer ++ [0x1F])
      objects apduBuffer in
  mkConfirmed m invokeID apduBuffer.

Definition ReadSpecificPropertiesFromObject (m : invokeIDManager)
    (object : BACnetObject) (propertyIDs : list Z) : request :=
  let apduBuffer := [Z.lor APDU_CONFIRMED_REQUEST 0x02; 0x75] in
  let '(invokeID, m) := Next m in
  let apduBuffer := apduBuffer ++ [invokeID] in
  let apduBuffer := apduBuffer ++ [SERVICE_CONFIRMED_READ_PROPERTY_MULTIPLE] in
  let apduBuffer := apduBuffer ++ [0x0C] in
  let objectIdentifier := packObject object in
  let apduBuffer := apduBuffer ++ putUint32 objectIdentifier in
  let apduBuffer := apduBuffer ++ [0x1E] in
  let apduBuffer :=
    fold_left (fun apduBuffer propID => apduBuffer ++ [0x09; propID mod 256])
              propertyIDs apduBuffer in
  let apduBuffer := apduBuffer ++ [0x1F] in
  mkConfirmed m invokeID apduBuffer.

(** The APDU of a datagram: what follows the four BVLC and the two NPDU
    octets. *)
Definition apdu_of (datagram : list Z) : list Z := skipn 6 datagram.

(** ** decoder.go: the re-subscription interval of handleCOVSubscription

    [time.Duration(float64(lifetime)*0.8) * time.Second], then the guard
    [if reSubscribeInterval <= 0].  The product is taken in binary64
    ([SFmul 53 1024]); the conversion to [time.Duration] (an [int64])
    drops the fraction; a duration counts nanoseconds. *)

Definition float64_of_Z (n : Z) : spec_float := binary_normalize 53 1024 n 0 false.

(** The binary64 nearest to 0.8: 7205759403792794 * 2^-53. *)
Definition float64_0_8 : spec_float := S754_finite false 7205759403792794 (-53).

Definition float64_mul : spec_float -> spec_float -> spec_float := SFmul 53 1024.

Definition int64_wrap (z : Z) : Z := (z + 2^63) mod 2^64 - 2^63.

(** Conversion of a finite binary64 to [int64]: truncation toward zero. *)
Definition int64_of_float64 (f : spec_float) : Z :=
  match f with
  | S754_finite s m e =>
      let a := if 0 <=? e then Z.pos m * 2 ^ e else Z.pos m / 2 ^ (- e) in
      int64_wrap (if s then - a else a)
  | _ => 0
  end.

Definition Second : Z := 1000000000.

Definition reSubscribeInterval (lifetime : Z) : Z :=
  let reSubscribeInterval :=
    int64_wrap (int64_of_float64 (float64_mul (float64_of_Z lifetime) float64_0_8) * Second) in
  if reSubscribeInterval <=? 0 then 1 * Second else reSubscribeInterval.

(** ** Specification-side definitions *)

(** The interval the specification gives for the subscription worker,
    in nanoseconds: max(1 second, 0.8 x lifetime seconds).  For an integer
    number of seconds, 0.8 x lifetime seconds is [lifetime * 800000000]
    nanoseconds exactly. *)
Definition specifiedInterval (lifetime : Z) : Z :=
  Z.max (1 * Second) (lifetime * 800000000).

(** *** Application values as section 4.1 frames them

    A tag octet holds the tag number in its upper four bits, the class in
    bit 3 (0 for an application tag) and the length/value/type field in
    its lower three bits: 0..4 give the length of the data, 5 announces a
    length octet (0..253 here).  A Boolean carries its value in that field
    and has no data octets.  The extent of a value is given by its length
    field, whatever a decoder makes of it. *)
Inductive AppValue : Type :=
  | ABoolean (b : bool)
  | APrimitive (tagNumber : Z) (extended : bool) (data : list Z).

Definition encode_value (v : AppValue) : list Z :=
  match v with
  | ABoolean b => [16 * 1 + (if b then 1 else 0)]
  | APrimitive tagNumber false data =>
      (16 * tagNumber + Z.of_nat (length data)) :: data
  | APrimitive tagNumber true data =>
      (16 * tagNumber + 5) :: Z.of_nat (length data) :: data
  end.

Definition octetb (b : Z) : bool := (0 <=? b) && (b <? 256).

(** Well-formed framing: a tag number in 0..14 (15 is the extended-tag
    escape) that is not Boolean's, octets as data, at most 4 of them with
    a direct length and at most 253 with a length octet. *)
Definition wf_value (v : AppValue) : bool :=
  match v with
  | ABoolean _ => true
  | APrimitive tagNumber extended data =>
      (0 <=? tagNumber) && (tagNumber <=? 14) && negb (tagNumber =? 1)
      && forallb octetb data
      && (Z.of_nat (length data) <=? (if extended then 253 else 4))
  end.

(** The wire forms of the table of section 4.1: Null has no data; Unsigned
    and Enumerated have 1..4 octets; Real and ObjectIdentifier have 4; the
    length of a CharacterString counts its encoding indicator; a BitString
    has the StatusFlags shape, the unused-bit count 4 and one payload
    octet.  The tag numbers that are not in the table may have any
    length. *)
Definition table_form (v : AppValue) : bool :=
  match v with
  | ABoolean _ => true
  | APrimitive tagNumber _ data =>
      let n := Z.of_nat (length data) in
      if tagNumber =? 0 then n =? 0
      else if (tagNumber =? 2) || (tagNumber =? 9) then (1 <=? n) && (n <=? 4)
      else if (tagNumber =? 4) || (tagNumber =? 12) then n =? 4
      else if tagNumber =? 7 then 1 <=? n
      else if tagNumber =? 8 then (n =? 2) && (nth 0 data 0 =? 4)
      else true
  end.

(** "Decoding an application value returns the variant chosen by the tag
    number": big-endian numbers, the text after the encoding indicator,
    the bits 3, 2, 1, 0 of the payload octet of a StatusFlags, the packed
    object identifier, and the octets themselves for the tag numbers that
    are not in the table. *)
Definition value_of (v : AppValue) : Value :=
  match v with
  | ABoolean b => VBool b
  | APrimitive tagNumber _ data =>
      if tagNumber =? 0 then VNil
      else if (tagNumber =? 2) || (tagNumber =? 9) then VUint32 (be_value data)
      else if tagNumber =? 4 then VFloat32 (be_value data)
      else if tagNumber =? 7 then VString (tl data)
      else if tagNumber =? 8 then
        VStatusFlags {| InAlarm := Z.testbit (nth 1 data 0) 3;
                        Fault := Z.testbit (nth 1 data 0) 2;
                        Overridden := Z.testbit (nth 1 data 0) 1;
                        OutOfService := Z.testbit (nth 1 data 0) 0 |}
      else if tagNumber =? 12 then VObject (unpackObject (be_value data))
      else VBytes data
  end.

(** *** The body of a ReadPropertyMultiple ACK as section 4.4 describes it

    A read-access-result is context-0 objectIdentifier, open-tag-1, zero
    or more property records, close-tag-1; a property record is context-2
    propertyID (one octet), open-tag-4, one or more application values,
    close-tag-4; the body is a sequence of read-access-results.  A body is
    given by the 32-bit word of each object identifier and, for each
    property, its identifier and its values; [encode_body] is its wire
    form, each value delimited by its own length field. *)
Definition encode_property (p : Z * list AppValue) : list Z :=
  [0x29; p.1; 0x4E] ++ flat_map encode_value p.2 ++ [0x4F].

Definition encode_result (r : Z * list (Z * list AppValue)) : list Z :=
  [0x0C] ++ putUint32 r.1 ++ [0x1E] ++ flat_map encode_property r.2 ++ [0x1F].

Definition encode_body (rs : list (Z * list (Z * list AppValue))) : list Z :=
  flat_map encode_result rs.

Definition wf_property (p : Z * list AppValue) : bool :=
  octetb p.1 && negb (Nat.eqb (length p.2) 0) && forallb wf_value p.2.

Definition wf_result (r : Z * list (Z * list AppValue)) : bool :=
  (0 <=? r.1) && (r.1 <? 2^32) && forallb wf_property r.2.

Definition wf_body (rs : list (Z * list (Z * list AppValue))) : bool :=
  forallb wf_result rs.

(** Every value of the body has a wire form of the table of section 4.1. *)
Definition table_forms (rs : list (Z * list (Z * list AppValue))) : bool :=
  forallb (fun r : Z * list (Z * list AppValue) =>
             forallb (fun p : Z * list AppValue => forallb table_form p.2) r.2) rs.

(** Every property bracket of the body holds exactly one value. *)
Definition single_valued (rs : list (Z * list (Z * list AppValue))) : bool :=
  forallb (fun r : Z * list (Z * list AppValue) =>
             forallb (fun p : Z * list AppValue => Nat.eqb (length p.2) 1) r.2) rs.

(** "When a property's bracketed body decodes to a single value, it is
    returned as that value; when it contains two or more, as a list of
    values." *)
Definition bracket_value (vs : list AppValue) : Value :=
  match vs with
  | [v] => value_of v
  | _ => VList (value_of <$> vs)
  end.

Definition property_values (ps : list (Z * list AppValue)) : list (Z * Value) :=
  (fun p : Z * list AppValue => (p.1, bracket_value p.2)) <$> ps.

Definition body_values (rs : list (Z * list (Z * list AppValue)))
  : list (Z * list (Z * Value)) :=
  (fun r : Z * list (Z * list AppValue) => (r.1, property_values r.2)) <$> rs.

(** *** The list of values of a notification as section 4.4 describes it

    Zero or more records, each of them context-0 propertyID (one octet),
    open-tag-2, one application value, close-tag-2; then close-tag-4. *)
Definition encode_cov_record (p : Z * AppValue) : list Z :=
  [0x09; p.1; 0x2E] ++ encode_value p.2 ++ [0x2F].

Definition encode_cov_values (ps : list (Z * AppValue)) : list Z :=
  flat_map encode_cov_record ps ++ [0x4F].

Definition wf_cov_record (p : Z * AppValue) : bool :=
  octetb p.1 && wf_value p.2 && table_form p.2.

Definition cov_record_value (p : Z * AppValue) : BACnetPropertyValue :=
  {| PropertyID := p.1; PropValue := value_of p.2 |}.

(** The body of an ACK: what follows the envelope (6 octets) and the
    Complex-ACK header (type, invoke ID, service choice). *)
Definition ack_body (data : list Z) : list Z := skipn 9 data.

(** The objects and the property identifiers that appear in a body, given
    as the list of its read-access-results. *)
Definition body_objects {P} (rs : list (Z * P)) : gset BACnetObject :=
  list_to_set (unpackObject <$> rs.*1).

Definition body_property_ids {V} (rs : list (Z * list (Z * V))) : gset Z :=
  ⋃ ((fun r : Z * list (Z * V) => list_to_set (r.2).*1) <$> rs).

(** The properties of the last read-access-result of a body that names the
    object [o]. *)
Fixpoint last_result {P} (o : BACnetObject) (rs : list (Z * P)) : option P :=
  match rs with
  | [] => None
  | (id, ps) :: rs' =>
      match last_result o rs' with
      | Some ps' => Some ps'
      | None => if decide (unpackObject id = o) then Some ps else None
      end
  end.

(** The union, over the objects of a returned map, of their property-ID
    sets. *)
Definition map_property_ids (m : gmap BACnetObject (gmap Z Value)) : gset Z :=
  ⋃ ((fun kv : BACnetObject * gmap Z Value => dom kv.2) <$> map_to_list m).

(** An error that is, or wraps, the exhaustion of a loop budget. *)
Fixpoint mentions_fuel (e : error) : bool :=
  match e with
  | OutOfFuel => true
  | Errorw _ e' => mentions_fuel e'
  | _ => false
  end.

(** The maps that the ReadPropertyMultiple ACK decoder builds from the
    property records of one read-access-result, and from the
    read-access-results of a body: each assignment [m[k] = v] in the order
    of the body. *)
Definition properties_of (ps : list (Z * Value)) (acc : gmap Z Value) : gmap Z Value :=
  fold_left (fun m p => <[p.1 := p.2]> m) ps acc.

Definition results_of (rs : list (Z * list (Z * Value)))
    (acc : gmap BACnetObject (gmap Z Value)) : gmap BACnetObject (gmap Z Value) :=
  fold_left (fun m x => <[unpackObject x.1 := properties_of x.2 ∅]> m) rs acc.

(** ** The decoder's own reading of a body

    The loops of parseReadPropertyMultipleResponse in relational form: a
    value is whatever decodeApplicationValue consumes, and a property
    record holds one value.  These relations describe the code, not the
    length-delimited structure of section 4.1, and serve in the proofs. *)
Inductive decoded_properties : list Z -> list (Z * Value) -> list Z -> Prop :=
  | decoded_properties_close (rest : list Z) :
      decoded_properties (0x1F :: rest) [] rest
  | decoded_properties_record (propID : Z) (encoded : list Z) (val : Value)
      (rest : list Z) (ps : list (Z * Value)) (rest' : list Z) :
      decodeApplicationValue encoded = Ok (val, 0x4F :: rest) ->
      decoded_properties rest ps rest' ->
      decoded_properties (0x29 :: propID :: 0x4E :: encoded) ((propID, val) :: ps) rest'.

Inductive decoded_results : list Z -> list (Z * list (Z * Value)) -> Prop :=
  | decoded_results_end : decoded_results [] []
  | decoded_results_object (b0 b1 b2 b3 : Z) (props : list Z)
      (ps : list (Z * Value)) (rest : list Z) (rs : list (Z * list (Z * Value))) :
      decoded_properties props ps rest ->
      decoded_results rest rs ->
      decoded_results (0x0C :: b0 :: b1 :: b2 :: b3 :: 0x1E :: props)
                      ((be_value [b0; b1; b2; b3], ps) :: rs).

(** The whole-second form of the re-subscription interval, as a check that
    can be run on each lifetime. *)
Definition interval_whole_seconds (lifetime : Z) : bool :=
  reSubscribeInterval lifetime =? Z.max 1 (lifetime * 4 / 5) * Second.

(** ** Budget of the loops

    A computation is [sound] when it never fails for lack of budget and
    never leaves more unread than it was given; it is [consuming] when, on
    success, it has read at least one octet.  [sound_upto n] restricts
    [sound] to readers of at most [n] octets. *)
Definition well_behaved {A} (x : result (A * Reader)) (r : Reader) : Prop :=
  match x with
  | Ok (_, r') => (length r' <= length r)%nat
  | Err e => mentions_fuel e = false
  end.

Definition progresses {A} (x : result (A * Reader)) (r : Reader) : Prop :=
  match x with
  | Ok (_, r') => (length r' < length r)%nat
  | Err e => mentions_fuel e = false
  end.

Definition sound {A} (m : M A) : Prop := forall r, well_behaved (m r) r.

Definition consuming {A} (m : M A) : Prop := forall r, progresses (m r) r.

Definition sound_upto {A} (n : nat) (m : M A) : Prop :=
  forall r, (length r <= n)%nat -> well_behaved (m r) r.


(** ** parser.go: parseObjectList *)

(** The loop over the object identifiers of the list: the end of the data
    and the closing tag 0x3F both end it. *)
Fixpoint ol_objects (fuel : nat) (objectList : list BACnetObject)
  : M (list BACnetObject) :=
  match fuel with
  | O => fail OutOfFuel
  | S fuel' =>
      fun r =>
        match ReadByte r with
        | Err _ => Ok (objectList, r)
        | Ok (tag, r) =>
            (if tag =? 0x3F then ret objectList
             else if tag =? 0xC4 then
               let* rawObjId := wrap "error reading object id from list" (binaryRead 4) in
               ol_objects fuel' (objectList ++ [unpackObject rawObjId])
             else fail (Errorf "unexpected tag in object list")) r
        end
  end.

Definition parseObjectList (data : list Z) (expectedInvokeID : Z)
  : result (list BACnetObject) :=
  run
    (let* bvlcHeader := wrap "error reading BVLC header" readBVLCHeader in
     let* npduHeader := wrap "error reading NPDU header" readNPDU in
     let* apduType := wrap "error reading APDU type" ReadByte in
     if negb (Z.land apduType 0xF0 =? APDU_COMPLEX_ACK) then
       fail (Errorf "not a Complex-ACK")
     else
     let* invokeID := ReadByte_ in
     if negb (invokeID =? expectedInvokeID) then
       fail (Errorf "invoke ID mismatch")
     else
     let* service := wrap "error reading service choice" ReadByte in
     if negb (service =? SERVICE_CONFIRMED_READ_PROPERTY) then
       fail (Errorf "not a ReadProperty ACK")
     else
     let* tag := wrap "error reading object identifier tag" ReadByte in
     if negb (tag =? 0x0C) then
       fail (Errorf "expected object identifier tag 0x0C")
     else
     let* objID := wrap "error reading object identifier" (binaryRead 4) in
     let* tag := wrap "error reading property identifier tag" ReadByte in
     if negb (tag =? 0x19) then
       fail (Errorf "expected property identifier tag 0x19")
     else
     let* propID := wrap "error reading property identifier" (binaryRead 1) in
     let* tag := wrap "error reading opening tag for object list" ReadByte in
     if negb (tag =? 0x3E) then
       fail (Errorf "expected opening tag 0x3E for object list")
     else
     ol_objects (S (length data)) [])
    data.

(** ** The UDP socket as the methods see it

    [c.conn.WriteTo] succeeds or returns an error; [c.conn.ReadFromUDP],
    under the read deadline, returns a datagram with its source address, or
    a timeout, or another error.  A datagram longer than the read buffer is
    cut to the size of the buffer ([readBuffer[:n]]). *)
Inductive readFromUDP : Type :=
  | Received (data : list Z) (addr : UDPAddr)
  | TimedOut
  | ReadFailed (e : error).

Record exchange : Type := mkExchange {
  write_error : option error;
  read_result : readFromUDP
}.

(** ** decoder.go: WhoIs *)

Definition WhoIs_datagram : list Z :=
  writeBVLCHeader {| bvlc_Type := BVLC_TYPE_BACNET_IP;
                     bvlc_Function := BVLC_ORIGINAL_BROADCAST_NPDU;
                     bvlc_Length := 8 |}
  ++ writeNPDU {| npdu_Version := 1; npdu_Control := NPDU_CONTROL_NORMAL_MESSAGE |}
  ++ [APDU_UNCONFIRMED_REQUEST; SERVICE_UNCONFIRMED_WHO_IS].

(** The loop that listens for I-Am responses.  [reads] is what the
    successive calls of [ReadFromUDP] return before the deadline; once it is
    used up the next call times out. *)
Fixpoint WhoIs_listen (reads : list readFromUDP) (devices : list DeviceInfo)
  : result (list DeviceInfo) :=
  match reads with
  | [] => Ok devices
  | TimedOut :: _ => Ok devices
  | ReadFailed e :: _ => Err (Errorw "failed to read from UDP" e)
  | Received data addr :: reads' =>
      match parseIAm (firstn 1500 data) addr with
      | Ok device => WhoIs_listen reads' (devices ++ [device])
      | Err _ => WhoIs_listen reads' devices
      end
  end.

Definition WhoIs (write : option error) (reads : list readFromUDP)
  : result (list DeviceInfo) :=
  match write with
  | Some e => Err (Errorw "failed to send WhoIs packet" e)
  | None => WhoIs_listen reads []
  end.

(** ** decoder.go: the reply side of the confirmed requests

    After the datagram is built the five methods run the same statements:
    [WriteTo], then one [ReadFromUDP] into a buffer of [size] octets, then
    the parser of the service on [readBuffer[:n]].  [service] is the name
    that the messages carry. *)
Definition awaitReply {A} (service : string) (size : nat)
    (parse : list Z -> result A) (x : exchange) : result A :=
  match write_error x with
  | Some e => Err (Errorw ("failed to send " +:+ service +:+ " packet") e)
  | None =>
      match read_result x with
      | TimedOut => Err (Errorf ("timeout waiting for " +:+ service +:+ " response"))
      | ReadFailed e => Err (Errorw "failed to read from UDP" e)
      | Received data _ => parse (firstn size data)
      end
  end.

(** The Simple-ACK check at the end of sendSubscribeCOVRequest:
    [r.Seek(6, 0)], then the APDU type and the invoke ID, both read with
    their errors dropped. *)
Definition parseSimpleAck (data : list Z) (invokeID : Z) : result unit :=
  run
    (let* apduType := ReadByte_ in
     if negb (Z.land apduType 0xF0 =? APDU_SIMPLE_ACK) then
       fail (Errorf "not a Simple-ACK")
     else
     let* respInvokeID := ReadByte_ in
     if negb (respInvokeID =? invokeID) then
       fail (Errorf "invoke ID mismatch")
     else ret tt)
    (skipn 6 data).

Definition sendSubscribeCOVRequest_reply (m : invokeIDManager) (object : BACnetObject)
    (subscriberProcessIdentifier : Z) (issueConfirmedNotifications : bool)
    (lifetime : Z) (x : exchange) : result unit :=
  let req := sendSubscribeCOVRequest m object subscriberProcessIdentifier
               issueConfirmedNotifications lifetime in
  awaitReply "SubscribeCOV" 2048
    (fun data => parseSimpleAck data (req_invokeID req)) x.

Definition GetObjectList_reply (m : invokeIDManager) (device : DeviceInfo)
    (x : exchange) : result (list BACnetObject) :=
  let req := GetObjectList m device in
  awaitReply "ReadProperty" 2048
    (fun data => parseObjectList data (req_invokeID req)) x.

Definition GetObjectAllPropertyList_reply (m : invokeIDManager) (object : BACnetObject)
    (x : exchange) : result (list BACnetPropertyValue) :=
  let req := GetObjectAllPropertyList m object in
  awaitReply "ReadPropertyMultiple" 4096
    (fun data => parseObjectPropertyList data (req_invokeID req)) x.

Definition ReadPropertiesFromMultipleObjects_reply (m : invokeIDManager)
    (objects : list BACnetObject) (propertyID : Z) (x : exchange)
  : result (gmap BACnetObject (gmap Z Value)) :=
  let req := ReadPropertiesFromMultipleObjects m objects propertyID in
  awaitReply "ReadPropertyMultiple" 4096
    (fun data => parseReadPropertyMultipleResponse data (req_invokeID req)) x.

(** The end of ReadSpecificPropertiesFromObject: the entry of the requested
    object in the parsed results.  (The entries of the map are always
    property maps, so the type assertion of the source cannot fail.) *)
Definition selectObject (parsedResults : gmap BACnetObject (gmap Z Value))
    (object : BACnetObject) : result (gmap Z Value) :=
  match parsedResults !! object with
  | Some propsMap => Ok propsMap
  | None => Err (Errorf "object not found in ReadPropertyMultiple response")
  end.

Definition ReadSpecificPropertiesFromObject_reply (m : invokeIDManager)
    (object : BACnetObject) (propertyIDs : list Z) (x : exchange)
  : result (gmap Z Value) :=
  let req := ReadSpecificPropertiesFromObject m object propertyIDs in
  awaitReply "ReadPropertyMultiple" 4096
    (fun data =>
       match parseReadPropertyMultipleResponse data (req_invokeID req) with
       | Err e => Err e
       | Ok parsedResults => selectObject parsedResults object
       end) x.

(** ** Definitions used by the statements about the remaining functions *)

(** The invoke IDs returned by [n] successive calls of [Next], with the
    state of the allocator after them. *)
Fixpoint Next_n (n : nat) (m : invokeIDManager) : list Z * invokeIDManager :=
  match n with
  | O => ([], m)
  | S n' =>
      let '(id, m1) := Next m in
      let '(ids, m2) := Next_n n' m1 in
      (id :: ids, m2)
  end.

(** An octet. *)
Definition is_octet (b : Z) : Prop := 0 <= b < 256.

(** An object identifier within its ranges: a 10-bit type and a 22-bit
    instance. *)
Definition valid_object (o : BACnetObject) : Prop :=
  0 <= obj_type o <= 1023 /\ 0 <= obj_instance o <= 4194303.

(** A computation that, on success, has read a prefix of its input: what
    it leaves is a suffix of what it was given. *)
Definition reads_prefix {A} (m : M A) : Prop :=
  forall r a r', m r = Ok (a, r') -> exists pre, r = pre ++ r'.

(** The reading that the loop of parseCOVNotification makes of a list of
    values, in relational form: a record is 09, the property identifier,
    2E, whatever decodeApplicationValue consumes, 2F; the list ends with
    4F.  It describes the code and serves in the proofs. *)
Inductive decoded_records : list Z -> list BACnetPropertyValue -> list Z -> Prop :=
  | decoded_records_close (rest : list Z) :
      decoded_records (0x4F :: rest) [] rest
  | decoded_records_record (propID : Z) (encoded : list Z) (val : Value)
      (rest : list Z) (vs : list BACnetPropertyValue) (rest' : list Z) :
      decodeApplicationValue encoded = Ok (val, 0x2F :: rest) ->
      decoded_records rest vs rest' ->
      decoded_records (0x09 :: propID :: 0x2E :: encoded)
                  ({| PropertyID := propID; PropValue := val |} :: vs) rest'.
(** * Properties *)

(** ** Reader primitives *)

Lemma ReadFull_short (n : Z) (r : Reader) :
  0 < n -> Len r < n ->
  ReadFull n r = Err (match r with [] => EOF | _ => ErrUnexpectedEOF end).
Proof.
  intros Hn Hr. unfold ReadFull.
  destruct (Z.leb_spec n 0) as [H|H]; [lia|].
  destruct (Z.ltb_spec (Len r) n) as [H'|H']; [reflexivity|lia].
Qed.

Lemma ReadFull_enough (n : Z) (r : Reader) :
  0 < n -> n <= Len r ->
  ReadFull n r = Ok (firstn (Z.to_nat n) r, skipn (Z.to_nat n) r).
Proof.
  intros Hn Hr. unfold ReadFull.
  destruct (Z.leb_spec n 0) as [H|H]; [lia|].
  destruct (Z.ltb_spec (Len r) n) as [H'|H']; [lia|reflexivity].
Qed.

Lemma ReadFull_4 (b0 b1 b2 b3 : Z) (r : Reader) :
  ReadFull 4 (b0 :: b1 :: b2 :: b3 :: r) = Ok ([b0; b1; b2; b3], r).
Proof.
  rewrite ReadFull_enough; [reflexivity|lia|].
  unfold Len. cbn [length]. lia.
Qed.

(** ** Object identifiers *)

Lemma be_value_putUint32 (v : Z) :
  0 <= v < 2^32 -> be_value (putUint32 v) = v.
Proof.
  intros Hv. unfold be_value, putUint32. cbn [fold_left].
  rewrite !Z.shiftr_div_pow2 by lia.
  change (2^32) with 4294967296 in Hv.
  change (2^24) with 16777216. change (2^16) with 65536. change (2^8) with 256.
  Z.div_mod_to_equations. lia.
Qed.

Lemma land_shiftl_small (t i : Z) :
  0 <= i < 2^22 -> Z.land (Z.shiftl t 22) i = 0.
Proof.
  intros Hi. apply Z.bits_inj'. intros n Hn.
  rewrite Z.land_spec, Z.bits_0.
  destruct (Z.ltb_spec n 22).
  - rewrite Z.shiftl_spec_low by lia. reflexivity.
  - replace (Z.testbit i n) with false; [apply andb_false_r|].
    symmetry. destruct (Z.eq_dec i 0) as [->|]; [apply Z.bits_0|].
    apply Z.bits_above_log2; [lia|].
    apply Z.log2_lt_pow2; [lia|].
    apply Z.lt_le_trans with (2^22); [lia|].
    apply Z.pow_le_mono_r; lia.
Qed.

Lemma packObject_in_range (t i : Z) :
  0 <= t <= 1023 -> 0 <= i <= 4194303 ->
  packObject (mkObject t i) = t * 2^22 + i.
Proof.
  intros Ht Hi. unfold packObject. cbn [obj_type obj_instance].
  rewrite Z.shiftl_mul_pow2 by lia.
  rewrite Z.mod_small by lia.
  rewrite <- Z.shiftl_mul_pow2 by lia.
  assert (Hland : Z.land (Z.shiftl t 22) i = 0) by (apply land_shiftl_small; lia).
  rewrite <- Z.lxor_lor by exact Hland.
  rewrite <- Z.add_nocarry_lxor by exact Hland.
  reflexivity.
Qed.

Lemma unpackObject_split (t i : Z) :
  0 <= i <= 4194303 ->
  unpackObject (t * 2^22 + i) = mkObject t i.
Proof.
  intros Hi. unfold unpackObject. f_equal.
  - rewrite Z.shiftr_div_pow2 by lia.
    rewrite Z.add_comm, Z.div_add by lia.
    rewrite Z.div_small by lia. reflexivity.
  - change 0x3FFFFF with (Z.ones 22). rewrite Z.land_ones by lia.
    rewrite Z.add_comm, Z.mod_add by lia.
    apply Z.mod_small. lia.
Qed.

(** The decoders' split of the packed word loses nothing: two words with
    the same type and instance halves are the same word. *)
Lemma unpackObject_inj (a b : Z) : unpackObject a = unpackObject b -> a = b.
Proof.
  unfold unpackObject. intros H. injection H as H1 H2.
  change 0x3FFFFF with (Z.ones 22) in H2.
  rewrite !Z.land_ones in H2 by lia.
  rewrite !Z.shiftr_div_pow2 in H1 by lia.
  rewrite (Z.div_mod a (2^22)), (Z.div_mod b (2^22)) by lia.
  rewrite H1, H2. reflexivity.
Qed.

(** ** Inversion of the reader monad *)

Lemma bind_Ok {A B} (m : M A) (k : A -> M B) (r : Reader) (x : B * Reader) :
  bind m k r = Ok x -> exists a r1, m r = Ok (a, r1) /\ k a r1 = Ok x.
Proof.
  unfold bind. destruct (m r) as [[a r1]|e]; [|discriminate].
  intros H. exists a, r1. split; [reflexivity|exact H].
Qed.

Lemma wrap_Ok {A} (msg : string) (m : M A) (r : Reader) (x : A * Reader) :
  wrap msg m r = Ok x -> m r = Ok x.
Proof. unfold wrap. destruct (m r); [trivial|discriminate]. Qed.

Lemma ret_Ok {A} (a : A) (r : Reader) (x : A * Reader) :
  ret a r = Ok x -> x = (a, r).
Proof. unfold ret. congruence. Qed.

Lemma run_Ok {A} (m : M A) (data : list Z) (a : A) :
  run m data = Ok a -> exists r, m data = Ok (a, r).
Proof.
  unfold run. destruct (m data) as [[a' r]|e]; [|discriminate].
  intros [= ->]. exists r. reflexivity.
Qed.

Lemma ReadByte_Ok (r : Reader) (b : Z) (r' : Reader) :
  ReadByte r = Ok (b, r') -> r = b :: r'.
Proof. destruct r; [discriminate|]. cbn. congruence. Qed.

Lemma ReadByte__Ok (r : Reader) (b : Z) (r' : Reader) :
  ReadByte_ r = Ok (b, r') -> r = b :: r' \/ (r = [] /\ b = 0 /\ r' = []).
Proof.
  destruct r; cbn; intros [= <- <-]; [right|left]; auto.
Qed.

Lemma PeekByte_Ok (r : Reader) (b : Z) (r' : Reader) :
  PeekByte r = Ok (b, r') -> r' = r /\ exists t, r = b :: t.
Proof.
  destruct r as [|b' t]; [discriminate|]. cbn. intros [= <- <-].
  split; [reflexivity|]. exists t. reflexivity.
Qed.

Lemma ReadFull_Ok (n : Z) (r : Reader) (bs : list Z) (r' : Reader) :
  0 < n -> ReadFull n r = Ok (bs, r') ->
  r = bs ++ r' /\ length bs = Z.to_nat n.
Proof.
  intros Hn. unfold ReadFull.
  destruct (Z.leb_spec n 0); [lia|].
  destruct (Z.ltb_spec (Len r) n); [discriminate|].
  intros [= <- <-]. split.
  - symmetry. apply firstn_skipn.
  - apply length_take_le. unfold Len in *. lia.
Qed.

Lemma binaryRead_1_Ok (r : Reader) (v : Z) (r' : Reader) :
  binaryRead 1 r = Ok (v, r') -> r = v :: r'.
Proof.
  unfold binaryRead. intros H. apply bind_Ok in H as (bs & r1 & Hbs & H).
  apply ReadFull_Ok in Hbs as [-> Hlen]; [|lia].
  apply ret_Ok in H. injection H as -> ->.
  destruct bs as [|b [|? ?]]; try discriminate Hlen.
  unfold be_value. cbn. reflexivity.
Qed.

Lemma binaryRead_2_Ok (r : Reader) (v : Z) (r' : Reader) :
  binaryRead 2 r = Ok (v, r') ->
  exists b0 b1, r = b0 :: b1 :: r' /\ v = be_value [b0; b1].
Proof.
  unfold binaryRead. intros H. apply bind_Ok in H as (bs & r1 & Hbs & H).
  apply ReadFull_Ok in Hbs as [-> Hlen]; [|lia].
  apply ret_Ok in H. injection H as -> ->.
  destruct bs as [|b0 [|b1 [|? ?]]]; try discriminate Hlen.
  exists b0, b1. split; reflexivity.
Qed.

Lemma binaryRead_4_Ok (r : Reader) (v : Z) (r' : Reader) :
  binaryRead 4 r = Ok (v, r') ->
  exists b0 b1 b2 b3, r = b0 :: b1 :: b2 :: b3 :: r' /\ v = be_value [b0; b1; b2; b3].
Proof.
  unfold binaryRead. intros H. apply bind_Ok in H as (bs & r1 & Hbs & H).
  apply ReadFull_Ok in Hbs as [-> Hlen]; [|lia].
  apply ret_Ok in H. injection H as -> ->.
  destruct bs as [|b0 [|b1 [|b2 [|b3 [|? ?]]]]]; try discriminate Hlen.
  exists b0, b1, b2, b3. split; reflexivity.
Qed.

Lemma readBVLCHeader_Ok (r : Reader) (h : BVLCHeader) (r' : Reader) :
  readBVLCHeader r = Ok (h, r') ->
  exists b0 b1 b2 b3, r = b0 :: b1 :: b2 :: b3 :: r' /\
    h = {| bvlc_Type := b0; bvlc_Function := b1; bvlc_Length := be_value [b2; b3] |}.
Proof.
  unfold readBVLCHeader. intros H. apply bind_Ok in H as (bs & r1 & Hbs & H).
  apply ReadFull_Ok in Hbs as [-> Hlen]; [|lia].
  apply ret_Ok in H. injection H as -> ->.
  destruct bs as [|b0 [|b1 [|b2 [|b3 [|? ?]]]]]; try discriminate Hlen.
  exists b0, b1, b2, b3. split; reflexivity.
Qed.

Lemma readNPDU_Ok (r : Reader) (h : NPDU) (r' : Reader) :
  readNPDU r = Ok (h, r') ->
  exists b0 b1, r = b0 :: b1 :: r' /\ h = {| npdu_Version := b0; npdu_Control := b1 |}.
Proof.
  unfold readNPDU. intros H. apply bind_Ok in H as (bs & r1 & Hbs & H).
  apply ReadFull_Ok in Hbs as [-> Hlen]; [|lia].
  apply ret_Ok in H. injection H as -> ->.
  destruct bs as [|b0 [|b1 [|? ?]]]; try discriminate Hlen.
  exists b0, b1. split; reflexivity.
Qed.

(** Forward evaluation of the fixed-size reads. *)
Lemma ReadFull_1 (b0 : Z) (r : Reader) : ReadFull 1 (b0 :: r) = Ok ([b0], r).
Proof. rewrite ReadFull_enough; [reflexivity|lia|]. unfold Len. cbn [length]. lia. Qed.

Lemma ReadFull_2 (b0 b1 : Z) (r : Reader) :
  ReadFull 2 (b0 :: b1 :: r) = Ok ([b0; b1], r).
Proof. rewrite ReadFull_enough; [reflexivity|lia|]. unfold Len. cbn [length]. lia. Qed.

Lemma binaryRead_1 (b0 : Z) (r : Reader) : binaryRead 1 (b0 :: r) = Ok (b0, r).
Proof. unfold binaryRead, bind. rewrite ReadFull_1. reflexivity. Qed.

Lemma binaryRead_2 (b0 b1 : Z) (r : Reader) :
  binaryRead 2 (b0 :: b1 :: r) = Ok (be_value [b0; b1], r).
Proof. unfold binaryRead, bind. rewrite ReadFull_2. reflexivity. Qed.

Lemma binaryRead_4 (b0 b1 b2 b3 : Z) (r : Reader) :
  binaryRead 4 (b0 :: b1 :: b2 :: b3 :: r) = Ok (be_value [b0; b1; b2; b3], r).
Proof. unfold binaryRead, bind. rewrite ReadFull_4. reflexivity. Qed.

Lemma readBVLCHeader_4 (b0 b1 b2 b3 : Z) (r : Reader) :
  readBVLCHeader (b0 :: b1 :: b2 :: b3 :: r)
  = Ok ({| bvlc_Type := b0; bvlc_Function := b1; bvlc_Length := be_value [b2; b3] |}, r).
Proof. unfold readBVLCHeader, bind. rewrite ReadFull_4. reflexivity. Qed.

Lemma readNPDU_2 (b0 b1 : Z) (r : Reader) :
  readNPDU (b0 :: b1 :: r) = Ok ({| npdu_Version := b0; npdu_Control := b1 |}, r).
Proof. unfold readNPDU, bind. rewrite ReadFull_2. reflexivity. Qed.

Lemma bind_eval {A B} (m : M A) (k : A -> M B) (r r1 : Reader) (a : A) :
  m r = Ok (a, r1) -> bind m k r = k a r1.
Proof. unfold bind. intros ->. reflexivity. Qed.

Lemma wrap_eval {A} (msg : string) (m : M A) (r r1 : Reader) (a : A) :
  m r = Ok (a, r1) -> wrap msg m r = Ok (a, r1).
Proof. unfold wrap. intros ->. reflexivity. Qed.

(** Inversion of a successful monadic computation, statement by
    statement. *)
Ltac minv H :=
  lazymatch type of H with
  | bind _ _ _ = Ok _ =>
      let Hm := fresh "Hm" in
      apply bind_Ok in H; destruct H as (? & ? & Hm & H);
      minv Hm; cbv beta in H; minv H
  | wrap _ _ _ = Ok _ => apply wrap_Ok in H; minv H
  | ret _ _ = Ok _ => apply ret_Ok in H; simplify_eq
  | fail _ _ = Ok _ => discriminate H
  | ReadByte _ = Ok _ => apply ReadByte_Ok in H; simplify_eq
  | ReadByte_ _ = Ok _ =>
      apply ReadByte__Ok in H; destruct H as [H|(? & ? & ?)]; simplify_eq
  | binaryRead 1 _ = Ok _ => apply binaryRead_1_Ok in H; simplify_eq
  | binaryRead 2 _ = Ok _ =>
      apply binaryRead_2_Ok in H; destruct H as (? & ? & ? & ?); simplify_eq
  | binaryRead 4 _ = Ok _ =>
      apply binaryRead_4_Ok in H; destruct H as (? & ? & ? & ? & ? & ?); simplify_eq
  | readBVLCHeader _ = Ok _ =>
      apply readBVLCHeader_Ok in H; destruct H as (? & ? & ? & ? & ? & ?); simplify_eq
  | readNPDU _ = Ok _ =>
      apply readNPDU_Ok in H; destruct H as (? & ? & ? & ?); simplify_eq
  | (if negb (?c =? ?d) then _ else _) _ = Ok _ =>
      let E := fresh "E" in
      destruct (Z.eqb_spec c d) as [E|E]; cbn [negb] in H; [minv H|discriminate H]
  | (if (?c =? ?d) then _ else _) _ = Ok _ =>
      let E := fresh "E" in
      destruct (Z.eqb_spec c d) as [E|E]; minv H
  | _ => idtac
  end.

(** ** C9: object identifiers round-trip through the packed word *)

(** C9.  For every object identifier with type in 0..1023 and instance in
    0..4194303, the word [(type << 22) | instance], written as four
    big-endian octets (as sendSubscribeCOVRequest writes it) and decoded by
    decodeApplicationValue under tag 0xC4 (type = word >> 22,
    instance = word & 0x3FFFFF), gives back the same pair.  The pair
    (1023, 0x3FFFFF) packs to 0xFFFFFFFF and decodes to itself. *)
Theorem object_identifier_round_trip (t i : Z) (rest : list Z) :
  0 <= t <= 1023 -> 0 <= i <= 4194303 ->
  unpackObject (be_value (putUint32 (packObject (mkObject t i)))) = mkObject t i
  /\ decodeApplicationValue (0xC4 :: putUint32 (packObject (mkObject t i)) ++ rest)
     = Ok (VObject (mkObject t i), rest)
  /\ packObject (mkObject 1023 0x3FFFFF) = 0xFFFFFFFF
  /\ unpackObject 0xFFFFFFFF = mkObject 1023 0x3FFFFF.
Proof.
  intros Ht Hi.
  assert (Hpack : packObject (mkObject t i) = t * 2^22 + i)
    by (apply packObject_in_range; assumption).
  assert (Hrange : 0 <= t * 2^22 + i < 2^32) by lia.
  assert (Hrt : unpackObject (be_value (putUint32 (packObject (mkObject t i))))
                = mkObject t i).
  { rewrite Hpack, be_value_putUint32 by exact Hrange.
    apply unpackObject_split. exact Hi. }
  split; [exact Hrt|]. split; [|split; reflexivity].
  unfold decodeApplicationValue, bind at 1. cbn [ReadByte].
  change (Z.shiftr 0xC4 4) with 12. change (Z.land 0xC4 0x0F) with 4.
  cbn [Z.eqb Pos.eqb]. unfold bind at 1, ret at 1.
  unfold bind at 1, binaryRead, bind at 1.
  unfold putUint32 at 1. cbn [app]. rewrite ReadFull_4.
  unfold ret.
  change [?a; ?b; ?c; ?d] with (putUint32 (packObject (mkObject t i))).
  rewrite Hrt. reflexivity.
Qed.

Lemma object_identifier_round_trip_witness :
  unpackObject (be_value (putUint32 (packObject (mkObject 8 1234)))) = mkObject 8 1234
  /\ decodeApplicationValue (0xC4 :: putUint32 (packObject (mkObject 8 1234)) ++ [])
     = Ok (VObject (mkObject 8 1234), [])
  /\ packObject (mkObject 1023 0x3FFFFF) = 0xFFFFFFFF
  /\ unpackObject 0xFFFFFFFF = mkObject 1023 0x3FFFFF.
Proof. apply (object_identifier_round_trip 8 1234 []); lia. Defined.

(** ** C5: the StatusFlags example *)

(** C5, as the specification states it, fails: in [85 04 8A] the low nibble
    of the tag octet is 5, so decodeApplicationValue takes 0x04 as an
    extended length and then reads 0x8A where the unused-bit count is
    expected. *)
Lemma status_flags_85_04_8A_rejected :
  decodeApplicationValue [0x85; 0x04; 0x8A]
  = Err (Errorf "unexpected number of unused bits for Status_Flags")
  /\ run decodeApplicationValue [0x85; 0x04; 0x8A]
     <> Ok (VStatusFlags {| InAlarm := true; Fault := false;
                            Overridden := true; OutOfService := false |}).
Proof. split; [reflexivity|discriminate]. Qed.

(** C5 (amended).  With a tag octet whose length field is not the
    extended-length escape, the sequence [82 04 8A] (tag 8, length 2,
    unused bits 4, flags octet 0x8A) decodes to
    {inAlarm=1, fault=0, overridden=1, outOfService=0}: the flags are the
    four low bits of the flags octet. *)
Theorem status_flags_82_04_8A_decodes :
  decodeApplicationValue [0x82; 0x04; 0x8A]
  = Ok (VStatusFlags {| InAlarm := true; Fault := false;
                        Overridden := true; OutOfService := false |}, []).
Proof. reflexivity. Qed.

(** ** C10: CharacterString with a zero length field *)

Lemma tag_7_length_0 (tag : Z) :
  0 <= tag < 256 -> Z.shiftr tag 4 = 7 -> Z.land tag 0x0F = 0 -> tag = 0x70.
Proof.
  intros Hb Hn Hl.
  rewrite Z.shiftr_div_pow2 in Hn by lia.
  change 0x0F with (Z.ones 4) in Hl. rewrite Z.land_ones in Hl by lia.
  change (2^4) with 16 in *.
  rewrite (Z.div_mod tag 16) by lia. rewrite Hn, Hl. reflexivity.
Qed.

(** C10.  When the first tag octet has tag number 7 and length field 0
    (the octet 0x70), the payload length is (0 - 1) mod 2^32 = 4294967295:
    after the encoding-indicator octet the decoder asks for that many
    octets, and on every input with fewer than 2^32 octets after the tag it
    returns an error, never a string. *)
Theorem character_string_zero_length_fails (tag : Z) (rest : list Z) :
  0 <= tag < 256 -> Z.shiftr tag 4 = 7 -> Z.land tag 0x0F = 0 ->
  Len rest < 2^32 ->
  (Z.land tag 0x0F - 1) mod 2^32 = 4294967295
  /\ decodeApplicationValue (tag :: rest)
     = Err (match rest with
            | [] | [_] => EOF
            | _ => ErrUnexpectedEOF
            end)
  /\ forall s rest', decodeApplicationValue (tag :: rest) <> Ok (VString s, rest').
Proof.
  intros Hb Hn Hl Hlen.
  assert (tag = 0x70) as -> by (apply tag_7_length_0; assumption).
  assert (Hres : decodeApplicationValue (0x70 :: rest)
                 = Err (match rest with
                        | [] | [_] => EOF
                        | _ => ErrUnexpectedEOF
                        end)).
  { unfold decodeApplicationValue, bind at 1. cbn [ReadByte].
    change (Z.shiftr 0x70 4) with 7. change (Z.land 0x70 0x0F) with 0.
    cbn [Z.eqb]. unfold bind at 1, ret at 1.
    change ((0 - 1) mod 2^32) with 4294967295.
    unfold bind at 1. destruct rest as [|enc payload]; [reflexivity|].
    cbn [ReadByte]. unfold bind at 1.
    rewrite ReadFull_short.
    - destruct payload; reflexivity.
    - lia.
    - unfold Len in *. cbn [length] in Hlen. lia. }
  split; [reflexivity|]. split; [exact Hres|].
  intros s rest'. rewrite Hres. discriminate.
Qed.

Lemma character_string_zero_length_fails_witness :
  (Z.land 0x70 0x0F - 1) mod 2^32 = 4294967295
  /\ decodeApplicationValue [0x70; 0; 0x41; 0x42]
     = Err ErrUnexpectedEOF
  /\ forall s rest', decodeApplicationValue [0x70; 0; 0x41; 0x42] <> Ok (VString s, rest').
Proof.
  apply (character_string_zero_length_fails 0x70 [0; 0x41; 0x42]);
    [lia | reflexivity | reflexivity | vm_compute; reflexivity].
Defined.

(** ** C8 and C1: the confirmed-request builders *)

Lemma apdu_of_frameConfirmed (apduBuffer : list Z) :
  apdu_of (frameConfirmed apduBuffer) = apduBuffer.
Proof. reflexivity. Qed.

(** C8.  For lifetime = 60, subscriberProcessID = 123, confirmed = false and
    the monitored object (AnalogInput = 0, instance 3), whatever the state
    of the invoke-ID allocator, the APDU of the datagram that
    sendSubscribeCOVRequest emits is its four header octets followed by
    09 7B 1C 00 00 00 03 29 00 39 3C. *)
Theorem subscribe_cov_apdu_tail (m : invokeIDManager) :
  let req := sendSubscribeCOVRequest m (mkObject OBJECT_ANALOG_INPUT 3) 123 false 60 in
  apdu_of (req_datagram req)
  = [0x02; 0x75; req_invokeID req; SERVICE_CONFIRMED_SUBSCRIBE_COV]
    ++ [0x09; 0x7B; 0x1C; 0x00; 0x00; 0x00; 0x03; 0x29; 0x00; 0x39; 0x3C].
Proof. destruct m as [l]. reflexivity. Qed.

(** The four builders that write the invoke ID put the value returned by
    [Next] in the third octet of the APDU. *)
Lemma lookup_fold_left_extends {A} (f : list Z -> A -> list Z) (xs : list A)
    (init : list Z) (n : nat) :
  (forall acc x, exists suffix, f acc x = acc ++ suffix) ->
  (n < length init)%nat ->
  fold_left f xs init !! n = init !! n.
Proof.
  intros Hf. revert init. induction xs as [|x xs IH]; intros init Hn; [reflexivity|].
  cbn [fold_left]. destruct (Hf init x) as [suffix Hs].
  rewrite IH by (rewrite Hs, length_app; lia).
  rewrite Hs. apply lookup_app_l. exact Hn.
Qed.

Lemma sendSubscribeCOVRequest_invoke_id m object spid confirmed lifetime :
  let req := sendSubscribeCOVRequest m object spid confirmed lifetime in
  req_invokeID req = (Next m).1 /\
  apdu_of (req_datagram req) !! 2%nat = Some (req_invokeID req).
Proof. destruct m as [l]. split; reflexivity. Qed.

Lemma GetObjectList_invoke_id m device :
  let req := GetObjectList m device in
  req_invokeID req = (Next m).1 /\
  apdu_of (req_datagram req) !! 2%nat = Some (req_invokeID req).
Proof. destruct m as [l]. split; reflexivity. Qed.

Lemma GetObjectAllPropertyList_invoke_id m object :
  let req := GetObjectAllPropertyList m object in
  req_invokeID req = (Next m).1 /\
  apdu_of (req_datagram req) !! 2%nat = Some (req_invokeID req).
Proof. destruct m as [l]. split; reflexivity. Qed.

Lemma ReadSpecificPropertiesFromObject_invoke_id m object propertyIDs :
  let req := ReadSpecificPropertiesFromObject m object propertyIDs in
  req_invokeID req = (Next m).1 /\
  apdu_of (req_datagram req) !! 2%nat = Some (req_invokeID req).
Proof.
  destruct m as [l]. split; [reflexivity|].
  cbv zeta. unfold ReadSpecificPropertiesFromObject, Next, mkConfirmed.
  cbn [req_datagram req_invokeID lastID]. rewrite apdu_of_frameConfirmed.
  assert (Hfold : forall init, (2 < length init)%nat ->
            fold_left (fun apduBuffer propID => apduBuffer ++ [0x09; propID mod 256])
                      propertyIDs init !! 2%nat = init !! 2%nat).
  { intros init Hinit. apply lookup_fold_left_extends; [|exact Hinit].
    intros acc x. eexists. reflexivity. }
  rewrite lookup_app_l.
  - rewrite Hfold by (cbn; lia). reflexivity.
  - apply lookup_lt_is_Some_1. rewrite Hfold by (cbn; lia). eexists. reflexivity.
Qed.

(** C1 fails on ReadPropertiesFromMultipleObjects: whatever the allocator
    state, the objects and the property, the third octet of the APDU is the
    service choice 0x0E, because the invoke ID obtained from [Next] is never
    written.  From the allocator state 0, [Next] returns 1 and the octet at
    the invoke-ID position is 14. *)
Theorem ReadPropertiesFromMultipleObjects_omits_invoke_id :
  (forall m objects propertyID,
     let req := ReadPropertiesFromMultipleObjects m objects propertyID in
     req_invokeID req = (Next m).1 /\
     apdu_of (req_datagram req) !! 2%nat
     = Some SERVICE_CONFIRMED_READ_PROPERTY_MULTIPLE)
  /\ (let req := ReadPropertiesFromMultipleObjects
                   (mkInvokeIDManager 0) [mkObject OBJECT_ANALOG_INPUT 1]
                   PROP_PRESENT_VALUE in
      req_invokeID req = 1 /\
      apdu_of (req_datagram req) = [0x02; 0x75; 0x0E; 0x0C; 0; 0; 0; 1; 0x1E; 0x09; 85; 0x1F] /\
      apdu_of (req_datagram req) !! 2%nat <> Some (req_invokeID req)).
Proof.
  split.
  - intros [l] objects propertyID. split; [reflexivity|].
    cbv zeta. unfold ReadPropertiesFromMultipleObjects, Next, mkConfirmed.
    cbn [req_datagram req_invokeID lastID]. rewrite apdu_of_frameConfirmed.
    rewrite lookup_fold_left_extends.
    + reflexivity.
    + intros acc x. rewrite <- !app_assoc. eexists. reflexivity.
    + cbn. lia.
  - cbv zeta. split; [reflexivity|]. split; [reflexivity|]. discriminate.
Qed.

(** ** C3: the re-subscription interval *)

(** The literal 0.8 of the source is the binary64 nearest to 4/5. *)
Lemma float64_0_8_nearest :
  SFdiv 53 1024 (float64_of_Z 4) (float64_of_Z 5) = float64_0_8.
Proof. vm_compute. reflexivity. Qed.

(** C3, as the specification states it, fails: for lifetime = 2 the worker
    renews every second, not every 1.6 seconds, because the conversion to
    [time.Duration] drops the fraction of 1.6 before the multiplication by
    [time.Second]. *)
Lemma reSubscribeInterval_2_not_specified :
  reSubscribeInterval 2 = 1 * Second
  /\ specifiedInterval 2 = 1600000000
  /\ reSubscribeInterval 2 <> specifiedInterval 2.
Proof. vm_compute. repeat split; discriminate. Qed.

Lemma interval_whole_seconds_all :
  forallb (fun n => interval_whole_seconds (Z.of_nat n)) (seq 0 256) = true.
Proof. vm_compute. reflexivity. Qed.

(** C3 (amended).  For every lifetime in 0..255 the re-subscription interval
    is a whole number of seconds: max(1, floor(0.8 x lifetime)) seconds.  In
    particular lifetime = 0 yields exactly 1 second, and a lifetime that is
    a positive multiple of 5 yields exactly 0.8 x lifetime seconds. *)
Theorem reSubscribeInterval_whole_seconds (lifetime : Z) :
  0 <= lifetime <= 255 ->
  reSubscribeInterval lifetime = Z.max 1 (lifetime * 4 / 5) * Second
  /\ reSubscribeInterval 0 = 1 * Second
  /\ (0 < lifetime -> lifetime mod 5 = 0 ->
      reSubscribeInterval lifetime = specifiedInterval lifetime).
Proof.
  intros Hl.
  assert (H : reSubscribeInterval lifetime = Z.max 1 (lifetime * 4 / 5) * Second).
  { pose proof interval_whole_seconds_all as Hall.
    rewrite forallb_forall in Hall.
    specialize (Hall (Z.to_nat lifetime)).
    rewrite Z2Nat.id in Hall by lia.
    apply Z.eqb_eq. apply Hall. apply in_seq. lia. }
  split; [exact H|]. split; [reflexivity|].
  intros Hpos Hmod. rewrite H. unfold specifiedInterval, Second.
  Z.div_mod_to_equations. lia.
Qed.

Lemma reSubscribeInterval_whole_seconds_witness :
  reSubscribeInterval 60 = Z.max 1 (60 * 4 / 5) * Second
  /\ reSubscribeInterval 0 = 1 * Second
  /\ (0 < 60 -> 60 mod 5 = 0 -> reSubscribeInterval 60 = specifiedInterval 60).
Proof. apply (reSubscribeInterval_whole_seconds 60). lia. Defined.

(** ** C4: parseIAm *)

(** C4, as the specification states it, fails: an I-Am whose object
    identifier carries the type AnalogInput (0) yields a DeviceInfo. *)
Lemma parseIAm_accepts_non_device_object :
  let data := [0x81; 0x0B; 0x00; 0x19; 0x01; 0x00; 0x10; 0x00;
               0xC4; 0x00; 0x00; 0x04; 0xD2; 0x22; 0x05; 0xC4;
               0x91; 0x00; 0x22; 0x00; 0x2A] in
  let addr := {| addr_IP := [192; 168; 1; 20]; addr_Port := 47808 |} in
  obj_type (unpackObject (be_value (firstn 4 (skipn 9 data)))) = OBJECT_ANALOG_INPUT
  /\ OBJECT_ANALOG_INPUT <> OBJECT_DEVICE
  /\ parseIAm data addr
     = Ok {| DeviceID := 1234; IPAddress := [192; 168; 1; 20];
             Port := 47808; MaxAPDU := 1476 |}.
Proof. cbv zeta. split; [reflexivity|]. split; [discriminate|reflexivity]. Qed.

(** C4 (amended).  parseIAm does not inspect the object type.  It yields a
    DeviceInfo exactly for the datagrams made of a BVLC header of type 0x81,
    an NPDU, an unconfirmed-request octet, the service choice I-Am and the
    four primitives under the tags C4, 22, 91, 22, whatever the upper ten
    bits of the object identifier; the device ID is the low 22 bits of the
    32-bit object identifier. *)
Theorem parseIAm_device_id_low_22_bits (data : list Z) (addr : UDPAddr) (d : DeviceInfo) :
  parseIAm data addr = Ok d <->
  exists fn l1 l2 ver ctl apduType b0 b1 b2 b3 m1 m2 seg v1 v2 rest,
    data = [BVLC_TYPE_BACNET_IP; fn; l1; l2; ver; ctl; apduType;
            SERVICE_UNCONFIRMED_I_AM; 0xC4; b0; b1; b2; b3;
            0x22; m1; m2; 0x91; seg; 0x22; v1; v2] ++ rest
    /\ Z.land apduType 0xF0 = APDU_UNCONFIRMED_REQUEST
    /\ d = {| DeviceID := Z.land (be_value [b0; b1; b2; b3]) 0x3FFFFF;
              IPAddress := addr_IP addr;
              Port := addr_Port addr;
              MaxAPDU := be_value [m1; m2] |}.
Proof.
  split.
  - unfold parseIAm. intros H. apply run_Ok in H as [r H].
    minv H. cbn [bvlc_Type] in *. subst.
    do 16 eexists. split; [reflexivity|]. split; [assumption|reflexivity].
  - intros (fn & l1 & l2 & ver & ctl & apduType & b0 & b1 & b2 & b3 & m1 & m2
            & seg & v1 & v2 & rest & -> & Hty & ->).
    unfold parseIAm, run. cbn [app].
    rewrite (bind_eval _ _ _ _ _ (wrap_eval _ _ _ _ _ (readBVLCHeader_4 _ _ _ _ _))).
    cbn [bvlc_Type]. rewrite Z.eqb_refl. cbn [negb].
    rewrite (bind_eval _ _ _ _ _ (wrap_eval _ _ _ _ _ (readNPDU_2 _ _ _))).
    unfold bind at 1. cbn [ReadByte_]. rewrite Hty. cbn [Z.eqb Pos.eqb negb].
    unfold APDU_UNCONFIRMED_REQUEST. cbn [Z.eqb Pos.eqb negb].
    unfold bind at 1. cbn [ReadByte_]. cbn [Z.eqb Pos.eqb negb SERVICE_UNCONFIRMED_I_AM].
    unfold bind at 1, wrap at 1. cbn [ReadByte Z.eqb Pos.eqb negb].
    rewrite (bind_eval _ _ _ _ _ (wrap_eval _ _ _ _ _ (binaryRead_4 _ _ _ _ _))).
    unfold bind at 1, wrap at 1. cbn [ReadByte Z.eqb Pos.eqb negb].
    rewrite (bind_eval _ _ _ _ _ (wrap_eval _ _ _ _ _ (binaryRead_2 _ _ _))).
    unfold bind at 1, wrap at 1. cbn [ReadByte Z.eqb Pos.eqb negb].
    rewrite (bind_eval _ _ _ _ _ (wrap_eval _ _ _ _ _ (binaryRead_1 _ _))).
    unfold bind at 1, wrap at 1. cbn [ReadByte Z.eqb Pos.eqb negb].
    rewrite (bind_eval _ _ _ _ _ (wrap_eval _ _ _ _ _ (binaryRead_2 _ _ _))).
    reflexivity.
Qed.

(** ** C7: parseCOVNotification *)

Lemma skipn_6_cons2 (data : list Z) (a b : Z) (rest : list Z) :
  skipn 6 data = a :: b :: rest ->
  data !! 6%nat = Some a /\ data !! 7%nat = Some b.
Proof.
  intros H.
  pose proof (lookup_drop data 6 0) as H0.
  pose proof (lookup_drop data 6 1) as H1.
  unfold drop in *. rewrite H in H0, H1. cbn in H0, H1. auto.
Qed.

(** C7.  parseCOVNotification accepts a datagram only when the octet at
    the APDU-type position is an unconfirmed request and the service choice
    octet is 0x02 (Event-Notification); a datagram whose service choice is
    0x01 (COV-Notification), or any other value, or is missing, is returned
    as a parse failure. *)
Theorem parseCOVNotification_accepts_only_event_notification (data : list Z) :
  (is_ok (parseCOVNotification data) = true ->
   (exists apduType, data !! 6%nat = Some apduType
                     /\ Z.land apduType 0xF0 = APDU_UNCONFIRMED_REQUEST)
   /\ data !! 7%nat = Some SERVICE_UNCONFIRMED_EVENT_NOTIFICATION)
  /\ (data !! 7%nat <> Some SERVICE_UNCONFIRMED_EVENT_NOTIFICATION ->
      is_err (parseCOVNotification data) = true)
  /\ (data !! 7%nat = Some SERVICE_UNCONFIRMED_COV_NOTIFICATION ->
      is_err (parseCOVNotification data) = true).
Proof.
  assert (Hacc : is_ok (parseCOVNotification data) = true ->
            (exists apduType, data !! 6%nat = Some apduType
                              /\ Z.land apduType 0xF0 = APDU_UNCONFIRMED_REQUEST)
            /\ data !! 7%nat = Some SERVICE_UNCONFIRMED_EVENT_NOTIFICATION).
  { destruct (parseCOVNotification data) as [n|e] eqn:H; [|discriminate].
    intros _. unfold parseCOVNotification in H. apply run_Ok in H as [r H].
    apply bind_Ok in H as (apduType & r1 & Hm & H).
    apply wrap_Ok, ReadByte_Ok in Hm. cbv beta in H.
    destruct (Z.eqb_spec (Z.land apduType 0xF0) APDU_UNCONFIRMED_REQUEST) as [E|E];
      cbn [negb] in H; [|discriminate H].
    apply bind_Ok in H as (service & r2 & Hm2 & H).
    apply wrap_Ok, ReadByte_Ok in Hm2. subst r1. cbv beta in H.
    destruct (Z.eqb_spec service SERVICE_UNCONFIRMED_EVENT_NOTIFICATION) as [E2|E2];
      cbn [negb] in H; [|discriminate H].
    subst service. apply skipn_6_cons2 in Hm as [H6 H7].
    split; [exists apduType; split; assumption | exact H7]. }
  split; [exact Hacc|].
  assert (Hrej : data !! 7%nat <> Some SERVICE_UNCONFIRMED_EVENT_NOTIFICATION ->
                 is_err (parseCOVNotification data) = true).
  { intros Hne. unfold is_err.
    destruct (is_ok (parseCOVNotification data)) eqn:Hok; [|reflexivity].
    destruct (Hacc eq_refl) as [_ H7]. contradiction. }
  split; [exact Hrej|].
  intros H1. apply Hrej. rewrite H1. discriminate.
Qed.

Lemma parseCOVNotification_accepts_only_event_notification_witness :
  let data := [0x81; 0x0A; 0x00; 0x1B; 0x01; 0x00; 0x10; 0x02;
               0x09; 0x7B; 0x1C; 0x02; 0x00; 0x04; 0xD2;
               0x2C; 0x00; 0x00; 0x00; 0x03; 0x39; 0x3C;
               0x4E; 0x09; 0x55; 0x2E; 0x21; 0x07; 0x2F; 0x4F] in
  parseCOVNotification data
  = Ok {| SubscriberProcessIdentifier := 123;
          InitiatingDeviceIdentifier := mkObject 8 1234;
          MonitoredObjectIdentifier := mkObject 0 3;
          TimeRemaining := 60;
          ListOfValues := [{| PropertyID := 85; PropValue := VUint32 7 |}] |}
  /\ (exists apduType, data !! 6%nat = Some apduType
                       /\ Z.land apduType 0xF0 = APDU_UNCONFIRMED_REQUEST)
  /\ data !! 7%nat = Some SERVICE_UNCONFIRMED_EVENT_NOTIFICATION.
Proof.
  cbv zeta. split; [reflexivity|].
  apply (proj1 (parseCOVNotification_accepts_only_event_notification _)).
  reflexivity.
Defined.

(** ** The loops never run out of budget *)

Lemma sound_ret {A} (a : A) : sound (ret a).
Proof. intros r. cbn. lia. Qed.

Lemma sound_fail {A} (e : error) : mentions_fuel e = false -> sound (@fail A e).
Proof. intros H r. exact H. Qed.

Lemma sound_wrap {A} (msg : string) (m : M A) : sound m -> sound (wrap msg m).
Proof.
  intros Hm r. specialize (Hm r). unfold wrap.
  destruct (m r) as [[a r']|e]; cbn in *; assumption.
Qed.

Lemma consuming_wrap {A} (msg : string) (m : M A) : consuming m -> consuming (wrap msg m).
Proof.
  intros Hm r. specialize (Hm r). unfold wrap.
  destruct (m r) as [[a r']|e]; cbn in *; assumption.
Qed.

Lemma consuming_sound {A} (m : M A) : consuming m -> sound m.
Proof.
  intros Hm r. specialize (Hm r).
  destruct (m r) as [[a r']|e]; cbn in *; [lia|assumption].
Qed.

Lemma sound_sound_upto {A} (n : nat) (m : M A) : sound m -> sound_upto n m.
Proof. intros Hm r _. apply Hm. Qed.

Lemma sound_upto_bind {A B} (n : nat) (m : M A) (k : A -> M B) :
  sound_upto n m -> (forall a, sound_upto n (k a)) -> sound_upto n (bind m k).
Proof.
  intros Hm Hk r Hr. specialize (Hm r Hr). unfold bind.
  destruct (m r) as [[a r1]|e]; cbn in Hm; [|exact Hm].
  specialize (Hk a r1 ltac:(lia)).
  destruct (k a r1) as [[b r2]|e]; cbn in *; [lia|assumption].
Qed.

Lemma sound_bind {A B} (m : M A) (k : A -> M B) :
  sound m -> (forall a, sound (k a)) -> sound (bind m k).
Proof.
  intros Hm Hk r.
  apply (sound_upto_bind (length r) m k); [| |lia].
  - apply sound_sound_upto, Hm.
  - intros a. apply sound_sound_upto, Hk.
Qed.

Lemma sound_upto_bind_consuming {A B} (n : nat) (m : M A) (k : A -> M B) :
  consuming m -> (forall a, sound_upto (pred n) (k a)) -> sound_upto n (bind m k).
Proof.
  intros Hm Hk r Hr. specialize (Hm r). unfold bind.
  destruct (m r) as [[a r1]|e]; cbn in Hm; [|exact Hm].
  specialize (Hk a r1 ltac:(lia)).
  destruct (k a r1) as [[b r2]|e]; cbn in *; [lia|assumption].
Qed.

Lemma consuming_ReadByte : consuming ReadByte.
Proof. intros [|b r]; cbn; [reflexivity|lia]. Qed.

Lemma sound_ReadByte_ : sound ReadByte_.
Proof. intros [|b r]; cbn; lia. Qed.

Lemma sound_PeekByte : sound PeekByte.
Proof. intros [|b r]; cbn; [reflexivity|lia]. Qed.

Lemma sound_ReadFull (n : Z) : sound (ReadFull n).
Proof.
  intros r. unfold ReadFull.
  destruct (n <=? 0); [cbn; lia|].
  destruct (Len r <? n); cbn.
  - destruct r; reflexivity.
  - rewrite length_skipn. lia.
Qed.

Lemma consuming_ReadFull (n : Z) : 0 < n -> consuming (ReadFull n).
Proof.
  intros Hn r. unfold ReadFull.
  destruct (Z.leb_spec n 0); [lia|].
  destruct (Z.ltb_spec (Len r) n); cbn.
  - destruct r; reflexivity.
  - rewrite length_skipn. unfold Len in *. lia.
Qed.

Lemma sound_binaryRead (n : Z) : sound (binaryRead n).
Proof.
  unfold binaryRead. apply sound_bind; [apply sound_ReadFull|].
  intros bs. apply sound_ret.
Qed.

Lemma sound_binaryRead_ (n : Z) : sound (binaryRead_ n).
Proof.
  intros r. unfold binaryRead_. pose proof (sound_ReadFull n r) as H.
  destruct (ReadFull n r) as [[bs r']|e]; cbn in *; lia.
Qed.

Lemma sound_decodeStatusFlags : sound decodeStatusFlags.
Proof.
  unfold decodeStatusFlags.
  apply sound_bind; [apply sound_wrap, consuming_sound, consuming_ReadByte|].
  intros unusedBits. destruct (negb (unusedBits =? 4)).
  - apply sound_fail. reflexivity.
  - apply sound_bind; [apply sound_wrap, consuming_sound, consuming_ReadByte|].
    intros flagsByte. apply sound_ret.
Qed.

Lemma consuming_bind_l {A B} (m : M A) (k : A -> M B) :
  consuming m -> (forall a, sound (k a)) -> consuming (bind m k).
Proof.
  intros Hm Hk r. specialize (Hm r). unfold bind.
  destruct (m r) as [[a r1]|e]; cbn in Hm; [|exact Hm].
  specialize (Hk a r1).
  destruct (k a r1) as [[b r2]|e]; cbn in *; [lia|assumption].
Qed.

Lemma consuming_decodeApplicationValue : consuming decodeApplicationValue.
Proof.
  unfold decodeApplicationValue.
  apply consuming_bind_l; [apply consuming_ReadByte|].
  intros tag. apply sound_bind.
  - destruct (Z.land tag 15 =? 5).
    + apply sound_wrap, consuming_sound, consuming_ReadByte.
    + apply sound_ret.
  - intros lenVal.
    repeat match goal with
           | |- sound (match ?x with _ => _ end) => destruct x
           end;
      repeat first
        [ apply sound_ret
        | apply sound_ReadFull
        | apply sound_binaryRead
        | apply sound_decodeStatusFlags
        | apply consuming_sound, consuming_ReadByte
        | apply sound_bind; [|intros ?] ].
Qed.

Ltac sound_step :=
  lazymatch goal with
  | |- sound_upto _ (bind _ _) => apply sound_upto_bind; [|intros ?]
  | |- sound_upto _ (if ?c then _ else _) => destruct c
  | |- sound_upto _ _ => apply sound_sound_upto
  | |- sound (ret _) => apply sound_ret
  | |- sound (fail _) => apply sound_fail; reflexivity
  | |- sound (wrap _ _) => apply sound_wrap
  | |- sound ReadByte => apply consuming_sound, consuming_ReadByte
  | |- sound ReadByte_ => apply sound_ReadByte_
  | |- sound PeekByte => apply sound_PeekByte
  | |- sound (binaryRead _) => apply sound_binaryRead
  | |- sound (binaryRead_ _) => apply sound_binaryRead_
  | |- sound decodeApplicationValue =>
      apply consuming_sound, consuming_decodeApplicationValue
  end.

Lemma cov_values_sound (fuel n : nat) (acc : list BACnetPropertyValue) :
  (n < fuel)%nat -> sound_upto n (cov_values fuel acc).
Proof.
  revert n acc. induction fuel as [|fuel IH]; intros n acc Hn; [lia|].
  cbn [cov_values].
  apply sound_upto_bind_consuming; [apply consuming_wrap, consuming_ReadByte|].
  intros tag. destruct n as [|n].
  { intros r Hr. destruct r; [|cbn in Hr; lia]. cbn [pred] in *.
    destruct (tag =? 79); [cbn; lia|].
    destruct (negb (tag =? 9)); reflexivity. }
  cbn [pred].
  repeat first [ apply IH; lia | sound_step ].
Qed.

Lemma opl_values_sound (fuel n : nat) (values : list Value) :
  (n < fuel)%nat -> sound_upto n (opl_values fuel values).
Proof.
  revert n values. induction fuel as [|fuel IH]; intros n values Hn; [lia|].
  cbn [opl_values]. intros r Hr. unfold bind at 1.
  destruct r as [|peek r]; [reflexivity|]. cbn [PeekByte].
  destruct (peek =? 79).
  - cbn. lia.
  - unfold bind at 1, wrap at 1.
    pose proof (consuming_decodeApplicationValue (peek :: r)) as Hd.
    destruct (decodeApplicationValue (peek :: r)) as [[val r1]|e]; cbn in Hd; [|exact Hd].
    destruct n as [|n]; [cbn in Hr; lia|].
    pose proof (IH n (values ++ [val]) ltac:(lia) r1 ltac:(cbn in Hr; lia)) as H.
    destruct (opl_values fuel (values ++ [val]) r1) as [[vs r2]|e]; cbn in *; [lia|exact H].
Qed.

Lemma opl_properties_sound (fuel n : nat) (acc : list BACnetPropertyValue) :
  (n < fuel)%nat -> sound_upto n (opl_properties fuel acc).
Proof.
  revert n acc. induction fuel as [|fuel IH]; intros n acc Hn; [lia|].
  cbn [opl_properties].
  apply sound_upto_bind_consuming; [apply consuming_wrap, consuming_ReadByte|].
  intros tag. destruct n as [|n].
  { intros r Hr. destruct r; [|cbn in Hr; lia]. cbn [pred] in *.
    destruct (tag =? 31); [cbn; lia|].
    destruct (negb (tag =? 41)); reflexivity. }
  cbn [pred].
  repeat first [ apply IH; lia | apply opl_values_sound; lia | sound_step ].
Qed.

Lemma rpm_properties_sound (fuel n : nat) (acc : gmap Z Value) :
  (n < fuel)%nat -> sound_upto n (rpm_properties fuel acc).
Proof.
  revert n acc. induction fuel as [|fuel IH]; intros n acc Hn; [lia|].
  cbn [rpm_properties].
  apply sound_upto_bind_consuming; [apply consuming_wrap, consuming_ReadByte|].
  intros tag. destruct n as [|n].
  { intros r Hr. destruct r; [|cbn in Hr; lia]. cbn [pred] in *.
    destruct (tag =? 31); [cbn; lia|].
    destruct (negb (tag =? 41)); reflexivity. }
  cbn [pred].
  repeat first [ apply IH; lia | sound_step ].
Qed.

Lemma Len_cons_pos (b : Z) (r : Reader) : (0 <? Len (b :: r)) = true.
Proof. apply Z.ltb_lt. unfold Len. cbn [length]. lia. Qed.

Lemma well_behaved_cons {A} (x : result (A * Reader)) (b : Z) (r : Reader) :
  well_behaved x r -> well_behaved x (b :: r).
Proof. destruct x as [[a r']|e]; cbn; [lia|trivial]. Qed.

Lemma opl_results_sound (fuel n : nat) (acc : list BACnetPropertyValue) :
  (n < fuel)%nat -> sound_upto n (opl_results fuel acc).
Proof.
  revert n acc. induction fuel as [|fuel IH]; intros n acc Hn; [lia|].
  cbn [opl_results]. intros r Hr.
  destruct r as [|tag r]; [apply Nat.le_refl|].
  rewrite Len_cons_pos. cbn [ReadByte].
  destruct n as [|n]; [cbn in Hr; lia|].
  apply well_behaved_cons.
  assert (Hs : sound_upto n
            (if negb (tag =? 12)
             then fail (Errorf "expected object identifier tag 0x0C")
             else
               let* objectIdentifier :=
                 wrap "failed to read object identifier" (binaryRead 4) in
               let* tag0 := wrap "failed to read opening tag for property list" ReadByte in
               if negb (tag0 =? 30)
               then fail (Errorf "expected opening tag 0x1E for property list")
               else (let* allProperties := opl_properties fuel acc in
                     opl_results fuel allProperties))).
  { repeat first [ apply IH; lia | apply opl_properties_sound; lia | sound_step ]. }
  apply Hs. cbn in Hr. lia.
Qed.

Lemma rpm_results_sound (fuel n : nat) (acc : gmap BACnetObject (gmap Z Value)) :
  (n < fuel)%nat -> sound_upto n (rpm_results fuel acc).
Proof.
  revert n acc. induction fuel as [|fuel IH]; intros n acc Hn; [lia|].
  cbn [rpm_results]. intros r Hr.
  destruct r as [|tag r]; [apply Nat.le_refl|].
  rewrite Len_cons_pos. cbn [ReadByte].
  destruct n as [|n]; [cbn in Hr; lia|].
  apply well_behaved_cons.
  assert (Hs : sound_upto n
            (if negb (tag =? 12)
             then fail (Errorf "expected object identifier tag 0x0C")
             else
               let* objectIdentifier :=
                 wrap "failed to read object identifier" (binaryRead 4) in
               let currentObject := unpackObject objectIdentifier in
               let* tag0 := wrap "failed to read opening tag for property list" ReadByte in
               if negb (tag0 =? 30)
               then fail (Errorf "expected opening tag 0x1E for property list")
               else (let* objectProperties := rpm_properties fuel ∅ in
                     rpm_results fuel (<[currentObject := objectProperties]> acc)))).
  { cbv zeta.
    repeat first [ apply IH; lia | apply rpm_properties_sound; lia | sound_step ]. }
  apply Hs. cbn in Hr. lia.
Qed.

Lemma sound_readBVLCHeader : sound readBVLCHeader.
Proof.
  unfold readBVLCHeader. apply sound_bind; [apply sound_ReadFull|].
  intros bs. apply sound_ret.
Qed.

Lemma sound_readNPDU : sound readNPDU.
Proof.
  unfold readNPDU. apply sound_bind; [apply sound_ReadFull|].
  intros bs. apply sound_ret.
Qed.

Lemma sound_readComplexAckHeader (expectedInvokeID : Z) :
  sound (readComplexAckHeader expectedInvokeID).
Proof.
  unfold readComplexAckHeader.
  repeat first
    [ apply sound_wrap
    | apply sound_readBVLCHeader
    | apply sound_readNPDU
    | apply consuming_sound, consuming_ReadByte
    | apply sound_ReadByte_
    | apply sound_ret
    | apply sound_fail; reflexivity
    | match goal with |- sound (if ?c then _ else _) => destruct c end
    | apply sound_bind; [|intros ?] ].
Qed.

Lemma run_budget {A} (m : M A) (data : list Z) (e : error) :
  sound_upto (length data) m -> run m data = Err e -> mentions_fuel e = false.
Proof.
  intros Hm. specialize (Hm data ltac:(lia)). unfold run.
  destruct (m data) as [[a r]|e']; [discriminate|].
  intros [= <-]. exact Hm.
Qed.

(** The budget [S (length data)] given to the loops is never used up: an
    error returned by a parser of the model is an error of the Go code. *)
Lemma parseReadPropertyMultipleResponse_budget data expectedInvokeID e :
  parseReadPropertyMultipleResponse data expectedInvokeID = Err e ->
  mentions_fuel e = false.
Proof.
  apply run_budget. apply sound_upto_bind.
  - apply sound_sound_upto, sound_readComplexAckHeader.
  - intros _. apply rpm_results_sound. lia.
Qed.

Lemma parseObjectPropertyList_budget data expectedInvokeID e :
  parseObjectPropertyList data expectedInvokeID = Err e ->
  mentions_fuel e = false.
Proof.
  apply run_budget. apply sound_upto_bind.
  - apply sound_sound_upto, sound_readComplexAckHeader.
  - intros _. apply opl_results_sound. lia.
Qed.

Lemma parseCOVNotification_budget data e :
  parseCOVNotification data = Err e -> mentions_fuel e = false.
Proof.
  unfold parseCOVNotification. intros H.
  eapply (run_budget _ (skipn 6 data)); [|exact H].
  assert (Hlen : (length (skipn 6 data) < S (length data))%nat)
    by (rewrite length_skipn; lia).
  revert Hlen. generalize (S (length data)). intros fuel Hlen.
  repeat first [ apply cov_values_sound; lia | sound_step ].
Qed.

(** ** The ReadPropertyMultiple ACK decoder: its reading of a body *)

Lemma rpm_properties_body (fuel : nat) (acc : gmap Z Value) (r : Reader)
    (m : gmap Z Value) (r' : Reader) :
  rpm_properties fuel acc r = Ok (m, r') ->
  exists ps, decoded_properties r ps r' /\ m = properties_of ps acc.
Proof.
  revert acc r. induction fuel as [|fuel IH]; intros acc r H; [discriminate|].
  cbn [rpm_properties] in H. minv H; simplify_eq.
  - exists []. split; [constructor|reflexivity].
  - apply IH in H as (ps & Hps & ->).
    eexists ((_, _) :: ps). split; [|reflexivity].
    econstructor; eassumption.
Qed.

Lemma rpm_results_body (fuel : nat) (acc : gmap BACnetObject (gmap Z Value))
    (r : Reader) (m : gmap BACnetObject (gmap Z Value)) (r' : Reader) :
  rpm_results fuel acc r = Ok (m, r') ->
  r' = [] /\ exists rs, decoded_results r rs /\ m = results_of rs acc.
Proof.
  revert acc r. induction fuel as [|fuel IH]; intros acc r H; [discriminate|].
  cbn [rpm_results] in H. destruct r as [|tag r].
  - cbn in H. destruct (0 <? Len []); simplify_eq.
    all: split; [reflexivity|]; exists []; split; [constructor|reflexivity].
  - rewrite Len_cons_pos in H. cbn [ReadByte] in H. cbv zeta in H.
    minv H; simplify_eq.
    match goal with
    | Hp : rpm_properties _ _ _ = Ok _ |- _ =>
        apply rpm_properties_body in Hp as (ps & Hps & ->)
    end.
    apply IH in H as (-> & rs & Hrs & ->).
    split; [reflexivity|].
    eexists ((_, ps) :: rs). split; [|reflexivity].
    econstructor; eassumption.
Qed.

(** The reading is deterministic: the decoder reads a body in at most one
    way. *)
Lemma decoded_properties_functional r ps1 r1 ps2 r2 :
  decoded_properties r ps1 r1 -> decoded_properties r ps2 r2 -> ps1 = ps2 /\ r1 = r2.
Proof.
  intros H1. revert ps2 r2. induction H1 as [rest|propID encoded val rest ps rest' Hd H1 IH];
    intros ps2 r2 H2; inversion H2; subst.
  - auto.
  - match goal with
    | Hd' : decodeApplicationValue encoded = Ok _ |- _ =>
        rewrite Hd in Hd'; injection Hd' as <- <-
    end.
    match goal with
    | Hb : decoded_properties rest _ _ |- _ => apply IH in Hb as [-> ->]
    end.
    auto.
Qed.

Lemma decoded_results_functional r rs1 rs2 :
  decoded_results r rs1 -> decoded_results r rs2 -> rs1 = rs2.
Proof.
  intros H1. revert rs2. induction H1 as [|b0 b1 b2 b3 props ps rest rs Hp H1 IH];
    intros rs2 H2; inversion H2; subst; [reflexivity|].
  match goal with
  | Hp' : decoded_properties props _ _ |- _ =>
      destruct (decoded_properties_functional _ _ _ _ _ Hp Hp') as [-> ->]
  end.
  f_equal. apply IH. assumption.
Qed.

(** What the maps built by the decoder contain. *)
Lemma dom_properties_of (ps : list (Z * Value)) (acc : gmap Z Value) :
  dom (properties_of ps acc) = dom acc ∪ list_to_set ps.*1.
Proof.
  revert acc. induction ps as [|[p v] ps IH]; intros acc.
  - cbn. rewrite (right_id_L ∅ (∪)). reflexivity.
  - unfold properties_of in *. cbn [fold_left]. rewrite IH, dom_insert_L.
    cbn [fmap list_fmap fst list_to_set foldr].
    rewrite (assoc_L (∪)), (comm_L (∪) (dom acc)). reflexivity.
Qed.

Lemma lookup_results_of (rs : list (Z * list (Z * Value)))
    (acc : gmap BACnetObject (gmap Z Value)) (o : BACnetObject) :
  results_of rs acc !! o
  = match last_result o rs with
    | Some ps => Some (properties_of ps ∅)
    | None => acc !! o
    end.
Proof.
  revert acc. induction rs as [|[id ps] rs IH]; intros acc; [reflexivity|].
  unfold results_of in *. cbn [fold_left last_result]. rewrite IH. cbn [fst snd].
  destruct (last_result o rs) as [ps'|]; [reflexivity|].
  destruct (decide (unpackObject id = o)) as [<-|Hne].
  - apply lookup_insert_eq.
  - apply lookup_insert_ne. exact Hne.
Qed.

Lemma last_result_Some {P} o (rs : list (Z * P)) ps :
  last_result o rs = Some ps -> exists id, (id, ps) ∈ rs /\ unpackObject id = o.
Proof.
  induction rs as [|[id ps'] rs IH]; [discriminate|]. cbn [last_result].
  destruct (last_result o rs) as [ps''|] eqn:E.
  - intros [= ->]. destruct (IH eq_refl) as (id' & Hin & Ho).
    exists id'. split; [right; exact Hin|exact Ho].
  - destruct (decide (unpackObject id = o)) as [Ho|]; [|discriminate].
    intros [= ->]. exists id. split; [left|exact Ho].
Qed.

Lemma last_result_None {P} o (rs : list (Z * P)) :
  last_result o rs = None <-> o ∉ unpackObject <$> rs.*1.
Proof.
  induction rs as [|[id ps] rs IH]; cbn [last_result].
  - split; [intros _; apply not_elem_of_nil|reflexivity].
  - cbn. rewrite not_elem_of_cons. destruct (last_result o rs) as [ps'|].
    + split; [discriminate|]. intros [_ H]. apply IH in H. discriminate.
    + destruct (decide (unpackObject id = o)) as [Ho|Hne].
      * split; [discriminate|]. intros [H _]. congruence.
      * split; [|reflexivity]. intros _. split; [congruence|]. apply IH. reflexivity.
Qed.

Lemma last_result_NoDup {P} o (rs : list (Z * P)) id ps :
  NoDup rs.*1 -> (id, ps) ∈ rs -> unpackObject id = o -> last_result o rs = Some ps.
Proof.
  induction rs as [|[id' ps'] rs IH]; intros Hnd Hin Ho.
  - apply elem_of_nil in Hin. contradiction.
  - cbn in Hnd. apply NoDup_cons in Hnd as [Hnotin Hnd]. cbn [last_result].
    apply elem_of_cons in Hin as [[= <- <-]|Hin].
    + assert (last_result o rs = None) as ->.
      { apply last_result_None. intros Hel.
        apply list_elem_of_fmap in Hel as (id2 & Heq & Hel).
        subst o. apply unpackObject_inj in Heq. subst id2. contradiction. }
      rewrite decide_True by exact Ho. reflexivity.
    + rewrite (IH Hnd Hin Ho). reflexivity.
Qed.

Lemma dom_results_of (rs : list (Z * list (Z * Value))) :
  dom (results_of rs ∅) = body_objects rs.
Proof.
  apply set_eq. intros o. rewrite elem_of_dom, lookup_results_of.
  unfold body_objects. rewrite elem_of_list_to_set.
  destruct (last_result o rs) as [ps|] eqn:E.
  - split; [intros _|eauto].
    apply last_result_Some in E as (id & Hin & <-).
    apply list_elem_of_fmap. exists id. split; [reflexivity|].
    apply list_elem_of_fmap. exists (id, ps). split; [reflexivity|exact Hin].
  - rewrite lookup_empty. split; [intros [? [=]]|].
    intros Hel. apply last_result_None in E. contradiction.
Qed.

Lemma elem_of_map_property_ids (m : gmap BACnetObject (gmap Z Value)) (p : Z) :
  p ∈ map_property_ids m <-> exists o props, m !! o = Some props /\ p ∈ dom props.
Proof.
  unfold map_property_ids. rewrite elem_of_union_list. split.
  - intros (X & HX & Hp). apply list_elem_of_fmap in HX as ([o props] & -> & Hin).
    apply elem_of_map_to_list in Hin. exists o, props. auto.
  - intros (o & props & Hm & Hp). exists (dom props). split; [|exact Hp].
    apply list_elem_of_fmap. exists (o, props). split; [reflexivity|].
    apply elem_of_map_to_list. exact Hm.
Qed.

Lemma elem_of_body_property_ids {V} (rs : list (Z * list (Z * V))) (p : Z) :
  p ∈ body_property_ids rs <-> exists id ps, (id, ps) ∈ rs /\ p ∈ ps.*1.
Proof.
  unfold body_property_ids. rewrite elem_of_union_list. split.
  - intros (X & HX & Hp). apply list_elem_of_fmap in HX as ([id ps] & -> & Hin).
    exists id, ps. split; [exact Hin|]. apply elem_of_list_to_set in Hp. exact Hp.
  - intros (id & ps & Hin & Hp). exists (list_to_set ps.*1). split.
    + apply list_elem_of_fmap. exists (id, ps). split; [reflexivity|exact Hin].
    + apply elem_of_list_to_set. exact Hp.
Qed.

Lemma readComplexAckHeader_Ok (expectedInvokeID : Z) (r r' : Reader) (u : unit) :
  readComplexAckHeader expectedInvokeID r = Ok (u, r') ->
  exists hdr, r = hdr ++ r' /\ length hdr = 9%nat
              /\ hdr !! 7%nat = Some expectedInvokeID.
Proof.
  unfold readComplexAckHeader. intros H. minv H; simplify_eq.
  eexists [_; _; _; _; _; _; _; _; _]. split; [reflexivity|]. split; reflexivity.
Qed.

Lemma parseReadPropertyMultipleResponse_Ok data expectedInvokeID m :
  parseReadPropertyMultipleResponse data expectedInvokeID = Ok m ->
  exists rs, decoded_results (ack_body data) rs /\ m = results_of rs ∅.
Proof.
  unfold parseReadPropertyMultipleResponse. intros H.
  apply run_Ok in H as [r H]. apply bind_Ok in H as ([] & r1 & Hh & H).
  apply readComplexAckHeader_Ok in Hh as (hdr & -> & Hlen & _).
  apply rpm_results_body in H as (_ & rs & Hrs & ->).
  exists rs. split; [|reflexivity].
  unfold ack_body. rewrite <- Hlen, drop_app_length. exact Hrs.
Qed.

Lemma size_body_objects {P} (rs : list (Z * P)) :
  size (body_objects rs) = length (remove_dups rs.*1).
Proof.
  unfold body_objects.
  assert (Heq : (list_to_set (unpackObject <$> rs.*1) : gset BACnetObject)
                = list_to_set (unpackObject <$> remove_dups rs.*1)).
  { apply set_eq. intros o. rewrite !elem_of_list_to_set, !list_elem_of_fmap.
    split; intros (id & -> & Hin); exists id; (split; [reflexivity|]);
      apply elem_of_remove_dups; exact Hin. }
  rewrite Heq, size_list_to_set.
  - apply length_fmap.
  - apply NoDup_fmap_2; [|apply NoDup_remove_dups].
    intros a b. apply unpackObject_inj.
Qed.

(** ** C6: one value or a list of values inside a bracket *)

Lemma finalValue_single (v : Value) : finalValue [v] = v.
Proof. reflexivity. Qed.

Lemma finalValue_list (vs : list Value) :
  (2 <= length vs)%nat -> finalValue vs = VList vs.
Proof. destruct vs as [|v [|v' vs]]; cbn; intros H; [lia|lia|reflexivity]. Qed.

(** In parseObjectPropertyList the values of a bracket are decoded one
    after the other until the closing tag. *)
Lemma opl_values_step (fuel : nat) (values : list Value) (r r1 : Reader)
    (b : Z) (val : Value) :
  r = b :: tl r -> b <> 0x4F ->
  decodeApplicationValue r = Ok (val, r1) ->
  opl_values (S fuel) values r = opl_values fuel (values ++ [val]) r1.
Proof.
  intros Hr Hb Hd. cbn [opl_values]. unfold bind at 1. rewrite Hr. cbn [PeekByte].
  destruct (Z.eqb_spec b 79) as [E|_]; [contradiction|].
  rewrite <- Hr. unfold bind at 1, wrap. rewrite Hd. reflexivity.
Qed.

Lemma opl_values_close (fuel : nat) (values : list Value) (r : Reader) :
  opl_values (S fuel) values (0x4F :: r) = Ok (values, r).
Proof. reflexivity. Qed.

(** In parseReadPropertyMultipleResponse one value is decoded, and
    whatever follows it other than the closing tag is an error: a bracket
    with a second value is rejected. *)
Lemma rpm_properties_second_value (fuel : nat) (acc : gmap Z Value)
    (propID : Z) (encoded rest : list Z) (val : Value) (b : Z) :
  decodeApplicationValue encoded = Ok (val, b :: rest) -> b <> 0x4F ->
  rpm_properties (S fuel) acc (0x29 :: propID :: 0x4E :: encoded)
  = Err (Errorf "expected closing tag 0x4F for property value").
Proof.
  intros Hd Hb. cbn [rpm_properties].
  unfold bind at 1, wrap at 1. cbn [ReadByte Z.eqb Pos.eqb negb].
  rewrite (bind_eval _ _ _ _ _ (wrap_eval _ _ _ _ _ (binaryRead_1 _ _))).
  unfold bind at 1, wrap at 1. cbn [ReadByte Z.eqb Pos.eqb negb].
  rewrite (bind_eval _ _ _ _ _ (wrap_eval _ _ _ _ _ Hd)).
  unfold bind at 1, wrap at 1. cbn [ReadByte].
  destruct (Z.eqb_spec b 79) as [E|_]; [contradiction|]. reflexivity.
Qed.

(** C6 holds for parseObjectPropertyList and fails for
    parseReadPropertyMultipleResponse.  On the same ACK, whose only
    property (85) has the two values 7 and 9 inside its bracket, the first
    decoder returns the list of the two values and the second returns an
    error; with the single value 7 inside the bracket, both return that
    value. *)
Theorem rpm_decoders_disagree_on_value_lists :
  let two := [0x81; 0x0A; 0x00; 0x18; 0x01; 0x00; 0x30; 0x01; 0x0E;
              0x0C; 0x00; 0x00; 0x00; 0x01; 0x1E;
              0x29; 0x55; 0x4E; 0x21; 0x07; 0x21; 0x09; 0x4F; 0x1F] in
  let one := [0x81; 0x0A; 0x00; 0x16; 0x01; 0x00; 0x30; 0x01; 0x0E;
              0x0C; 0x00; 0x00; 0x00; 0x01; 0x1E;
              0x29; 0x55; 0x4E; 0x21; 0x07; 0x4F; 0x1F] in
  parseObjectPropertyList two 1
  = Ok [{| PropertyID := 85; PropValue := VList [VUint32 7; VUint32 9] |}]
  /\ parseReadPropertyMultipleResponse two 1
     = Err (Errorf "expected closing tag 0x4F for property value")
  /\ parseObjectPropertyList one 1
     = Ok [{| PropertyID := 85; PropValue := VUint32 7 |}]
  /\ parseReadPropertyMultipleResponse one 1
     = Ok (<[mkObject 0 1 := <[85 := VUint32 7]> ∅]> ∅).
Proof. cbv zeta. repeat split; vm_compute; reflexivity. Qed.

(** The service choice COV-Notification (0x01) is refused by
    parseCOVNotification on an otherwise well-formed notification. *)
Example parseCOVNotification_refuses_cov_service :
  parseCOVNotification
    [0x81; 0x0A; 0x00; 0x18; 0x01; 0x00; 0x10; 0x01;
     0x09; 0x7B; 0x1C; 0x02; 0x00; 0x04; 0xD2;
     0x2C; 0x00; 0x00; 0x00; 0x03; 0x39; 0x3C; 0x4E; 0x4F]
  = Err (Errorf "not a COV Notification or Event Notification").
Proof. reflexivity. Qed.

(** * The application-value decoder *)

(** ** decodeStatusFlags and decodeApplicationValue *)

Lemma land_shiftr_1_testbit (x : Z) (k : Z) :
  0 <= k -> (Z.land (Z.shiftr x k) 1 =? 1) = Z.testbit x k.
Proof.
  intros Hk. rewrite Z.testbit_odd.
  change 1 with (Z.ones 1) at 1. rewrite Z.land_ones by lia.
  change (2 ^ 1) with 2. rewrite Zodd_mod. reflexivity.
Qed.

(** X2.  decodeStatusFlags, given two octets, fails exactly when the first is
    not 4; on success the four flags are the bits 3, 2, 1, 0 of the second
    octet, so the four high bits of that octet are ignored. *)
Theorem decodeStatusFlags_low_nibble (unusedBits flagsByte : Z) (rest : list Z) :
  decodeStatusFlags (unusedBits :: flagsByte :: rest)
  = (if unusedBits =? 4
     then Ok ({| InAlarm := Z.testbit flagsByte 3;
                 Fault := Z.testbit flagsByte 2;
                 Overridden := Z.testbit flagsByte 1;
                 OutOfService := Z.testbit flagsByte 0 |}, rest)
     else Err (Errorf "unexpected number of unused bits for Status_Flags"))
  /\ decodeStatusFlags (unusedBits :: flagsByte :: rest)
     = decodeStatusFlags (unusedBits :: flagsByte mod 16 :: rest).
Proof.
  assert (H : forall f,
    decodeStatusFlags (unusedBits :: f :: rest)
    = (if unusedBits =? 4
       then Ok ({| InAlarm := Z.testbit f 3; Fault := Z.testbit f 2;
                   Overridden := Z.testbit f 1; OutOfService := Z.testbit f 0 |}, rest)
       else Err (Errorf "unexpected number of unused bits for Status_Flags"))).
  { intros f. unfold decodeStatusFlags, bind at 1, wrap at 1. cbn [ReadByte].
    destruct (unusedBits =? 4); cbn [negb]; [|reflexivity].
    unfold bind, wrap, ret. cbn [ReadByte].
    rewrite !land_shiftr_1_testbit by lia. reflexivity. }
  split; [apply H|]. rewrite !H.
  destruct (unusedBits =? 4); [|reflexivity].
  change 16 with (2 ^ 4).
  rewrite !(Z.mod_pow2_bits_low flagsByte 4) by lia. reflexivity.
Qed.

(** X3.  Every StatusFlags record is the decoding of the octet that holds its
    flags in the bits 3 (inAlarm) to 0 (outOfService), after the
    unused-bit count 4. *)
Theorem decodeStatusFlags_every_record (f : StatusFlags) (rest : list Z) :
  decodeStatusFlags
    (4 :: ((if InAlarm f then 8 else 0) + (if Fault f then 4 else 0)
           + (if Overridden f then 2 else 0) + (if OutOfService f then 1 else 0))
       :: rest)
  = Ok (f, rest).
Proof. destruct f as [[] [] [] []]; reflexivity. Qed.

Lemma be_value_snoc (bs : list Z) (b : Z) :
  be_value (bs ++ [b]) = be_value bs * 256 + b.
Proof. unfold be_value. rewrite fold_left_app. reflexivity. Qed.

Lemma accumulateUint32_snoc (bs : list Z) (b : Z) :
  accumulateUint32 (bs ++ [b])
  = Z.lor (Z.shiftl (accumulateUint32 bs) 8 mod 2^32) b.
Proof. unfold accumulateUint32. rewrite fold_left_app. reflexivity. Qed.

Lemma be_value_nonneg (bs : list Z) : Forall is_octet bs -> 0 <= be_value bs.
Proof.
  induction bs as [|b bs IH] using rev_ind; intros H; [cbn; lia|].
  apply Forall_app in H as [Hbs Hb]. apply Forall_inv in Hb.
  rewrite be_value_snoc. specialize (IH Hbs). unfold is_octet in Hb. lia.
Qed.

Lemma lor_multiple_256 (a b : Z) :
  0 <= a -> a mod 256 = 0 -> 0 <= b < 256 -> Z.lor a b = a + b.
Proof.
  intros Ha Hm Hb.
  assert (Hland : Z.land a b = 0).
  { apply Z.bits_inj'. intros n Hn. rewrite Z.land_spec, Z.bits_0.
    destruct (Z.ltb_spec n 8).
    - replace (Z.testbit a n) with false; [reflexivity|].
      symmetry. change 256 with (2^8) in Hm.
      rewrite <- (Z.mod_pow2_bits_low a 8 n) by lia. rewrite Hm. apply Z.bits_0.
    - replace (Z.testbit b n) with false; [apply andb_false_r|].
      symmetry. destruct (Z.eq_dec b 0) as [->|]; [apply Z.bits_0|].
      apply Z.bits_above_log2; [lia|].
      apply Z.log2_lt_pow2; [lia|].
      apply Z.lt_le_trans with (2^8); [lia|].
      apply Z.pow_le_mono_r; lia. }
  rewrite <- Z.lxor_lor by exact Hland.
  rewrite <- Z.add_nocarry_lxor by exact Hland. reflexivity.
Qed.

(** The accumulation loop of the Unsigned and Enumerated cases computes the
    big-endian value of the octets modulo 2^32: of an encoding longer than
    four octets only the last four count. *)
Lemma accumulateUint32_be_value (bs : list Z) :
  Forall is_octet bs -> accumulateUint32 bs = be_value bs mod 2^32.
Proof.
  induction bs as [|b bs IH] using rev_ind; intros H; [reflexivity|].
  apply Forall_app in H as [Hbs Hb]. apply Forall_inv in Hb.
  rewrite accumulateUint32_snoc, be_value_snoc, IH by exact Hbs.
  pose proof (be_value_nonneg bs Hbs) as Hnn. unfold is_octet in Hb.
  rewrite Z.shiftl_mul_pow2 by lia. change (2^8) with 256.
  rewrite Z.mul_mod_idemp_l by lia.
  change (2^32) with 4294967296.
  rewrite lor_multiple_256; [| |Z.div_mod_to_equations; lia|lia].
  - Z.div_mod_to_equations. lia.
  - apply Z.mod_pos_bound. lia.
Qed.

Lemma ReadFull_app_exact (n : Z) (bs rest : list Z) :
  Z.of_nat (length bs) = n -> ReadFull n (bs ++ rest) = Ok (bs, rest).
Proof.
  intros Hn. unfold ReadFull.
  destruct (Z.leb_spec n 0) as [H0|H0].
  - destruct bs; [reflexivity|cbn [length] in Hn; lia].
  - destruct (Z.ltb_spec (Len (bs ++ rest)) n) as [H|H].
    + unfold Len in H. rewrite length_app in H. lia.
    + rewrite <- Hn, Nat2Z.id, take_app_length, drop_app_length. reflexivity.
Qed.

Lemma be_value_bound (bs : list Z) :
  Forall is_octet bs -> 0 <= be_value bs < 256 ^ Z.of_nat (length bs).
Proof.
  induction bs as [|b bs IH] using rev_ind; intros H; [cbn; lia|].
  apply Forall_app in H as [Hbs Hb]. apply Forall_inv in Hb.
  rewrite be_value_snoc, length_app. cbn [length].
  replace (Z.of_nat (length bs + 1)) with (Z.of_nat (length bs) + 1) by lia.
  rewrite Z.pow_add_r by lia. change (256 ^ 1) with 256.
  specialize (IH Hbs). unfold is_octet in Hb. nia.
Qed.

(** The head of decodeApplicationValue: the tag octet, then the selection
    of the length. *)
Lemma decodeApplicationValue_direct (tag : Z) (r : Reader) :
  Z.land tag 0x0F <> 5 ->
  decodeApplicationValue (tag :: r)
  = (let lenVal := Z.land tag 0x0F in
     match Z.shiftr tag 4 with
     | 0 => ret VNil
     | 1 => ret (VBool (lenVal =? 1))
     | 2 => let* buf := ReadFull lenVal in ret (VUint32 (accumulateUint32 buf))
     | 4 => let* val := binaryRead 4 in ret (VFloat32 val)
     | 7 => let* _ := ReadByte in
            let* buf := ReadFull ((lenVal - 1) mod 2^32) in ret (VString buf)
     | 8 => let* flags := decodeStatusFlags in ret (VStatusFlags flags)
     | 9 => let* buf := ReadFull lenVal in ret (VUint32 (accumulateUint32 buf))
     | 12 => let* val := binaryRead 4 in ret (VObject (unpackObject val))
     | _ => let* buf := ReadFull lenVal in ret (VBytes buf)
     end) r.
Proof.
  intros H5. unfold decodeApplicationValue, bind at 1. cbn [ReadByte].
  destruct (Z.eqb_spec (Z.land tag 15) 5) as [E|_]; [contradiction|].
  reflexivity.
Qed.

Lemma decodeApplicationValue_extended (tag lenByte : Z) (r : Reader) :
  Z.land tag 0x0F = 5 ->
  decodeApplicationValue (tag :: lenByte :: r)
  = (let lenVal := lenByte in
     match Z.shiftr tag 4 with
     | 0 => ret VNil
     | 1 => ret (VBool (lenVal =? 1))
     | 2 => let* buf := ReadFull lenVal in ret (VUint32 (accumulateUint32 buf))
     | 4 => let* val := binaryRead 4 in ret (VFloat32 val)
     | 7 => let* _ := ReadByte in
            let* buf := ReadFull ((lenVal - 1) mod 2^32) in ret (VString buf)
     | 8 => let* flags := decodeStatusFlags in ret (VStatusFlags flags)
     | 9 => let* buf := ReadFull lenVal in ret (VUint32 (accumulateUint32 buf))
     | 12 => let* val := binaryRead 4 in ret (VObject (unpackObject val))
     | _ => let* buf := ReadFull lenVal in ret (VBytes buf)
     end) r.
Proof.
  intros H5. unfold decodeApplicationValue, bind at 1. cbn [ReadByte].
  rewrite H5. cbn [Z.eqb Pos.eqb].
  unfold bind at 1, wrap at 1. cbn [ReadByte]. reflexivity.
Qed.

Lemma tag_octet_fields (tagNumber lvt : Z) :
  0 <= lvt < 16 ->
  Z.shiftr (16 * tagNumber + lvt) 4 = tagNumber
  /\ Z.land (16 * tagNumber + lvt) 0x0F = lvt.
Proof.
  intros Hl. split.
  - rewrite Z.shiftr_div_pow2 by lia. change (2^4) with 16.
    Z.div_mod_to_equations. lia.
  - change 0x0F with (Z.ones 4). rewrite Z.land_ones by lia. change (2^4) with 16.
    Z.div_mod_to_equations. lia.
Qed.

Lemma decode_unsigned_any_length (tagNumber : Z) (bs rest : list Z) :
  tagNumber = 2 \/ tagNumber = 9 ->
  Forall is_octet bs ->
  ((length bs <= 4)%nat ->
   decodeApplicationValue ((16 * tagNumber + Z.of_nat (length bs)) :: bs ++ rest)
   = Ok (VUint32 (be_value bs mod 2^32), rest))
  /\ decodeApplicationValue
       ((16 * tagNumber + 5) :: Z.of_nat (length bs) :: bs ++ rest)
     = Ok (VUint32 (be_value bs mod 2^32), rest).
Proof.
  intros Htn Hbs. split.
  - intros Hlen.
    destruct (tag_octet_fields tagNumber (Z.of_nat (length bs)) ltac:(lia)) as [Hs Hl].
    rewrite decodeApplicationValue_direct by (rewrite Hl; lia).
    cbv zeta. rewrite Hl, Hs.
    destruct Htn as [-> | ->]; unfold bind;
      rewrite ReadFull_app_exact by reflexivity; unfold ret;
      rewrite accumulateUint32_be_value by exact Hbs; reflexivity.
  - destruct (tag_octet_fields tagNumber 5 ltac:(lia)) as [Hs Hl].
    rewrite decodeApplicationValue_extended by exact Hl.
    cbv zeta. rewrite Hs.
    destruct Htn as [-> | ->]; unfold bind;
      rewrite ReadFull_app_exact by reflexivity; unfold ret;
      rewrite accumulateUint32_be_value by exact Hbs; reflexivity.
Qed.

(** X4.  An Unsigned (tag 2) or Enumerated (tag 9) value of at most four octets
    decodes to the big-endian value of its octets, with the length in the
    tag octet or, after the escape 5, in the next octet.  Both tags give
    the same [uint32]. *)
Theorem decode_unsigned_big_endian (tagNumber : Z) (bs rest : list Z) :
  tagNumber = 2 \/ tagNumber = 9 ->
  Forall is_octet bs ->
  (length bs <= 4)%nat ->
  decodeApplicationValue ((16 * tagNumber + Z.of_nat (length bs)) :: bs ++ rest)
  = Ok (VUint32 (be_value bs), rest)
  /\ decodeApplicationValue
       ((16 * tagNumber + 5) :: Z.of_nat (length bs) :: bs ++ rest)
     = Ok (VUint32 (be_value bs), rest).
Proof.
  intros Htn Hbs Hlen.
  assert (Hsmall : be_value bs mod 2^32 = be_value bs).
  { apply Z.mod_small. pose proof (be_value_bound bs Hbs) as Hb.
    assert (256 ^ Z.of_nat (length bs) <= 256 ^ 4)
      by (apply Z.pow_le_mono_r; lia).
    change (256 ^ 4) with (2 ^ 32) in *. lia. }
  destruct (decode_unsigned_any_length tagNumber bs rest Htn Hbs) as [H1 H2].
  rewrite H1, H2, Hsmall by exact Hlen. split; reflexivity.
Qed.

Lemma decode_unsigned_big_endian_witness :
  decodeApplicationValue ((16 * 2 + Z.of_nat (length [0x05; 0xC4])) :: [0x05; 0xC4] ++ [0x91])
  = Ok (VUint32 (be_value [0x05; 0xC4]), [0x91])
  /\ decodeApplicationValue
       ((16 * 2 + 5) :: Z.of_nat (length [0x05; 0xC4]) :: [0x05; 0xC4] ++ [0x91])
     = Ok (VUint32 (be_value [0x05; 0xC4]), [0x91]).
Proof.
  apply (decode_unsigned_big_endian 2 [0x05; 0xC4] [0x91]).
  - left. reflexivity.
  - repeat constructor; unfold is_octet; lia.
  - cbn. lia.
Defined.

(** X5.  With the length in an extended-length octet an Unsigned or Enumerated
    value may be longer than four octets; the decoder then keeps the
    big-endian value modulo 2^32, that is the last four octets, without an
    error. *)
Theorem decode_unsigned_long_wraps (tagNumber : Z) (bs rest : list Z) :
  tagNumber = 2 \/ tagNumber = 9 ->
  Forall is_octet bs ->
  (length bs <= 255)%nat ->
  decodeApplicationValue
    ((16 * tagNumber + 5) :: Z.of_nat (length bs) :: bs ++ rest)
  = Ok (VUint32 (be_value bs mod 2^32), rest).
Proof.
  intros Htn Hbs _. apply (decode_unsigned_any_length tagNumber bs rest Htn Hbs).
Qed.

Lemma decode_unsigned_long_wraps_witness :
  decodeApplicationValue
    ((16 * 2 + 5) :: Z.of_nat (length [1; 2; 3; 4; 5]) :: [1; 2; 3; 4; 5] ++ [])
  = Ok (VUint32 (be_value [1; 2; 3; 4; 5] mod 2^32), []).
Proof.
  apply (decode_unsigned_long_wraps 2 [1; 2; 3; 4; 5] []).
  - left. reflexivity.
  - repeat constructor; unfold is_octet; lia.
  - cbn. lia.
Defined.

(** X6.  A CharacterString (tag 7) whose length, after the escape 5, is given
    by an extended-length octet that counts the encoding octet and the
    text, decodes to the text; the encoding octet is dropped whatever it
    is, and a length of 1 gives the empty string. *)
Theorem decode_character_string (encoding : Z) (s rest : list Z) :
  (length s <= 254)%nat ->
  decodeApplicationValue (0x75 :: (Z.of_nat (length s) + 1) :: encoding :: s ++ rest)
  = Ok (VString s, rest).
Proof.
  intros Hlen.
  rewrite decodeApplicationValue_extended by reflexivity.
  cbv zeta. change (Z.shiftr 0x75 4) with 7. cbv iota.
  unfold bind at 1. cbn [ReadByte].
  replace ((Z.of_nat (length s) + 1 - 1) mod 2^32) with (Z.of_nat (length s)).
  - unfold bind. rewrite ReadFull_app_exact by reflexivity. reflexivity.
  - replace (Z.of_nat (length s) + 1 - 1) with (Z.of_nat (length s)) by lia.
    symmetry. apply Z.mod_small. lia.
Qed.

Lemma decode_character_string_witness :
  decodeApplicationValue
    (0x75 :: (Z.of_nat (length [0x41; 0x49; 0x2D; 0x31; 0x30]) + 1) :: 0
          :: [0x41; 0x49; 0x2D; 0x31; 0x30] ++ [0x4F])
  = Ok (VString [0x41; 0x49; 0x2D; 0x31; 0x30], [0x4F]).
Proof. apply (decode_character_string 0 [0x41; 0x49; 0x2D; 0x31; 0x30] [0x4F]). cbn. lia. Defined.

(** X7.  The same with the length in the tag octet, for a text of at most
    three octets: the tag octet is 0x71 for the empty string. *)
Theorem decode_character_string_short (encoding : Z) (s rest : list Z) :
  (length s <= 3)%nat ->
  decodeApplicationValue ((0x71 + Z.of_nat (length s)) :: encoding :: s ++ rest)
  = Ok (VString s, rest).
Proof.
  intros Hlen.
  destruct (tag_octet_fields 7 (Z.of_nat (length s) + 1) ltac:(lia)) as [Hs Hl].
  replace (0x71 + Z.of_nat (length s)) with (16 * 7 + (Z.of_nat (length s) + 1)) by lia.
  rewrite decodeApplicationValue_direct by (rewrite Hl; lia).
  cbv zeta. rewrite Hs, Hl. cbv iota.
  unfold bind at 1. cbn [ReadByte].
  replace ((Z.of_nat (length s) + 1 - 1) mod 2^32) with (Z.of_nat (length s)).
  - unfold bind. rewrite ReadFull_app_exact by reflexivity. reflexivity.
  - replace (Z.of_nat (length s) + 1 - 1) with (Z.of_nat (length s)) by lia.
    symmetry. apply Z.mod_small. lia.
Qed.

Lemma decode_character_string_short_witness :
  decodeApplicationValue ((0x71 + Z.of_nat (length (@nil Z))) :: 0 :: [] ++ [0x4F])
  = Ok (VString [], [0x4F]).
Proof. apply (decode_character_string_short 0 [] [0x4F]). cbn. lia. Defined.

(** X8.  A tag number that the decoder does not know (3, 5, 6, 10, 11, 13, 14,
    15) gives the octets of the value unchanged, as many as the length
    field says: the low four bits of the tag octet (any of 0..15 other
    than the escape 5), or, after the escape, the next octet, whatever
    the number of octets it announces. *)
Theorem decode_unknown_tag_opaque (tagNumber : Z) (bs bs' rest : list Z) :
  In tagNumber [3; 5; 6; 10; 11; 13; 14; 15] ->
  (length bs <= 15)%nat ->
  length bs <> 5%nat ->
  decodeApplicationValue ((16 * tagNumber + Z.of_nat (length bs)) :: bs ++ rest)
  = Ok (VBytes bs, rest)
  /\ decodeApplicationValue
       ((16 * tagNumber + 5) :: Z.of_nat (length bs') :: bs' ++ rest)
     = Ok (VBytes bs', rest).
Proof.
  intros Htn Hlen H5. split.
  - destruct (tag_octet_fields tagNumber (Z.of_nat (length bs)) ltac:(lia)) as [Hs Hl].
    rewrite decodeApplicationValue_direct by (rewrite Hl; lia).
    cbv zeta. rewrite Hl, Hs. cbn [In] in Htn.
    repeat (destruct Htn as [<-|Htn];
            [unfold bind; rewrite ReadFull_app_exact by reflexivity; reflexivity|]).
    contradiction.
  - destruct (tag_octet_fields tagNumber 5 ltac:(lia)) as [Hs Hl].
    rewrite decodeApplicationValue_extended by exact Hl.
    cbv zeta. rewrite Hs. cbn [In] in Htn.
    repeat (destruct Htn as [<-|Htn];
            [unfold bind; rewrite ReadFull_app_exact by reflexivity; reflexivity|]).
    contradiction.
Qed.

Lemma decode_unknown_tag_opaque_witness :
  decodeApplicationValue
    ((16 * 10 + Z.of_nat (length [7; 9; 11; 13; 15; 17])) :: [7; 9; 11; 13; 15; 17] ++ [0x4F])
  = Ok (VBytes [7; 9; 11; 13; 15; 17], [0x4F])
  /\ decodeApplicationValue
       ((16 * 10 + 5) :: Z.of_nat (length [1; 2; 3; 4; 5; 6; 7]) :: [1; 2; 3; 4; 5; 6; 7]
        ++ [0x4F])
     = Ok (VBytes [1; 2; 3; 4; 5; 6; 7], [0x4F]).
Proof.
  apply (decode_unknown_tag_opaque 10 [7; 9; 11; 13; 15; 17] [1; 2; 3; 4; 5; 6; 7] [0x4F]);
    [cbn; tauto|cbn; lia|cbn; lia].
Defined.

(** * Application values and bodies as the specification frames them *)

(** ** A framed value and the decoder *)

Lemma forallb_octetb (bs : list Z) : forallb octetb bs = true -> Forall is_octet bs.
Proof.
  rewrite forallb_forall, Forall_forall. intros H b Hb.
  specialize (H b (proj1 (list_elem_of_In _ _) Hb)).
  unfold octetb in H. unfold is_octet. lia.
Qed.

Lemma wf_value_primitive (tagNumber : Z) (extended : bool) (data : list Z) :
  wf_value (APrimitive tagNumber extended data) = true ->
  0 <= tagNumber <= 14 /\ tagNumber <> 1 /\ Forall is_octet data
  /\ Z.of_nat (length data) <= (if extended then 253 else 4).
Proof.
  cbn [wf_value]. rewrite !andb_true_iff, negb_true_iff.
  intros ((((H0 & H14) & H1) & Hoct) & Hlen).
  apply forallb_octetb in Hoct. repeat split; try assumption; lia.
Qed.

(** The first octet of a framed value is never the closing tag 4F: its
    class bit is clear. *)
Lemma encode_value_head (v : AppValue) :
  wf_value v = true ->
  exists tag encoded, encode_value v = tag :: encoded /\ tag <> 0x4F.
Proof.
  destruct v as [b|tagNumber [|] data]; intros Hwf.
  - eexists _, _. split; [reflexivity|]. destruct b; discriminate.
  - apply wf_value_primitive in Hwf as (_ & _ & _ & _).
    eexists _, _. split; [reflexivity|]. lia.
  - apply wf_value_primitive in Hwf as (_ & _ & _ & Hlen).
    eexists _, _. split; [reflexivity|]. lia.
Qed.

(** The decoder on a framed value: the tag number selects the case and the
    length field is the length of the data. *)
Lemma decode_framed (tagNumber : Z) (extended : bool) (data rest : list Z) :
  Z.of_nat (length data) <= (if extended then 253 else 4) ->
  decodeApplicationValue (encode_value (APrimitive tagNumber extended data) ++ rest)
  = (let lenVal := Z.of_nat (length data) in
     match tagNumber with
     | 0 => ret VNil
     | 1 => ret (VBool (lenVal =? 1))
     | 2 => let* buf := ReadFull lenVal in ret (VUint32 (accumulateUint32 buf))
     | 4 => let* val := binaryRead 4 in ret (VFloat32 val)
     | 7 => let* _ := ReadByte in
            let* buf := ReadFull ((lenVal - 1) mod 2^32) in ret (VString buf)
     | 8 => let* flags := decodeStatusFlags in ret (VStatusFlags flags)
     | 9 => let* buf := ReadFull lenVal in ret (VUint32 (accumulateUint32 buf))
     | 12 => let* val := binaryRead 4 in ret (VObject (unpackObject val))
     | _ => let* buf := ReadFull lenVal in ret (VBytes buf)
     end) (data ++ rest).
Proof.
  intros Hlen. destruct extended; cbn [encode_value app].
  - destruct (tag_octet_fields tagNumber 5 ltac:(lia)) as [Hs Hl].
    rewrite decodeApplicationValue_extended by exact Hl.
    cbv zeta. rewrite Hs. reflexivity.
  - destruct (tag_octet_fields tagNumber (Z.of_nat (length data)) ltac:(lia)) as [Hs Hl].
    rewrite decodeApplicationValue_direct by (rewrite Hl; lia).
    cbv zeta. rewrite Hs, Hl. reflexivity.
Qed.

(** Round trip of the application values: a value framed as section 4.1
    frames it, in a wire form of the table, is decoded to the variant and
    the content that the section prescribes, and the decoder stops at the
    end of the value. *)
Lemma decode_encode_value (v : AppValue) (rest : list Z) :
  wf_value v = true -> table_form v = true ->
  decodeApplicationValue (encode_value v ++ rest) = Ok (value_of v, rest).
Proof.
  destruct v as [b|tagNumber extended data]; intros Hwf Htab.
  - destruct b; reflexivity.
  - apply wf_value_primitive in Hwf as (Ht & Ht1 & Hoct & Hlen).
    rewrite decode_framed by exact Hlen. cbv zeta.
    assert (Hlen4 : Z.of_nat (length data) <= 253) by (destruct extended; lia).
    assert (Hcases : tagNumber = 0 \/ tagNumber = 2 \/ tagNumber = 9 \/ tagNumber = 4
                     \/ tagNumber = 12 \/ tagNumber = 7 \/ tagNumber = 8
                     \/ In tagNumber [3; 5; 6; 10; 11; 13; 14]) by (cbn [In]; lia).
    unfold table_form in Htab. cbv zeta in Htab.
    destruct Hcases as [->|[->|[->|[->|[->|[->|[->|Hin]]]]]]];
      cbn [Z.eqb Pos.eqb orb] in Htab.
    + apply Z.eqb_eq in Htab. destruct data; [reflexivity|cbn [length] in Htab; lia].
    + apply andb_true_iff in Htab as [_ H4]. apply Z.leb_le in H4.
      cbn [value_of Z.eqb Pos.eqb orb]. unfold bind.
      rewrite ReadFull_app_exact by reflexivity. unfold ret.
      rewrite accumulateUint32_be_value by exact Hoct.
      rewrite Z.mod_small; [reflexivity|].
      pose proof (be_value_bound data Hoct) as Hb.
      assert (256 ^ Z.of_nat (length data) <= 256 ^ 4)
        by (apply Z.pow_le_mono_r; lia).
      change (256 ^ 4) with (2 ^ 32) in *. lia.
    + apply andb_true_iff in Htab as [_ H4]. apply Z.leb_le in H4.
      cbn [value_of Z.eqb Pos.eqb orb]. unfold bind.
      rewrite ReadFull_app_exact by reflexivity. unfold ret.
      rewrite accumulateUint32_be_value by exact Hoct.
      rewrite Z.mod_small; [reflexivity|].
      pose proof (be_value_bound data Hoct) as Hb.
      assert (256 ^ Z.of_nat (length data) <= 256 ^ 4)
        by (apply Z.pow_le_mono_r; lia).
      change (256 ^ 4) with (2 ^ 32) in *. lia.
    + apply Z.eqb_eq in Htab.
      destruct data as [|a [|b [|c [|d [|? ?]]]]]; cbn [length] in Htab; try lia.
      cbn [app]. unfold bind. rewrite binaryRead_4. reflexivity.
    + apply Z.eqb_eq in Htab.
      destruct data as [|a [|b [|c [|d [|? ?]]]]]; cbn [length] in Htab; try lia.
      cbn [app]. unfold bind. rewrite binaryRead_4. reflexivity.
    + apply Z.leb_le in Htab.
      destruct data as [|encoding s]; cbn [length] in Htab, Hlen4; [lia|].
      cbn [app value_of Z.eqb Pos.eqb orb tl]. unfold bind at 1. cbn [ReadByte].
      replace ((Z.of_nat (length (encoding :: s)) - 1) mod 2^32)
        with (Z.of_nat (length s)).
      * unfold bind. rewrite ReadFull_app_exact by reflexivity. reflexivity.
      * cbn [length]. replace (Z.of_nat (S (length s)) - 1) with (Z.of_nat (length s)) by lia.
        symmetry. apply Z.mod_small. lia.
    + apply andb_true_iff in Htab as [H2 H4]. apply Z.eqb_eq in H2.
      destruct data as [|unused [|flags [|? ?]]]; cbn [length] in H2; try lia.
      cbn [nth] in H4. apply Z.eqb_eq in H4. subst unused.
      cbn [app value_of Z.eqb Pos.eqb orb nth].
      unfold bind at 1, decodeStatusFlags, bind at 1, wrap at 1. cbn [ReadByte Z.eqb Pos.eqb negb].
      unfold bind, wrap, ret. cbn [ReadByte].
      rewrite !land_shiftr_1_testbit by lia. reflexivity.
    + cbn [In] in Hin.
      repeat (destruct Hin as [<-|Hin];
              [unfold bind; rewrite ReadFull_app_exact by reflexivity; reflexivity|]).
      contradiction.
Qed.

(** ** Bodies: the framed form and the decoder's reading *)

Lemma encode_property_app (p : Z * list AppValue) (tail : list Z) :
  encode_property p ++ tail
  = 0x29 :: p.1 :: 0x4E :: flat_map encode_value p.2 ++ 0x4F :: tail.
Proof. unfold encode_property. cbn [app]. rewrite <- app_assoc. reflexivity. Qed.

Lemma encode_result_app (r : Z * list (Z * list AppValue)) (tail : list Z) :
  encode_result r ++ tail
  = 0x0C :: putUint32 r.1 ++ 0x1E :: flat_map encode_property r.2 ++ 0x1F :: tail.
Proof.
  unfold encode_result. cbn [app]. rewrite <- !app_assoc. cbn [app].
  rewrite <- app_assoc. reflexivity.
Qed.

(** A body whose values have the table's forms and whose brackets hold one
    value each is read by the decoder as it is framed. *)
Lemma decoded_properties_complete (ps : list (Z * list AppValue)) (rest : list Z) :
  forallb wf_property ps = true ->
  forallb (fun p : Z * list AppValue => forallb table_form p.2) ps = true ->
  forallb (fun p : Z * list AppValue => Nat.eqb (length p.2) 1) ps = true ->
  decoded_properties (flat_map encode_property ps ++ 0x1F :: rest)
                     (property_values ps) rest.
Proof.
  induction ps as [|[propID vs] ps IH]; intros Hwf Htab Hone.
  - apply decoded_properties_close.
  - cbn [forallb fst snd] in Hwf, Htab, Hone.
    apply andb_true_iff in Hwf as [Hp Hwf]. apply andb_true_iff in Htab as [Ht Htab].
    apply andb_true_iff in Hone as [H1 Hone].
    destruct vs as [|v [|? ?]]; try discriminate H1.
    unfold wf_property in Hp. cbn [fst snd forallb] in Hp, Ht.
    rewrite !andb_true_iff in Hp. destruct Hp as ((_ & _) & (Hv & _)).
    apply andb_true_iff in Ht as [Htv _].
    cbn [flat_map]. rewrite <- app_assoc, encode_property_app.
    cbn [fst snd flat_map property_values fmap list_fmap bracket_value]. rewrite app_nil_r.
    apply decoded_properties_record with (rest := flat_map encode_property ps ++ 0x1F :: rest).
    + apply decode_encode_value; assumption.
    + apply IH; assumption.
Qed.

Lemma decoded_results_complete (rs : list (Z * list (Z * list AppValue))) :
  wf_body rs = true -> table_forms rs = true -> single_valued rs = true ->
  decoded_results (encode_body rs) (body_values rs).
Proof.
  unfold wf_body, table_forms, single_valued, encode_body.
  induction rs as [|[oid ps] rs IH]; intros Hwf Htab Hone.
  - apply decoded_results_end.
  - cbn [forallb fst snd] in Hwf, Htab, Hone.
    apply andb_true_iff in Hwf as [Hr Hwf]. apply andb_true_iff in Htab as [Ht Htab].
    apply andb_true_iff in Hone as [H1 Hone].
    unfold wf_result in Hr. cbn [fst snd] in Hr.
    rewrite !andb_true_iff in Hr. destruct Hr as ((Hlo & Hhi) & Hps).
    cbn [flat_map]. rewrite encode_result_app.
    cbn [fst snd body_values fmap list_fmap].
    rewrite <- (be_value_putUint32 oid) at 2 by lia.
    unfold putUint32. cbn [app].
    apply decoded_results_object with (rest := flat_map encode_result rs).
    + apply decoded_properties_complete; assumption.
    + apply IH; assumption.
Qed.

(** Conversely, when the decoder reads a well-formed body whose values
    have the table's forms, every bracket of the body holds exactly one
    value, and the reading is the body: a second value in a bracket starts
    with an application tag, which is not the closing tag that the decoder
    requires. *)
Lemma decoded_properties_encoded (ps : list (Z * list AppValue)) (rest : list Z)
    (dps : list (Z * Value)) (rest' : list Z) :
  forallb wf_property ps = true ->
  forallb (fun p : Z * list AppValue => forallb table_form p.2) ps = true ->
  decoded_properties (flat_map encode_property ps ++ 0x1F :: rest) dps rest' ->
  forallb (fun p : Z * list AppValue => Nat.eqb (length p.2) 1) ps = true
  /\ dps = property_values ps /\ rest' = rest.
Proof.
  revert dps. induction ps as [|[propID vs] ps IH]; intros dps Hwf Htab Hd.
  - cbn [flat_map app] in Hd. inversion Hd; subst. auto.
  - cbn [forallb fst snd] in Hwf, Htab.
    apply andb_true_iff in Hwf as [Hp Hwf]. apply andb_true_iff in Htab as [Ht Htab].
    unfold wf_property in Hp. cbn [fst snd] in Hp.
    rewrite !andb_true_iff, negb_true_iff in Hp. destruct Hp as ((_ & Hne) & Hvs).
    destruct vs as [|v vs]; [discriminate Hne|].
    cbn [forallb] in Hvs, Ht.
    apply andb_true_iff in Hvs as [Hv Hvs]. apply andb_true_iff in Ht as [Htv Htvs].
    cbn [flat_map] in Hd. rewrite <- app_assoc, encode_property_app in Hd.
    cbn [fst snd flat_map] in Hd. rewrite <- app_assoc in Hd.
    inversion Hd as [|propID' encoded val rest1 dps' rest'' Hdec Hrest]; subst.
    rewrite (decode_encode_value v _ Hv Htv) in Hdec.
    injection Hdec as <- Htail.
    destruct vs as [|v2 vs].
    + cbn [flat_map app] in Htail. injection Htail as <-.
      destruct (IH _ Hwf Htab Hrest) as (Hone & -> & ->).
      cbn [forallb length fst snd]. split; [exact Hone|]. split; reflexivity.
    + exfalso. cbn [forallb] in Hvs. apply andb_true_iff in Hvs as [Hv2 _].
      destruct (encode_value_head v2 Hv2) as (tag & encoded & Hv2e & Htag).
      cbn [flat_map] in Htail. rewrite Hv2e in Htail. cbn [app] in Htail.
      injection Htail as Htag' _. congruence.
Qed.

Lemma decoded_results_encoded (rs : list (Z * list (Z * list AppValue)))
    (drs : list (Z * list (Z * Value))) :
  wf_body rs = true -> table_forms rs = true ->
  decoded_results (encode_body rs) drs ->
  single_valued rs = true /\ drs = body_values rs.
Proof.
  unfold wf_body, table_forms, single_valued, encode_body.
  revert drs. induction rs as [|[oid ps] rs IH]; intros drs Hwf Htab Hd.
  - cbn [flat_map] in Hd. inversion Hd; subst. auto.
  - cbn [forallb fst snd] in Hwf, Htab.
    apply andb_true_iff in Hwf as [Hr Hwf]. apply andb_true_iff in Htab as [Ht Htab].
    unfold wf_result in Hr. cbn [fst snd] in Hr.
    rewrite !andb_true_iff in Hr. destruct Hr as ((Hlo & Hhi) & Hps).
    cbn [flat_map] in Hd. rewrite encode_result_app in Hd.
    cbn [fst snd] in Hd. unfold putUint32 in Hd. cbn [app] in Hd.
    inversion Hd as [|b0 b1 b2 b3 props dps rest drs' Hprops Hrest]; subst.
    apply decoded_properties_encoded in Hprops as (Hone & -> & ->); [|assumption..].
    destruct (IH _ Hwf Htab Hrest) as (Hones & ->).
    cbn [forallb fst snd]. rewrite Hone, Hones. split; [reflexivity|].
    cbn [body_values fmap list_fmap fst snd]. f_equal. f_equal.
    change [?a; ?b; ?c; ?d] with (putUint32 oid).
    apply be_value_putUint32. lia.
Qed.

(** The objects and the property identifiers of a body are those of its
    values. *)
Lemma body_values_fst (rs : list (Z * list (Z * list AppValue))) :
  (body_values rs).*1 = rs.*1.
Proof.
  unfold body_values. rewrite <- list_fmap_compose. apply list_fmap_ext.
  intros i [oid ps] _. reflexivity.
Qed.

Lemma property_values_fst (ps : list (Z * list AppValue)) :
  (property_values ps).*1 = ps.*1.
Proof.
  unfold property_values. rewrite <- list_fmap_compose. apply list_fmap_ext.
  intros i [pid vs] _. reflexivity.
Qed.

Lemma body_objects_body_values (rs : list (Z * list (Z * list AppValue))) :
  body_objects (body_values rs) = body_objects rs.
Proof. unfold body_objects. rewrite body_values_fst. reflexivity. Qed.

Lemma last_result_body_values (o : BACnetObject)
    (rs : list (Z * list (Z * list AppValue))) :
  last_result o (body_values rs) = property_values <$> last_result o rs.
Proof.
  induction rs as [|[oid ps] rs IH]; [reflexivity|].
  cbn [body_values fmap list_fmap last_result fst snd] in *.
  fold (body_values rs). rewrite IH.
  destruct (last_result o rs) as [ps'|]; [reflexivity|].
  cbn [fmap option_fmap option_map].
  destruct (decide (unpackObject oid = o)); reflexivity.
Qed.

Lemma body_property_ids_body_values (rs : list (Z * list (Z * list AppValue))) :
  body_property_ids (body_values rs) = body_property_ids rs.
Proof.
  unfold body_property_ids, body_values. rewrite <- list_fmap_compose.
  f_equal. apply list_fmap_ext. intros i [oid ps] _. cbn [compose fst snd].
  rewrite property_values_fst. reflexivity.
Qed.

(** * C2: the map of a ReadPropertyMultiple ACK and the body of the ACK *)

(** What the map built from a list of read-access-results holds. *)
Lemma results_of_facts (drs : list (Z * list (Z * Value))) :
  dom (results_of drs ∅) = body_objects drs
  /\ size (results_of drs ∅) = length (remove_dups drs.*1)
  /\ (forall o props, results_of drs ∅ !! o = Some props ->
        exists ps, last_result o drs = Some ps /\ dom props = list_to_set ps.*1)
  /\ map_property_ids (results_of drs ∅) ⊆ body_property_ids drs
  /\ (NoDup drs.*1 -> map_property_ids (results_of drs ∅) = body_property_ids drs).
Proof.
  assert (Hlast : forall o props, results_of drs ∅ !! o = Some props ->
            exists ps, last_result o drs = Some ps /\ dom props = list_to_set ps.*1).
  { intros o props. rewrite lookup_results_of.
    destruct (last_result o drs) as [ps|]; [|rewrite lookup_empty; discriminate].
    intros [= <-]. exists ps. split; [reflexivity|].
    rewrite dom_properties_of, dom_empty_L, (left_id_L ∅ (∪)). reflexivity. }
  assert (Hsub : map_property_ids (results_of drs ∅) ⊆ body_property_ids drs).
  { intros p Hp. apply elem_of_map_property_ids in Hp as (o & props & Hm & Hp).
    apply Hlast in Hm as (ps & Hl & Hd). rewrite Hd in Hp.
    apply elem_of_list_to_set in Hp.
    apply last_result_Some in Hl as (id & Hin & _).
    apply elem_of_body_property_ids. exists id, ps. auto. }
  split; [apply dom_results_of|].
  split; [rewrite <- size_dom, dom_results_of; apply size_body_objects|].
  split; [exact Hlast|]. split; [exact Hsub|].
  intros Hnd. apply set_eq. intros p. split; [apply Hsub|].
  intros Hp. apply elem_of_body_property_ids in Hp as (id & ps & Hin & Hp).
  apply elem_of_map_property_ids.
  exists (unpackObject id), (properties_of ps ∅). split.
  - rewrite lookup_results_of, (last_result_NoDup _ _ id ps Hnd Hin eq_refl).
    reflexivity.
  - rewrite dom_properties_of, dom_empty_L, (left_id_L ∅ (∪)).
    apply elem_of_list_to_set. exact Hp.
Qed.

(** C2 (amended).  Let the body of an ACK be well formed as sections 4.1
    and 4.4 frame it (read-access-results, property records with one or
    more application values, each value delimited by its length field),
    with every value in a wire form of the table of section 4.1.  If
    parseReadPropertyMultipleResponse accepts the ACK, then every property
    bracket of the body holds exactly one value, the returned map has
    exactly one entry per distinct object identifier of the body, and the
    entry of an object holds the property IDs of the last
    read-access-result that names it; hence the union of the property-ID
    sets of the map is contained in the set of property IDs of the body,
    and equals it when no object identifier occurs in more than one
    read-access-result. *)
Theorem rpm_response_map_of_body (data : list Z) (expectedInvokeID : Z)
    (m : gmap BACnetObject (gmap Z Value))
    (rs : list (Z * list (Z * list AppValue))) :
  parseReadPropertyMultipleResponse data expectedInvokeID = Ok m ->
  ack_body data = encode_body rs ->
  wf_body rs = true ->
  table_forms rs = true ->
  single_valued rs = true
  /\ dom m = body_objects rs
  /\ size m = length (remove_dups rs.*1)
  /\ (forall o props, m !! o = Some props ->
        exists ps, last_result o rs = Some ps /\ dom props = list_to_set ps.*1)
  /\ map_property_ids m ⊆ body_property_ids rs
  /\ (NoDup rs.*1 -> map_property_ids m = body_property_ids rs).
Proof.
  intros H Hbody Hwf Htab.
  apply parseReadPropertyMultipleResponse_Ok in H as (drs & Hdrs & ->).
  rewrite Hbody in Hdrs.
  apply decoded_results_encoded in Hdrs as (Hone & ->); [|assumption..].
  split; [exact Hone|].
  destruct (results_of_facts (body_values rs)) as (Hdom & Hsize & Hlast & Hsub & Heq).
  rewrite body_objects_body_values in Hdom.
  rewrite body_values_fst in Hsize, Heq.
  rewrite body_property_ids_body_values in Hsub, Heq.
  split; [exact Hdom|]. split; [exact Hsize|].
  split; [|split; [exact Hsub|exact Heq]].
  intros o props Hm. apply Hlast in Hm as (dps & Hl & Hd).
  rewrite last_result_body_values in Hl.
  destruct (last_result o rs) as [ps|]; [|discriminate Hl].
  injection Hl as <-. exists ps. split; [reflexivity|].
  rewrite Hd, property_values_fst. reflexivity.
Qed.

Lemma rpm_response_map_of_body_witness :
  let rs := [(1, [(85, [APrimitive 2 false [7]]); (77, [ABoolean false])]);
             (2, [(85, [APrimitive 2 false [9]])])] in
  let data := [0x81; 0x0A; 0x00; 0x28; 0x01; 0x00; 0x30; 0x01; 0x0E] ++ encode_body rs in
  let m : gmap BACnetObject (gmap Z Value) :=
    <[mkObject 0 2 := <[85 := VUint32 9]> ∅]>
      (<[mkObject 0 1 := <[77 := VBool false]> (<[85 := VUint32 7]> ∅)]> ∅) in
  parseReadPropertyMultipleResponse data 1 = Ok m
  /\ single_valued rs = true
  /\ dom m = body_objects rs
  /\ size m = length (remove_dups rs.*1)
  /\ (forall o props, m !! o = Some props ->
        exists ps, last_result o rs = Some ps /\ dom props = list_to_set ps.*1)
  /\ map_property_ids m ⊆ body_property_ids rs
  /\ (NoDup rs.*1 -> map_property_ids m = body_property_ids rs).
Proof.
  cbv zeta. split; [vm_compute; reflexivity|].
  apply (rpm_response_map_of_body
           ([0x81; 0x0A; 0x00; 0x28; 0x01; 0x00; 0x30; 0x01; 0x0E]
            ++ encode_body [(1, [(85, [APrimitive 2 false [7]]); (77, [ABoolean false])]);
                            (2, [(85, [APrimitive 2 false [9]])])]) 1);
    vm_compute; reflexivity.
Defined.

(** C2, as the specification states it, fails when an object identifier
    occurs in two read-access-results: the second assignment
    [results[currentObject] = objectProperties] replaces the first, and the
    property IDs of the first result are lost.  Here the body names the
    object (0, 1) twice, with property 85 and then with property 77; the
    returned map keeps 77 only. *)
Lemma rpm_repeated_object_loses_properties :
  let rs := [(1, [(85, [APrimitive 2 false [7]])]); (1, [(77, [ABoolean false])])] in
  let data := [0x81; 0x0A; 0x00; 0x21; 0x01; 0x00; 0x30; 0x01; 0x0E;
               0x0C; 0x00; 0x00; 0x00; 0x01; 0x1E;
               0x29; 0x55; 0x4E; 0x21; 0x07; 0x4F; 0x1F;
               0x0C; 0x00; 0x00; 0x00; 0x01; 0x1E;
               0x29; 0x4D; 0x4E; 0x10; 0x4F; 0x1F] in
  let m : gmap BACnetObject (gmap Z Value) :=
    <[mkObject 0 1 := <[77 := VBool false]> ∅]> ∅ in
  ack_body data = encode_body rs
  /\ wf_body rs = true /\ table_forms rs = true /\ single_valued rs = true
  /\ parseReadPropertyMultipleResponse data 1 = Ok m
  /\ (85 ∈ body_property_ids rs)
  /\ (85 ∉ map_property_ids m)
  /\ map_property_ids m <> body_property_ids rs.
Proof.
  cbv zeta. do 4 (split; [reflexivity|]). split; [vm_compute; reflexivity|].
  assert (Hin : 85 ∈ body_property_ids
                  [(1, [(85, [APrimitive 2 false [7]])]); (1, [(77, [ABoolean false])])]).
  { apply elem_of_body_property_ids. eexists _, _. split; [left|]. left. }
  assert (Hnotin : 85 ∉ map_property_ids
                     (<[mkObject 0 1 := <[77 := VBool false]> ∅]> ∅)).
  { intros Hp. apply elem_of_map_property_ids in Hp as (o & props & Hm & Hp).
    apply lookup_insert_Some in Hm as [[_ <-]|[_ Hm]];
      [|rewrite lookup_empty in Hm; discriminate].
    rewrite dom_insert_L, dom_empty_L in Hp.
    apply elem_of_union in Hp as [Hp|Hp].
    - apply elem_of_singleton in Hp. discriminate.
    - apply elem_of_empty in Hp. exact Hp. }
  split; [exact Hin|]. split; [exact Hnotin|].
  intros Heq. rewrite Heq in Hnotin. contradiction.
Qed.

(** The wire forms of the table are needed.  The decoder reads two octets
    for a BitString and four for a Real or an ObjectIdentifier, whatever
    the length field says.  Here the only read-access-result of the body
    names the object (0, 1) and holds the property 85, a BitString of 14
    octets; the decoder takes the third octet of the BitString for the
    closing tag and reads the rest of it as a second read-access-result:
    the returned map has an entry for the object (0, 2), with the property
    77, neither of which occurs in the body. *)
Lemma rpm_long_bitstring_read_as_results :
  let rs := [(1, [(85, [APrimitive 8 true
                          [0x04; 0xA0; 0x4F; 0x1F; 0x0C; 0x00; 0x00; 0x00; 0x02;
                           0x1E; 0x29; 0x4D; 0x4E; 0x10]])])] in
  let data := [0x81; 0x0A; 0x00; 0x24; 0x01; 0x00; 0x30; 0x01; 0x0E] ++ encode_body rs in
  wf_body rs = true /\ single_valued rs = true /\ table_forms rs = false
  /\ (exists m, parseReadPropertyMultipleResponse data 1 = Ok m
                /\ m !! mkObject 0 2 = Some (<[77 := VBool false]> ∅))
  /\ last_result (mkObject 0 2) rs = None
  /\ (77 ∉ body_property_ids rs).
Proof.
  cbv zeta. do 3 (split; [reflexivity|]). split; [|split; [reflexivity|]].
  - eexists. split; [vm_compute; reflexivity|]. vm_compute. reflexivity.
  - intros Hp. apply elem_of_body_property_ids in Hp as (id & ps & Hin & Hp).
    apply elem_of_cons in Hin as [Hin|Hin]; [|apply elem_of_nil in Hin; contradiction].
    injection Hin as -> ->. cbn in Hp.
    apply elem_of_cons in Hp as [Hp|Hp]; [discriminate|].
    apply elem_of_nil in Hp. contradiction.
Qed.

(** * Further properties of the package *)

(** ** The invoke-ID allocator *)

Lemma Next_n_ids (n : nat) (m : invokeIDManager) :
  (Next_n n m).1 = (fun k => (lastID m + Z.of_nat k) mod 256) <$> seq 1 n.
Proof.
  revert m. induction n as [|n IH]; intros m; [reflexivity|].
  cbn [Next_n]. unfold Next at 1.
  destruct (Next_n n {| lastID := (lastID m + 1) mod 256 |}) as [ids m2] eqn:E.
  cbn [fst]. specialize (IH {| lastID := (lastID m + 1) mod 256 |}).
  rewrite E in IH. cbn [fst lastID] in IH. rewrite IH.
  cbn [seq fmap list_fmap]. f_equal.
  rewrite <- (fmap_S_seq 1), <- list_fmap_compose.
  apply list_fmap_ext. intros i k _. cbn.
  rewrite Zplus_mod_idemp_l. f_equal. lia.
Qed.

Lemma Next_n_state (n : nat) (m : invokeIDManager) :
  (0 < n)%nat -> lastID (Next_n n m).2 = (lastID m + Z.of_nat n) mod 256.
Proof.
  revert m. induction n as [|n IH]; intros m Hn; [lia|].
  cbn [Next_n]. unfold Next at 1.
  destruct (Next_n n {| lastID := (lastID m + 1) mod 256 |}) as [ids m2] eqn:E.
  cbn [snd]. destruct n as [|n].
  - cbn in E. injection E as <- <-. reflexivity.
  - specialize (IH {| lastID := (lastID m + 1) mod 256 |} ltac:(lia)).
    rewrite E in IH. cbn [snd lastID] in IH. rewrite IH.
    rewrite Zplus_mod_idemp_l. f_equal. lia.
Qed.

(** X1.  Up to 256 successive calls of [Next] return pairwise distinct invoke
    IDs, each of them an octet; after exactly 256 calls the allocator is
    back in its state and the next ID is the first one again. *)
Theorem Next_wraps_after_256 (n : nat) (m : invokeIDManager) :
  (n <= 256)%nat -> is_octet (lastID m) ->
  NoDup (Next_n n m).1
  /\ Forall is_octet (Next_n n m).1
  /\ (Next_n 256 m).2 = m
  /\ (Next (Next_n 256 m).2).1 = (Next m).1.
Proof.
  intros Hn Hm. rewrite Next_n_ids.
  assert (Hback : (Next_n 256 m).2 = m).
  { pose proof (Next_n_state 256 m ltac:(lia)) as H.
    destruct (Next_n 256 m).2 as [l]. destruct m as [l0].
    cbn [lastID] in *. f_equal. rewrite H.
    change (Z.of_nat 256) with (1 * 256). rewrite Z.mod_add by lia.
    apply Z.mod_small. exact Hm. }
  split; [|split; [|split; [exact Hback|rewrite Hback; reflexivity]]].
  - apply NoDup_fmap_2_strong; [|apply NoDup_seq].
    intros x y Hx Hy Heq.
    apply elem_of_seq in Hx. apply elem_of_seq in Hy.
    assert (Hxy : (lastID m + Z.of_nat x - (lastID m + Z.of_nat y)) mod 256 = 0).
    { rewrite Zminus_mod, Heq, Z.sub_diag. reflexivity. }
    apply Z.mod_divide in Hxy; [|lia]. destruct Hxy as [q Hq]. lia.
  - apply Forall_fmap, Forall_forall. intros k _. cbn. unfold is_octet.
    apply Z.mod_pos_bound. lia.
Qed.

Lemma Next_wraps_after_256_witness :
  NoDup (Next_n 3 (mkInvokeIDManager 254)).1
  /\ Forall is_octet (Next_n 3 (mkInvokeIDManager 254)).1
  /\ (Next_n 256 (mkInvokeIDManager 254)).2 = mkInvokeIDManager 254
  /\ (Next (Next_n 256 (mkInvokeIDManager 254)).2).1 = (Next (mkInvokeIDManager 254)).1.
Proof.
  apply (Next_wraps_after_256 3 (mkInvokeIDManager 254)); [lia|].
  unfold is_octet. cbn. lia.
Defined.

(** ** parseObjectList *)

Lemma ol_objects_sound (fuel n : nat) (acc : list BACnetObject) :
  (n < fuel)%nat -> sound_upto n (ol_objects fuel acc).
Proof.
  revert n acc. induction fuel as [|fuel IH]; intros n acc Hn; [lia|].
  cbn [ol_objects]. intros r Hr.
  destruct r as [|tag r]; [apply Nat.le_refl|]. cbn [ReadByte].
  destruct n as [|n]; [cbn in Hr; lia|].
  apply well_behaved_cons.
  assert (Hs : sound_upto n
            (if tag =? 63 then ret acc
             else if tag =? 196
                  then (let* rawObjId :=
                          wrap "error reading object id from list" (binaryRead 4) in
                        ol_objects fuel (acc ++ [unpackObject rawObjId]))
                  else fail (Errorf "unexpected tag in object list"))).
  { repeat first [ apply IH; lia | sound_step ]. }
  apply Hs. cbn in Hr. lia.
Qed.

Lemma parseObjectList_budget data expectedInvokeID e :
  parseObjectList data expectedInvokeID = Err e -> mentions_fuel e = false.
Proof.
  apply run_budget.
  repeat first
    [ apply ol_objects_sound; lia
    | lazymatch goal with
      | |- sound readBVLCHeader => apply sound_readBVLCHeader
      | |- sound readNPDU => apply sound_readNPDU
      | _ => sound_step
      end ].
Qed.

(** The loop reads the encoded identifiers one after the other. *)
Lemma ol_objects_encoded (objects : list BACnetObject) (fuel : nat)
    (acc : list BACnetObject) (tail : list Z) :
  Forall valid_object objects ->
  (length objects < fuel)%nat ->
  tail = [] \/ (exists trailing, tail = 0x3F :: trailing) ->
  exists r',
    ol_objects fuel acc
      (flat_map (fun o => 0xC4 :: putUint32 (packObject o)) objects ++ tail)
    = Ok (acc ++ objects, r').
Proof.
  intros Hv. revert fuel acc.
  induction Hv as [|o objects Ho Hv IH]; intros fuel acc Hf Htail.
  - destruct fuel as [|fuel]; [cbn in Hf; lia|].
    cbn [flat_map app ol_objects]. rewrite app_nil_r.
    destruct Htail as [-> | [trailing ->]]; eexists; reflexivity.
  - destruct fuel as [|fuel]; [cbn in Hf; lia|].
    cbn [flat_map ol_objects]. rewrite <- app_assoc. cbn [app ReadByte].
    cbn [Z.eqb Pos.eqb].
    unfold putUint32 at 1. cbn [app].
    rewrite (bind_eval _ _ _ _ _ (wrap_eval _ _ _ _ _ (binaryRead_4 _ _ _ _ _))).
    change [?a; ?b; ?c; ?d] with (putUint32 (packObject o)).
    destruct o as [t i]. destruct Ho as [Ht Hi]. cbn [obj_type obj_instance] in *.
    rewrite packObject_in_range, be_value_putUint32, unpackObject_split by lia.
    destruct (IH fuel (acc ++ [mkObject t i]) ltac:(cbn in Hf; lia) Htail) as [r' Hr'].
    exists r'. rewrite Hr', <- app_assoc. reflexivity.
Qed.

(** X9.  Round trip of the object list.  A ReadProperty ACK with the expected
    invoke ID, whose list holds the identifiers of [objects] packed as the
    request builders pack them, decodes to [objects], in order.  The
    closing tag may be followed by anything, and may even be missing: the
    end of the datagram ends the list as well. *)
Theorem parseObjectList_round_trip (h0 h1 h2 h3 h4 h5 apduType expectedInvokeID
    o0 o1 o2 o3 propID : Z) (objects : list BACnetObject) (tail : list Z) :
  Z.land apduType 0xF0 = APDU_COMPLEX_ACK ->
  Forall valid_object objects ->
  tail = [] \/ (exists trailing, tail = 0x3F :: trailing) ->
  parseObjectList
    ([h0; h1; h2; h3; h4; h5; apduType; expectedInvokeID;
      SERVICE_CONFIRMED_READ_PROPERTY; 0x0C; o0; o1; o2; o3; 0x19; propID; 0x3E]
     ++ flat_map (fun o => 0xC4 :: putUint32 (packObject o)) objects ++ tail)
    expectedInvokeID
  = Ok objects.
Proof.
  intros Hty Hv Htail. unfold parseObjectList, run.
  set (fuel := S (length _)).
  assert (Hfuel : (length objects < fuel)%nat).
  { subst fuel. rewrite length_app, length_app. cbn [length].
    assert (le (length objects)
              (length (flat_map (fun o => 0xC4 :: putUint32 (packObject o)) objects))).
    { clear. induction objects as [|o os IH]; cbn; lia. }
    lia. }
  clearbody fuel. cbn [app].
  rewrite (bind_eval _ _ _ _ _ (wrap_eval _ _ _ _ _ (readBVLCHeader_4 _ _ _ _ _))).
  rewrite (bind_eval _ _ _ _ _ (wrap_eval _ _ _ _ _ (readNPDU_2 _ _ _))).
  unfold bind at 1, wrap at 1. cbn [ReadByte]. rewrite Hty.
  cbn [APDU_COMPLEX_ACK Z.eqb Pos.eqb negb].
  unfold bind at 1. cbn [ReadByte_]. rewrite Z.eqb_refl. cbn [negb].
  unfold bind at 1, wrap at 1.
  cbn [ReadByte SERVICE_CONFIRMED_READ_PROPERTY Z.eqb Pos.eqb negb].
  unfold bind at 1, wrap at 1. cbn [ReadByte Z.eqb Pos.eqb negb].
  rewrite (bind_eval _ _ _ _ _ (wrap_eval _ _ _ _ _ (binaryRead_4 _ _ _ _ _))).
  unfold bind at 1, wrap at 1. cbn [ReadByte Z.eqb Pos.eqb negb].
  rewrite (bind_eval _ _ _ _ _ (wrap_eval _ _ _ _ _ (binaryRead_1 _ _))).
  unfold bind at 1, wrap at 1. cbn [ReadByte Z.eqb Pos.eqb negb].
  destruct (ol_objects_encoded objects fuel [] tail Hv Hfuel Htail) as [r' Hr'].
  rewrite Hr'. reflexivity.
Qed.

Lemma parseObjectList_round_trip_witness :
  parseObjectList
    ([0x81; 0x0A; 0x00; 0x1C; 0x01; 0x00; 0x30; 7;
      SERVICE_CONFIRMED_READ_PROPERTY; 0x0C; 0x02; 0x00; 0x04; 0xD2; 0x19; 76; 0x3E]
     ++ flat_map (fun o => 0xC4 :: putUint32 (packObject o))
          [mkObject 8 1234; mkObject 0 3] ++ [0x3F])
    7
  = Ok [mkObject 8 1234; mkObject 0 3].
Proof.
  apply (parseObjectList_round_trip 0x81 0x0A 0x00 0x1C 0x01 0x00 0x30 7
           0x02 0x00 0x04 0xD2 76 [mkObject 8 1234; mkObject 0 3] [0x3F]).
  - reflexivity.
  - repeat constructor; cbn; lia.
  - right. exists []. reflexivity.
Defined.

(** What an accepted object list looks like. *)
Lemma unpackObject_valid (v : Z) : 0 <= v < 2^32 -> valid_object (unpackObject v).
Proof.
  intros Hv. unfold valid_object, unpackObject. cbn [obj_type obj_instance].
  rewrite Z.shiftr_div_pow2 by lia.
  change 0x3FFFFF with (Z.ones 22). rewrite Z.land_ones by lia.
  change (Z.ones 22) with 4194303.
  change (2^22) with 4194304 in *. change (2^32) with 4294967296 in *.
  Z.div_mod_to_equations. lia.
Qed.

Lemma ol_objects_Ok (fuel : nat) (acc : list BACnetObject) (r : Reader)
    (objects : list BACnetObject) (r' : Reader) :
  Forall is_octet r ->
  ol_objects fuel acc r = Ok (objects, r') ->
  exists new, objects = acc ++ new
              /\ Forall valid_object new
              /\ (5 * length new <= length r)%nat.
Proof.
  revert acc r. induction fuel as [|fuel IH]; intros acc r Hoct H; [discriminate|].
  cbn [ol_objects] in H. destruct r as [|tag r].
  - cbn in H. simplify_eq. exists []. rewrite app_nil_r.
    split; [reflexivity|]. split; [constructor|cbn; lia].
  - cbn [ReadByte] in H. apply Forall_cons in Hoct as [_ Hoct].
    minv H; simplify_eq.
    + exists []. rewrite app_nil_r. split; [reflexivity|]. split; [constructor|cbn; lia].
    + repeat match goal with
             | Ho : Forall is_octet (_ :: _) |- _ =>
                 let Hb := fresh "Hb" in apply Forall_cons in Ho as [Hb Ho]
             end.
      apply IH in H as (new & -> & Hv & Hlen); [|assumption].
      eexists (_ :: new). rewrite <- app_assoc. split; [reflexivity|].
      split; [|cbn [length]; lia].
      constructor; [|exact Hv]. apply unpackObject_valid.
      match goal with
      | |- context [be_value ?l] => pose proof (be_value_bound l) as Hb'
      end.
      change (256 ^ _) with (2^32) in Hb'.
      apply Hb'. repeat (constructor; [assumption|]). constructor.
Qed.

(** X10.  Every object of an accepted object list has a 10-bit type and a 22-bit
    instance, and each of them took five octets of the datagram after the
    17 octets of the headers: a datagram of [n] octets yields at most
    [(n - 17) / 5] objects. *)
Theorem parseObjectList_objects_bounded (data : list Z) (expectedInvokeID : Z)
    (objects : list BACnetObject) :
  Forall is_octet data ->
  parseObjectList data expectedInvokeID = Ok objects ->
  Forall valid_object objects /\ (17 + 5 * length objects <= length data)%nat.
Proof.
  intros Hoct H. unfold parseObjectList in H. apply run_Ok in H as [r H].
  minv H; simplify_eq.
  assert (Hr : forall l, Forall is_octet l -> Forall is_octet (skipn 17 l))
    by (intros l Hl; apply Forall_drop; exact Hl).
  apply Hr in Hoct. cbn [skipn] in Hoct.
  apply ol_objects_Ok in H as (new & -> & Hv & Hlen); [|exact Hoct].
  cbn [app]. split; [exact Hv|]. cbn [length]. lia.
Qed.

Lemma parseObjectList_objects_bounded_witness :
  let data := [0x81; 0x0A; 0x00; 0x1C; 0x01; 0x00; 0x30; 7; 0x0C;
               0x0C; 0x02; 0x00; 0x04; 0xD2; 0x19; 76; 0x3E;
               0xC4; 0x02; 0x00; 0x04; 0xD2; 0xC4; 0x00; 0x00; 0x00; 0x03; 0x3F] in
  Forall valid_object [mkObject 8 1234; mkObject 0 3]
  /\ (17 + 5 * length [mkObject 8 1234; mkObject 0 3] <= length data)%nat.
Proof.
  cbv zeta.
  apply (parseObjectList_objects_bounded _ 7).
  - repeat constructor; unfold is_octet; lia.
  - reflexivity.
Defined.

(** ** The ACK decoders check the header of the reply *)

Lemma readComplexAckHeader_checks (expectedInvokeID : Z) (r r' : Reader) (u : unit) :
  readComplexAckHeader expectedInvokeID r = Ok (u, r') ->
  (exists apduType, r !! 6%nat = Some apduType
                    /\ Z.land apduType 0xF0 = APDU_COMPLEX_ACK)
  /\ r !! 7%nat = Some expectedInvokeID
  /\ r !! 8%nat = Some SERVICE_CONFIRMED_READ_PROPERTY_MULTIPLE.
Proof.
  intros H. unfold readComplexAckHeader in H. minv H; simplify_eq.
  split; [eexists; split; [reflexivity|assumption]|]. split; reflexivity.
Qed.

(** X11.  A reply is accepted by parseObjectList only if its APDU type is
    Complex-ACK, the octet after it is the expected invoke ID, and the
    service choice is ReadProperty.  An Error, Reject or Abort APDU, or the
    reply to another request, is never decoded as an object list. *)
Theorem parseObjectList_checks_header (data : list Z) (expectedInvokeID : Z) :
  is_ok (parseObjectList data expectedInvokeID) = true ->
  (exists apduType, data !! 6%nat = Some apduType
                    /\ Z.land apduType 0xF0 = APDU_COMPLEX_ACK)
  /\ data !! 7%nat = Some expectedInvokeID
  /\ data !! 8%nat = Some SERVICE_CONFIRMED_READ_PROPERTY.
Proof.
  destruct (parseObjectList data expectedInvokeID) as [os|e] eqn:H; [|discriminate].
  intros _. unfold parseObjectList in H. apply run_Ok in H as [r H].
  minv H; simplify_eq.
  split; [eexists; split; [reflexivity|assumption]|]. split; reflexivity.
Qed.

Lemma parseObjectList_checks_header_witness :
  is_ok (parseObjectList
           [0x81; 0x0A; 0x00; 0x17; 0x01; 0x00; 0x30; 0x07; 0x0C; 0x0C; 0x02; 0x00; 0x04;
            0xD2; 0x19; 0x4C; 0x3E; 0xC4; 0x00; 0x00; 0x00; 0x03; 0x3F] 7) = true
  /\ ((exists apduType,
         [0x81; 0x0A; 0x00; 0x17; 0x01; 0x00; 0x30; 0x07; 0x0C; 0x0C; 0x02; 0x00; 0x04;
          0xD2; 0x19; 0x4C; 0x3E; 0xC4; 0x00; 0x00; 0x00; 0x03; 0x3F] !! 6%nat
         = Some apduType /\ Z.land apduType 0xF0 = APDU_COMPLEX_ACK)
      /\ [0x81; 0x0A; 0x00; 0x17; 0x01; 0x00; 0x30; 0x07; 0x0C; 0x0C; 0x02; 0x00; 0x04;
          0xD2; 0x19; 0x4C; 0x3E; 0xC4; 0x00; 0x00; 0x00; 0x03; 0x3F] !! 7%nat = Some 7
      /\ [0x81; 0x0A; 0x00; 0x17; 0x01; 0x00; 0x30; 0x07; 0x0C; 0x0C; 0x02; 0x00; 0x04;
          0xD2; 0x19; 0x4C; 0x3E; 0xC4; 0x00; 0x00; 0x00; 0x03; 0x3F] !! 8%nat
         = Some SERVICE_CONFIRMED_READ_PROPERTY).
Proof.
  split; [vm_compute; reflexivity|].
  apply (parseObjectList_checks_header
           [0x81; 0x0A; 0x00; 0x17; 0x01; 0x00; 0x30; 0x07; 0x0C; 0x0C; 0x02; 0x00; 0x04;
            0xD2; 0x19; 0x4C; 0x3E; 0xC4; 0x00; 0x00; 0x00; 0x03; 0x3F] 7).
  vm_compute; reflexivity.
Defined.

(** X12.  A reply is accepted by parseObjectPropertyList only if its APDU type is
    Complex-ACK, the octet after it is the expected invoke ID, and the
    service choice is ReadPropertyMultiple. *)
Theorem parseObjectPropertyList_checks_header (data : list Z) (expectedInvokeID : Z) :
  is_ok (parseObjectPropertyList data expectedInvokeID) = true ->
  (exists apduType, data !! 6%nat = Some apduType
                    /\ Z.land apduType 0xF0 = APDU_COMPLEX_ACK)
  /\ data !! 7%nat = Some expectedInvokeID
  /\ data !! 8%nat = Some SERVICE_CONFIRMED_READ_PROPERTY_MULTIPLE.
Proof.
  destruct (parseObjectPropertyList data expectedInvokeID) as [ps|e] eqn:E;
    [|discriminate].
  intros _. unfold parseObjectPropertyList in E. apply run_Ok in E as [r E].
  apply bind_Ok in E as (u & r1 & Hh & _).
  eapply readComplexAckHeader_checks. exact Hh.
Qed.

Lemma parseObjectPropertyList_checks_header_witness :
  (exists apduType,
     [0x81; 0x0A; 0x00; 0x17; 0x01; 0x00; 0x30; 0x07; 0x0E; 0x0C; 0x00; 0x00; 0x00;
      0x03; 0x1E; 0x29; 0x55; 0x4E; 0x21; 0x2A; 0x4F; 0x1F] !! 6%nat = Some apduType
     /\ Z.land apduType 0xF0 = APDU_COMPLEX_ACK)
  /\ [0x81; 0x0A; 0x00; 0x17; 0x01; 0x00; 0x30; 0x07; 0x0E; 0x0C; 0x00; 0x00; 0x00;
      0x03; 0x1E; 0x29; 0x55; 0x4E; 0x21; 0x2A; 0x4F; 0x1F] !! 7%nat = Some 7
  /\ [0x81; 0x0A; 0x00; 0x17; 0x01; 0x00; 0x30; 0x07; 0x0E; 0x0C; 0x00; 0x00; 0x00;
      0x03; 0x1E; 0x29; 0x55; 0x4E; 0x21; 0x2A; 0x4F; 0x1F] !! 8%nat
     = Some SERVICE_CONFIRMED_READ_PROPERTY_MULTIPLE.
Proof.
  apply (parseObjectPropertyList_checks_header
           [0x81; 0x0A; 0x00; 0x17; 0x01; 0x00; 0x30; 0x07; 0x0E; 0x0C; 0x00; 0x00; 0x00;
            0x03; 0x1E; 0x29; 0x55; 0x4E; 0x21; 0x2A; 0x4F; 0x1F] 7).
  vm_compute; reflexivity.
Defined.

(** ** parseCOVNotification: further properties *)

Lemma decoded_records_length (r : list Z) (vs : list BACnetPropertyValue) (r' : list Z) :
  decoded_records r vs r' -> (length vs + length r' < length r)%nat.
Proof.
  induction 1 as [rest|propID encoded val rest vs rest' Hdec _ IH]; cbn [length]; [lia|].
  pose proof (consuming_decodeApplicationValue encoded) as Hc.
  rewrite Hdec in Hc. cbn [progresses length] in Hc. lia.
Qed.

Lemma cov_values_complete (fuel : nat) (acc : list BACnetPropertyValue) (r : list Z)
    (vs : list BACnetPropertyValue) (r' : list Z) :
  decoded_records r vs r' -> (length vs < fuel)%nat ->
  cov_values fuel acc r = Ok (acc ++ vs, r').
Proof.
  intros H. revert fuel acc.
  induction H as [rest|propID encoded val rest vs rest' Hdec _ IH];
    intros [|fuel] acc Hf; cbn [length] in Hf; try lia.
  - rewrite app_nil_r. reflexivity.
  - cbn [cov_values].
    erewrite bind_eval by (apply wrap_eval; reflexivity).
    cbn [Z.eqb Pos.eqb negb].
    erewrite bind_eval by (apply wrap_eval, binaryRead_1).
    erewrite bind_eval by (apply wrap_eval; reflexivity).
    cbn [Z.eqb Pos.eqb negb].
    erewrite bind_eval by (apply wrap_eval; exact Hdec).
    erewrite bind_eval by (apply wrap_eval; reflexivity).
    cbn [Z.eqb Pos.eqb negb].
    rewrite IH by lia. rewrite <- app_assoc. reflexivity.
Qed.

Lemma encode_cov_record_app (p : Z * AppValue) (tail : list Z) :
  encode_cov_record p ++ tail
  = 0x09 :: p.1 :: 0x2E :: encode_value p.2 ++ 0x2F :: tail.
Proof. unfold encode_cov_record. cbn [app]. rewrite <- app_assoc. reflexivity. Qed.

Lemma decoded_records_complete (ps : list (Z * AppValue)) (trailing : list Z) :
  forallb wf_cov_record ps = true ->
  decoded_records (encode_cov_values ps ++ trailing) (cov_record_value <$> ps) trailing.
Proof.
  unfold encode_cov_values. rewrite <- app_assoc. cbn [app].
  induction ps as [|[propID v] ps IH]; intros Hwf.
  - apply decoded_records_close.
  - cbn [forallb] in Hwf. apply andb_true_iff in Hwf as [Hp Hwf].
    unfold wf_cov_record in Hp. cbn [fst snd] in Hp.
    rewrite !andb_true_iff in Hp. destruct Hp as ((_ & Hv) & Ht).
    cbn [flat_map]. rewrite <- app_assoc, encode_cov_record_app.
    cbn [fst snd fmap list_fmap].
    apply decoded_records_record
      with (rest := flat_map encode_cov_record ps ++ 0x4F :: trailing).
    + apply decode_encode_value; assumption.
    + apply IH. exact Hwf.
Qed.

(** X14.  Round trip of a notification.  A datagram made of six octets that are
    skipped, an unconfirmed-request octet, the service choice 0x02, the
    four fixed fields under the tags 09, 1C, 2C and 39, the opening tag 4E
    and the records of a list of values, framed as sections 4.1 and 4.4
    frame them with every value in a wire form of the table, decodes to the
    notification that holds the fields and, in their order, the property
    identifier and the value of each record.  What follows the closing tag
    is ignored. *)
Theorem parseCOVNotification_round_trip (h0 h1 h2 h3 h4 h5 apduType subId
    d0 d1 d2 d3 o0 o1 o2 o3 timeRem : Z) (records : list (Z * AppValue))
    (trailing : list Z) :
  Z.land apduType 0xF0 = APDU_UNCONFIRMED_REQUEST ->
  forallb wf_cov_record records = true ->
  parseCOVNotification
    ([h0; h1; h2; h3; h4; h5; apduType; SERVICE_UNCONFIRMED_EVENT_NOTIFICATION;
      0x09; subId; 0x1C; d0; d1; d2; d3; 0x2C; o0; o1; o2; o3; 0x39; timeRem;
      0x4E] ++ encode_cov_values records ++ trailing)
  = Ok {| SubscriberProcessIdentifier := subId;
          InitiatingDeviceIdentifier := unpackObject (be_value [d0; d1; d2; d3]);
          MonitoredObjectIdentifier := unpackObject (be_value [o0; o1; o2; o3]);
          TimeRemaining := timeRem;
          ListOfValues := cov_record_value <$> records |}.
Proof.
  intros Hty Hwf.
  pose proof (decoded_records_complete records trailing Hwf) as Hrec.
  unfold parseCOVNotification, run. cbn [app skipn length].
  unfold bind at 1, wrap at 1. cbn [ReadByte]. rewrite Hty.
  cbn [APDU_UNCONFIRMED_REQUEST Z.eqb Pos.eqb negb].
  unfold bind at 1, wrap at 1.
  cbn [ReadByte SERVICE_UNCONFIRMED_EVENT_NOTIFICATION Z.eqb Pos.eqb negb].
  unfold bind at 1. cbn [ReadByte_ Z.eqb Pos.eqb negb].
  unfold bind at 1. cbn [ReadByte_].
  unfold bind at 1. cbn [ReadByte_ Z.eqb Pos.eqb negb].
  unfold bind at 1, binaryRead_. rewrite ReadFull_4.
  unfold bind at 1. cbn [ReadByte_ Z.eqb Pos.eqb negb].
  unfold bind at 1. rewrite ReadFull_4.
  unfold bind at 1. cbn [ReadByte_ Z.eqb Pos.eqb negb].
  unfold bind at 1. cbn [ReadByte_].
  unfold bind at 1, wrap at 1. cbn [ReadByte Z.eqb Pos.eqb negb].
  pose proof (decoded_records_length _ _ _ Hrec) as Hl.
  rewrite length_fmap in Hl.
  erewrite bind_eval
    by (apply cov_values_complete; [exact Hrec|rewrite length_fmap; lia]).
  reflexivity.
Qed.

Lemma parseCOVNotification_round_trip_witness :
  parseCOVNotification
    ([0x81; 0x0A; 0x00; 0x28; 0x01; 0x00; 0x10; SERVICE_UNCONFIRMED_EVENT_NOTIFICATION;
      0x09; 123; 0x1C; 0x02; 0x00; 0x04; 0xD2; 0x2C; 0; 0; 0; 3; 0x39; 60;
      0x4E]
     ++ encode_cov_values [(85, APrimitive 4 false [0x42; 0x28; 0x00; 0x00]);
                           (111, APrimitive 8 false [0x04; 0xA0])] ++ [])
  = Ok {| SubscriberProcessIdentifier := 123;
          InitiatingDeviceIdentifier := unpackObject (be_value [0x02; 0x00; 0x04; 0xD2]);
          MonitoredObjectIdentifier := unpackObject (be_value [0; 0; 0; 3]);
          TimeRemaining := 60;
          ListOfValues :=
            cov_record_value <$> [(85, APrimitive 4 false [0x42; 0x28; 0x00; 0x00]);
                                  (111, APrimitive 8 false [0x04; 0xA0])] |}.
Proof.
  apply (parseCOVNotification_round_trip 0x81 0x0A 0x00 0x28 0x01 0x00 0x10 123
           0x02 0x00 0x04 0xD2 0 0 0 3 60); reflexivity.
Defined.

(** ** sendSubscribeCOVRequest: the Simple-ACK check *)

Lemma skipn_6_lookup (data : list Z) (i : nat) :
  skipn 6 data !! i = data !! (6 + i)%nat.
Proof. apply lookup_drop. Qed.

(** X15.  The reply to a SubscribeCOV request is accepted exactly when the
    octet at the APDU-type position is a Simple-ACK and the octet after it
    is the invoke ID of the request.  Because the reads drop their errors,
    a reply that ends after the APDU type is also accepted when the invoke
    ID of the request is 0. *)
Theorem parseSimpleAck_accepts (data : list Z) (invokeID : Z) :
  parseSimpleAck data invokeID = Ok tt <->
  (exists apduType, data !! 6%nat = Some apduType
                    /\ Z.land apduType 0xF0 = APDU_SIMPLE_ACK)
  /\ (data !! 7%nat = Some invokeID \/ (data !! 7%nat = None /\ invokeID = 0)).
Proof.
  unfold parseSimpleAck, run.
  change (data !! 6%nat) with (data !! (6 + 0)%nat).
  change (data !! 7%nat) with (data !! (6 + 1)%nat).
  rewrite <- !skipn_6_lookup.
  generalize (skipn 6 data). intros r.
  destruct r as [|apduType [|respInvokeID r]]; cbn [lookup list_lookup].
  - unfold bind at 1. cbn [ReadByte_].
    change (Z.land 0 240 =? APDU_SIMPLE_ACK) with false. cbn [negb].
    split; [discriminate|]. intros [(t & [=] & _) _].
  - unfold bind at 1. cbn [ReadByte_].
    destruct (Z.eqb_spec (Z.land apduType 240) APDU_SIMPLE_ACK) as [E|E]; cbn [negb].
    + unfold bind at 1. cbn [ReadByte_].
      destruct (Z.eqb_spec 0 invokeID) as [E2|E2]; cbn [negb].
      * split; [|reflexivity]. intros _. split; [eauto|]. right. auto.
      * split; [discriminate|]. intros [_ [[=]|[_ ->]]]. contradiction.
    + split; [discriminate|]. intros [(t & [= <-] & Ht) _]. contradiction.
  - unfold bind at 1. cbn [ReadByte_].
    destruct (Z.eqb_spec (Z.land apduType 240) APDU_SIMPLE_ACK) as [E|E]; cbn [negb].
    + unfold bind at 1. cbn [ReadByte_].
      destruct (Z.eqb_spec respInvokeID invokeID) as [E2|E2]; cbn [negb].
      * split; [|reflexivity]. intros _. split; [eauto|]. left. congruence.
      * split; [discriminate|]. intros [_ [[= ->]|[[=] _]]]. contradiction.
    + split; [discriminate|]. intros [(t & [= <-] & Ht) _]. contradiction.
Qed.

(** X16.  sendSubscribeCOVRequest succeeds when the write succeeds and the
    datagram read is a Simple-ACK that carries the invoke ID which the
    request took from the allocator; a failed write, a timeout and a failed
    read are errors whatever the rest. *)
Theorem sendSubscribeCOVRequest_reply_matches (m : invokeIDManager)
    (object : BACnetObject) (subscriberProcessIdentifier : Z)
    (issueConfirmedNotifications : bool) (lifetime : Z)
    (h0 h1 h2 h3 h4 h5 apduType : Z) (trailing : list Z) (addr : UDPAddr) :
  Z.land apduType 0xF0 = APDU_SIMPLE_ACK ->
  let call := sendSubscribeCOVRequest_reply m object subscriberProcessIdentifier
                issueConfirmedNotifications lifetime in
  (forall respInvokeID,
     call {| write_error := None;
             read_result := Received ([h0; h1; h2; h3; h4; h5; apduType; respInvokeID]
                                      ++ trailing) addr |}
     = if respInvokeID =? (lastID m + 1) mod 256
       then Ok tt else Err (Errorf "invoke ID mismatch"))
  /\ (forall e r, is_err (call {| write_error := Some e; read_result := r |}) = true)
  /\ is_err (call {| write_error := None; read_result := TimedOut |}) = true
  /\ (forall e, is_err (call {| write_error := None; read_result := ReadFailed e |}) = true).
Proof.
  intros Hty. cbv zeta. split; [|repeat split; reflexivity].
  intros respInvokeID. destruct m as [l].
  unfold sendSubscribeCOVRequest_reply, awaitReply.
  cbn [write_error read_result app firstn].
  unfold parseSimpleAck, run. cbn [skipn].
  unfold bind at 1. cbn [ReadByte_]. rewrite Hty.
  cbn [APDU_SIMPLE_ACK Z.eqb Pos.eqb negb].
  unfold bind at 1. cbn [ReadByte_].
  change (req_invokeID _) with ((l + 1) mod 256). cbn [lastID].
  destruct (respInvokeID =? (l + 1) mod 256); reflexivity.
Qed.

Lemma sendSubscribeCOVRequest_reply_matches_witness :
  let call := sendSubscribeCOVRequest_reply (mkInvokeIDManager 255)
                (mkObject 0 3) 123 false 60 in
  (forall respInvokeID,
     call {| write_error := None;
             read_result := Received ([0x81; 0x0A; 0x00; 0x09; 0x01; 0x00; 0x20; respInvokeID]
                                      ++ [0x05]) (mkUDPAddr [10; 0; 0; 9] 47808) |}
     = if respInvokeID =? (lastID (mkInvokeIDManager 255) + 1) mod 256
       then Ok tt else Err (Errorf "invoke ID mismatch"))
  /\ (forall e r, is_err (call {| write_error := Some e; read_result := r |}) = true)
  /\ is_err (call {| write_error := None; read_result := TimedOut |}) = true
  /\ (forall e, is_err (call {| write_error := None; read_result := ReadFailed e |}) = true).
Proof.
  apply (sendSubscribeCOVRequest_reply_matches (mkInvokeIDManager 255) (mkObject 0 3)
           123 false 60 0x81 0x0A 0x00 0x09 0x01 0x00 0x20 [0x05]
           (mkUDPAddr [10; 0; 0; 9] 47808)).
  reflexivity.
Defined.

(** ** WhoIs *)

Lemma WhoIs_listen_app (received : list (list Z * UDPAddr)) (rest : list readFromUDP)
    (devices : list DeviceInfo) :
  WhoIs_listen (((fun p => Received p.1 p.2) <$> received) ++ rest) devices
  = WhoIs_listen rest
      (devices ++ omap (fun p => match parseIAm (firstn 1500 p.1) p.2 with
                                 | Ok device => Some device
                                 | Err _ => None
                                 end) received).
Proof.
  revert devices. induction received as [|[data addr] received IH]; intros devices.
  - cbn. rewrite app_nil_r. reflexivity.
  - cbn [fmap list_fmap app WhoIs_listen omap list_omap fst snd].
    destruct (parseIAm (take 1500 data) addr) as [device|e].
    + rewrite IH, <- app_assoc. reflexivity.
    + rewrite IH. reflexivity.
Qed.

(** X17.  WhoIs returns, in the order of arrival, the devices of the datagrams
    that parse as I-Am and silently drops the others, when the listening
    ends with the deadline.  When it ends with another read error, the
    devices found so far are discarded and the error is returned. *)
Theorem WhoIs_collects_until_deadline (received : list (list Z * UDPAddr))
    (rest : list readFromUDP) (e : error) :
  let devices :=
    omap (fun p => match parseIAm (firstn 1500 p.1) p.2 with
                   | Ok device => Some device
                   | Err _ => None
                   end) received in
  WhoIs None ((fun p => Received p.1 p.2) <$> received) = Ok devices
  /\ WhoIs None (((fun p => Received p.1 p.2) <$> received) ++ TimedOut :: rest) = Ok devices
  /\ WhoIs None (((fun p => Received p.1 p.2) <$> received) ++ ReadFailed e :: rest)
     = Err (Errorw "failed to read from UDP" e)
  /\ (length devices <= length received)%nat.
Proof.
  cbv zeta. unfold WhoIs. split; [|split; [|split]].
  - rewrite <- (app_nil_r (_ <$> received)) at 1; rewrite WhoIs_listen_app. reflexivity.
  - rewrite WhoIs_listen_app. reflexivity.
  - rewrite WhoIs_listen_app. reflexivity.
  - induction received as [|[data addr] received IH]; [apply Nat.le_refl|].
    cbn [omap list_omap fst snd length].
    destruct (parseIAm (take 1500 data) addr); cbn [length]; lia.
Qed.

(** ** parseReadPropertyMultipleResponse: round trip *)

Lemma decoded_properties_length (r : list Z) (ps : list (Z * Value)) (r' : list Z) :
  decoded_properties r ps r' -> (length ps + length r' < length r)%nat.
Proof.
  induction 1 as [rest|propID encoded val rest ps rest' Hdec _ IH]; cbn [length]; [lia|].
  pose proof (consuming_decodeApplicationValue encoded) as Hc.
  rewrite Hdec in Hc. cbn [progresses length] in Hc. lia.
Qed.

Lemma decoded_results_length (r : list Z) (rs : list (Z * list (Z * Value))) :
  decoded_results r rs -> (length rs <= length r)%nat.
Proof.
  induction 1 as [|b0 b1 b2 b3 props ps rest rs Hps _ IH]; cbn [length]; [lia|].
  apply decoded_properties_length in Hps. lia.
Qed.

Lemma rpm_properties_complete (fuel : nat) (acc : gmap Z Value) (r : list Z)
    (ps : list (Z * Value)) (r' : list Z) :
  decoded_properties r ps r' -> (length ps < fuel)%nat ->
  rpm_properties fuel acc r = Ok (properties_of ps acc, r').
Proof.
  intros H. revert fuel acc.
  induction H as [rest|propID encoded val rest ps rest' Hdec _ IH];
    intros [|fuel] acc Hf; cbn [length] in Hf; try lia.
  - reflexivity.
  - cbn [rpm_properties].
    erewrite bind_eval by (apply wrap_eval; reflexivity).
    cbn [Z.eqb Pos.eqb negb].
    erewrite bind_eval by (apply wrap_eval, binaryRead_1).
    erewrite bind_eval by (apply wrap_eval; reflexivity).
    cbn [Z.eqb Pos.eqb negb].
    erewrite bind_eval by (apply wrap_eval; exact Hdec).
    erewrite bind_eval by (apply wrap_eval; reflexivity).
    cbn [Z.eqb Pos.eqb negb].
    rewrite IH by lia. reflexivity.
Qed.

Lemma rpm_results_complete (fuel : nat) (acc : gmap BACnetObject (gmap Z Value))
    (r : list Z) (rs : list (Z * list (Z * Value))) :
  decoded_results r rs -> (length r < fuel)%nat ->
  rpm_results fuel acc r = Ok (results_of rs acc, []).
Proof.
  intros H. revert fuel acc.
  induction H as [|b0 b1 b2 b3 props ps rest rs Hps _ IH];
    intros [|fuel] acc Hf; try lia.
  - reflexivity.
  - cbn [rpm_results]. rewrite Len_cons_pos. cbn [ReadByte Z.eqb Pos.eqb negb].
    pose proof (decoded_properties_length _ _ _ Hps) as Hl. cbn [length] in Hf.
    erewrite bind_eval by (apply wrap_eval, binaryRead_4). cbv zeta.
    erewrite bind_eval by (apply wrap_eval; reflexivity).
    cbn [Z.eqb Pos.eqb negb].
    erewrite bind_eval by (apply rpm_properties_complete; [exact Hps|lia]).
    rewrite IH by lia. reflexivity.
Qed.

Lemma parseReadPropertyMultipleResponse_complete (b0 b1 b2 b3 n0 n1 apduType
    expectedInvokeID : Z) (body : list Z) (rs : list (Z * list (Z * Value))) :
  Z.land apduType 0xF0 = APDU_COMPLEX_ACK ->
  decoded_results body rs ->
  parseReadPropertyMultipleResponse
    (b0 :: b1 :: b2 :: b3 :: n0 :: n1 :: apduType :: expectedInvokeID
     :: SERVICE_CONFIRMED_READ_PROPERTY_MULTIPLE :: body) expectedInvokeID
  = Ok (results_of rs ∅).
Proof.
  intros Hty Hrs. unfold parseReadPropertyMultipleResponse, run.
  assert (Hh : readComplexAckHeader expectedInvokeID
                 (b0 :: b1 :: b2 :: b3 :: n0 :: n1 :: apduType :: expectedInvokeID
                  :: SERVICE_CONFIRMED_READ_PROPERTY_MULTIPLE :: body)
               = Ok (tt, body)).
  { unfold readComplexAckHeader.
    erewrite bind_eval by (apply wrap_eval, readBVLCHeader_4).
    erewrite bind_eval by (apply wrap_eval, readNPDU_2).
    erewrite bind_eval by (apply wrap_eval; reflexivity).
    rewrite Hty. cbn [APDU_COMPLEX_ACK APDU_ERROR Z.eqb Pos.eqb negb].
    erewrite bind_eval by reflexivity.
    rewrite Z.eqb_refl. cbn [negb].
    erewrite bind_eval by (apply wrap_eval; reflexivity).
    reflexivity. }
  erewrite bind_eval by exact Hh.
  rewrite (rpm_results_complete _ _ _ rs Hrs) by (cbn [length]; lia).
  reflexivity.
Qed.

(** X18.  Round trip of a ReadPropertyMultiple ACK.  Take a Complex-ACK with the
    expected invoke ID and the ReadPropertyMultiple service choice whose
    body is well formed as sections 4.1 and 4.4 frame it, with every value
    in a wire form of the table and one value in every bracket.
    parseReadPropertyMultipleResponse accepts it, and the map it returns
    gives for each object the properties of the last read-access-result
    that names it, each property with the value that section 4.1
    prescribes, and has no entry for the other objects.  The four octets of
    the BVLC header and the two of the NPDU are not checked. *)
Theorem parseReadPropertyMultipleResponse_round_trip (b0 b1 b2 b3 n0 n1 apduType
    expectedInvokeID : Z) (rs : list (Z * list (Z * list AppValue))) :
  Z.land apduType 0xF0 = APDU_COMPLEX_ACK ->
  wf_body rs = true -> table_forms rs = true -> single_valued rs = true ->
  exists m,
    parseReadPropertyMultipleResponse
      ([b0; b1; b2; b3; n0; n1; apduType; expectedInvokeID;
        SERVICE_CONFIRMED_READ_PROPERTY_MULTIPLE] ++ encode_body rs) expectedInvokeID
    = Ok m
    /\ forall o,
         m !! o = (fun ps => properties_of (property_values ps) ∅) <$> last_result o rs.
Proof.
  intros Hty Hwf Htab Hone. exists (results_of (body_values rs) ∅). split.
  - cbn [app]. apply parseReadPropertyMultipleResponse_complete; [exact Hty|].
    apply decoded_results_complete; assumption.
  - intros o. rewrite lookup_results_of, last_result_body_values, lookup_empty.
    destruct (last_result o rs); reflexivity.
Qed.

Lemma parseReadPropertyMultipleResponse_round_trip_witness :
  exists m,
    parseReadPropertyMultipleResponse
      ([0x81; 0x0A; 0x00; 0x28; 0x01; 0x00; 0x30; 0x07;
        SERVICE_CONFIRMED_READ_PROPERTY_MULTIPLE]
       ++ encode_body [(3, [(85, [APrimitive 4 false [0x42; 0x28; 0x00; 0x00]]);
                            (111, [APrimitive 8 false [0x04; 0xA0]])]);
                       (33554433, [(77, [APrimitive 7 true [0x00; 0x41; 0x49]])])]) 7
    = Ok m
    /\ forall o,
         m !! o = (fun ps => properties_of (property_values ps) ∅)
                  <$> last_result o
                        [(3, [(85, [APrimitive 4 false [0x42; 0x28; 0x00; 0x00]]);
                              (111, [APrimitive 8 false [0x04; 0xA0]])]);
                         (33554433, [(77, [APrimitive 7 true [0x00; 0x41; 0x49]])])].
Proof.
  apply (parseReadPropertyMultipleResponse_round_trip 0x81 0x0A 0x00 0x28 0x01 0x00 0x30 7);
    reflexivity.
Defined.

(** ** ReadSpecificPropertiesFromObject: the reply *)

Lemma reads_prefix_ret {A} (a : A) : reads_prefix (ret a).
Proof. intros r a' r' [= <- <-]. exists []. reflexivity. Qed.

Lemma reads_prefix_wrap {A} (msg : string) (m : M A) :
  reads_prefix m -> reads_prefix (wrap msg m).
Proof. intros Hm r a r' H. apply wrap_Ok in H. eapply Hm, H. Qed.

Lemma reads_prefix_bind {A B} (m : M A) (k : A -> M B) :
  reads_prefix m -> (forall a, reads_prefix (k a)) -> reads_prefix (bind m k).
Proof.
  intros Hm Hk r b r' H. apply bind_Ok in H as (a & r1 & H1 & H2).
  apply Hm in H1 as [pre1 ->]. apply Hk in H2 as [pre2 ->].
  exists (pre1 ++ pre2). rewrite app_assoc. reflexivity.
Qed.

Lemma reads_prefix_ReadByte : reads_prefix ReadByte.
Proof. intros [|b r] a r' H; [discriminate|]. injection H as <- <-. exists [b]. reflexivity. Qed.

Lemma reads_prefix_ReadFull (n : Z) : reads_prefix (ReadFull n).
Proof.
  intros r bs r' H. unfold ReadFull in H.
  destruct (n <=? 0); [injection H as <- <-; exists []; reflexivity|].
  destruct (Len r <? n); [destruct r; discriminate|].
  injection H as <- <-. eexists. symmetry. apply take_drop.
Qed.

Lemma reads_prefix_binaryRead (n : Z) : reads_prefix (binaryRead n).
Proof.
  unfold binaryRead. apply reads_prefix_bind; [apply reads_prefix_ReadFull|].
  intros bs. apply reads_prefix_ret.
Qed.

Lemma reads_prefix_decodeStatusFlags : reads_prefix decodeStatusFlags.
Proof.
  unfold decodeStatusFlags.
  apply reads_prefix_bind; [apply reads_prefix_wrap, reads_prefix_ReadByte|].
  intros unusedBits. destruct (negb (unusedBits =? 4)); [intros r a r'; discriminate|].
  apply reads_prefix_bind; [apply reads_prefix_wrap, reads_prefix_ReadByte|].
  intros flagsByte. apply reads_prefix_ret.
Qed.

Lemma reads_prefix_decodeApplicationValue : reads_prefix decodeApplicationValue.
Proof.
  unfold decodeApplicationValue.
  apply reads_prefix_bind; [apply reads_prefix_ReadByte|].
  intros tag. apply reads_prefix_bind.
  - destruct (Z.land tag 15 =? 5).
    + apply reads_prefix_wrap, reads_prefix_ReadByte.
    + apply reads_prefix_ret.
  - intros lenVal.
    repeat match goal with
           | |- reads_prefix (match ?x with _ => _ end) => destruct x
           end;
      repeat first
        [ apply reads_prefix_ret
        | apply reads_prefix_ReadFull
        | apply reads_prefix_binaryRead
        | apply reads_prefix_decodeStatusFlags
        | apply reads_prefix_ReadByte
        | apply reads_prefix_bind; [|intros ?] ].
Qed.

Lemma decoded_properties_suffix (r : list Z) (ps : list (Z * Value)) (r' : list Z) :
  decoded_properties r ps r' -> exists pre, r = pre ++ r'.
Proof.
  induction 1 as [rest|propID encoded val rest ps rest' Hdec _ [pre ->]].
  - exists [0x1F]. reflexivity.
  - apply reads_prefix_decodeApplicationValue in Hdec as [pre' ->].
    exists (0x29 :: propID :: 0x4E :: pre' ++ 0x4F :: pre).
    cbn [app]. rewrite <- app_assoc. reflexivity.
Qed.

Lemma decoded_results_valid_objects (r : list Z) (rs : list (Z * list (Z * Value))) :
  decoded_results r rs -> Forall is_octet r ->
  Forall (fun x => valid_object (unpackObject x.1)) rs.
Proof.
  induction 1 as [|b0 b1 b2 b3 props ps rest rs Hps _ IH]; intros Hr; [constructor|].
  apply decoded_properties_suffix in Hps as [pre ->].
  apply Forall_cons in Hr as [_ Hr].
  do 4 (apply Forall_cons in Hr as [? Hr]). apply Forall_cons in Hr as [_ Hr].
  apply Forall_app in Hr as [_ Hr].
  constructor; [|exact (IH Hr)].
  cbn [fst]. apply unpackObject_valid.
  apply (be_value_bound [b0; b1; b2; b3]).
  repeat (constructor; [assumption|]). constructor.
Qed.

(** X19.  When the write succeeds and the datagram received is a
    ReadPropertyMultiple ACK for the request, with a body that is well
    formed as sections 4.1 and 4.4 frame it, every value in a wire form of
    the table and one value in every bracket,
    ReadSpecificPropertiesFromObject returns the properties of the last
    read-access-result of the body that names the requested object, and
    fails with "object not found" when no read-access-result names it.  The
    property identifiers that were asked for play no part in what is
    returned. *)
Theorem ReadSpecificPropertiesFromObject_selects_last_result (m : invokeIDManager)
    (object : BACnetObject) (propertyIDs : list Z)
    (b0 b1 b2 b3 n0 n1 apduType : Z) (addr : UDPAddr)
    (rs : list (Z * list (Z * list AppValue))) :
  Z.land apduType 0xF0 = APDU_COMPLEX_ACK ->
  (length (encode_body rs) <= 4087)%nat ->
  wf_body rs = true -> table_forms rs = true -> single_valued rs = true ->
  ReadSpecificPropertiesFromObject_reply m object propertyIDs
    {| write_error := None;
       read_result :=
         Received ([b0; b1; b2; b3; n0; n1; apduType; (lastID m + 1) mod 256;
                    SERVICE_CONFIRMED_READ_PROPERTY_MULTIPLE] ++ encode_body rs) addr |}
  = match last_result object rs with
    | Some ps => Ok (properties_of (property_values ps) ∅)
    | None => Err (Errorf "object not found in ReadPropertyMultiple response")
    end.
Proof.
  intros Hty Hlen Hwf Htab Hone.
  unfold ReadSpecificPropertiesFromObject_reply, awaitReply.
  cbn [write_error read_result].
  assert (Hid : req_invokeID (ReadSpecificPropertiesFromObject m object propertyIDs)
                = (lastID m + 1) mod 256) by (destruct m; reflexivity).
  rewrite Hid.
  rewrite firstn_all2 by (rewrite length_app; cbn [length]; lia).
  cbn [app].
  rewrite (parseReadPropertyMultipleResponse_complete _ _ _ _ _ _ _ _ _
             (body_values rs) Hty (decoded_results_complete rs Hwf Htab Hone)).
  unfold selectObject. rewrite lookup_results_of, last_result_body_values.
  destruct (last_result object rs); [reflexivity|]. rewrite lookup_empty. reflexivity.
Qed.

Lemma ReadSpecificPropertiesFromObject_selects_last_result_witness :
  ReadSpecificPropertiesFromObject_reply (mkInvokeIDManager 6) (mkObject 0 3) [85; 111]
    {| write_error := None;
       read_result :=
         Received ([0x81; 0x0A; 0x00; 0x23; 0x01; 0x00; 0x30;
                    (lastID (mkInvokeIDManager 6) + 1) mod 256;
                    SERVICE_CONFIRMED_READ_PROPERTY_MULTIPLE]
                   ++ encode_body [(3, [(85, [APrimitive 2 false [42]])]);
                                   (3, [(111, [APrimitive 8 false [0x04; 0xA0]])])])
                  (mkUDPAddr [10; 0; 0; 9] 47808) |}
  = match last_result (mkObject 0 3)
            [(3, [(85, [APrimitive 2 false [42]])]);
             (3, [(111, [APrimitive 8 false [0x04; 0xA0]])])] with
    | Some ps => Ok (properties_of (property_values ps) ∅)
    | None => Err (Errorf "object not found in ReadPropertyMultiple response")
    end.
Proof.
  apply (ReadSpecificPropertiesFromObject_selects_last_result (mkInvokeIDManager 6)
           (mkObject 0 3) [85; 111] 0x81 0x0A 0x00 0x23 0x01 0x00 0x30).
  - reflexivity.
  - cbn. lia.
  - reflexivity.
  - reflexivity.
  - reflexivity.
Defined.

(** X20.  The objects named in a reply have a type below 1024 and an instance
    below 4194304.  Hence a call of ReadSpecificPropertiesFromObject for an
    object whose type or instance is above these bounds fails whatever the
    device answers: the object of the request is never found in the
    reply. *)
Theorem ReadSpecificPropertiesFromObject_out_of_range (m : invokeIDManager)
    (object : BACnetObject) (propertyIDs : list Z) (data : list Z) (addr : UDPAddr) :
  Forall is_octet data ->
  1023 < obj_type object \/ 4194303 < obj_instance object ->
  is_err (ReadSpecificPropertiesFromObject_reply m object propertyIDs
            {| write_error := None; read_result := Received data addr |}) = true.
Proof.
  intros Hdata Hout.
  unfold ReadSpecificPropertiesFromObject_reply, awaitReply.
  cbn [write_error read_result].
  destruct (parseReadPropertyMultipleResponse (take 4096 data) _) as [res|e] eqn:E;
    [|reflexivity].
  apply parseReadPropertyMultipleResponse_Ok in E as (rs & Hrs & ->).
  unfold selectObject. rewrite lookup_results_of, lookup_empty.
  destruct (last_result object rs) as [ps|] eqn:El; [|reflexivity].
  exfalso. apply last_result_Some in El as (id & Hin & Hid).
  apply decoded_results_valid_objects in Hrs;
    [|unfold ack_body; apply Forall_drop, Forall_take, Hdata].
  rewrite Forall_forall in Hrs. specialize (Hrs _ Hin). cbn [fst] in Hrs.
  rewrite Hid in Hrs. unfold valid_object in Hrs. lia.
Qed.

Lemma ReadSpecificPropertiesFromObject_out_of_range_witness :
  is_err (ReadSpecificPropertiesFromObject_reply (mkInvokeIDManager 6)
            (mkObject 0 4194307) [85]
            {| write_error := None;
               read_result :=
                 Received [0x81; 0x0A; 0x00; 0x16; 0x01; 0x00; 0x30; 0x07; 0x0E;
                           0x0C; 0x00; 0x00; 0x00; 0x03; 0x1E;
                           0x29; 0x55; 0x4E; 0x21; 0x2A; 0x4F; 0x1F]
                          (mkUDPAddr [10; 0; 0; 9] 47808) |}) = true.
Proof.
  apply (ReadSpecificPropertiesFromObject_out_of_range (mkInvokeIDManager 6)
           (mkObject 0 4194307) [85]).
  - unfold is_octet. repeat (constructor; [lia|]). constructor.
  - right. cbn [obj_instance]. lia.
Defined.

(** ** The requests: what is put on the wire *)

Lemma fold_left_app_flat_map {A} (g : list Z -> A -> list Z) (f : A -> list Z)
    (xs : list A) (init : list Z) :
  (forall acc x, g acc x = acc ++ f x) ->
  fold_left g xs init = init ++ flat_map f xs.
Proof.
  intros Hg. revert init.
  induction xs as [|x xs IH]; intros init; cbn [fold_left flat_map].
  - rewrite app_nil_r. reflexivity.
  - rewrite IH, Hg, <- app_assoc. reflexivity.
Qed.

Lemma ReadPropertiesFromMultipleObjects_apdu (m : invokeIDManager)
    (objects : list BACnetObject) (propertyID : Z) :
  req_apdu (ReadPropertiesFromMultipleObjects m objects propertyID)
  = [0x02; 0x75; SERVICE_CONFIRMED_READ_PROPERTY_MULTIPLE]
    ++ flat_map (fun obj => [0x0C] ++ putUint32 (packObject obj)
                            ++ [0x1E; 0x09; propertyID mod 256; 0x1F]) objects.
Proof.
  destruct m as [l]. unfold ReadPropertiesFromMultipleObjects, Next, mkConfirmed.
  cbn [req_apdu].
  change ([Z.lor APDU_CONFIRMED_REQUEST 2; 117] ++ [SERVICE_CONFIRMED_READ_PROPERTY_MULTIPLE])
    with [0x02; 0x75; SERVICE_CONFIRMED_READ_PROPERTY_MULTIPLE].
  apply fold_left_app_flat_map.
  intros acc obj. rewrite <- !app_assoc. reflexivity.
Qed.

Lemma ReadSpecificPropertiesFromObject_apdu (m : invokeIDManager)
    (object : BACnetObject) (propertyIDs : list Z) :
  req_apdu (ReadSpecificPropertiesFromObject m object propertyIDs)
  = [0x02; 0x75; (lastID m + 1) mod 256; SERVICE_CONFIRMED_READ_PROPERTY_MULTIPLE; 0x0C]
    ++ putUint32 (packObject object) ++ [0x1E]
    ++ flat_map (fun propID => [0x09; propID mod 256]) propertyIDs ++ [0x1F].
Proof.
  destruct m as [l]. unfold ReadSpecificPropertiesFromObject, Next, mkConfirmed.
  cbn [req_apdu lastID].
  rewrite (fold_left_app_flat_map _ (fun propID => [0x09; propID mod 256]))
    by reflexivity.
  rewrite <- !app_assoc. reflexivity.
Qed.

Lemma putUint32_octets (v : Z) : Forall is_octet (putUint32 v).
Proof.
  unfold putUint32, is_octet.
  repeat (constructor; [apply Z.mod_pos_bound; lia|]). constructor.
Qed.

Lemma be_value_putUint16 (v : Z) : 0 <= v < 65536 -> be_value (putUint16 v) = v.
Proof.
  intros Hv. unfold be_value, putUint16. cbn [fold_left].
  rewrite Z.shiftr_div_pow2 by lia. change (2^8) with 256.
  Z.div_mod_to_equations. lia.
Qed.

Lemma frameConfirmed_length_field (apduBuffer : list Z) :
  be_value (firstn 2 (skipn 2 (frameConfirmed apduBuffer)))
  = Z.of_nat (length (frameConfirmed apduBuffer)) mod 65536.
Proof.
  unfold frameConfirmed, writeBVLCHeader, writeNPDU. cbn [bvlc_Length].
  cbn [app skipn firstn putUint16 length].
  change [?a; ?b] with (putUint16 ((4 + 2 + Z.of_nat (length apduBuffer)) mod 2^16)).
  rewrite be_value_putUint16 by (apply Z.mod_pos_bound; lia).
  change (2^16) with 65536. f_equal. lia.
Qed.

(** X21.  ReadPropertiesFromMultipleObjects emits a datagram of nine octets and
    nine more for each object, every element of which is an octet.  The
    length field of the BVLC header is the length of the datagram reduced
    modulo 65536: it is the length of the datagram exactly when the request
    names at most 7280 objects. *)
Theorem ReadPropertiesFromMultipleObjects_framing (m : invokeIDManager)
    (objects : list BACnetObject) (propertyID : Z) :
  let datagram := req_datagram (ReadPropertiesFromMultipleObjects m objects propertyID) in
  length datagram = (9 + 9 * length objects)%nat
  /\ Forall is_octet datagram
  /\ be_value (firstn 2 (skipn 2 datagram)) = Z.of_nat (length datagram) mod 65536
  /\ (be_value (firstn 2 (skipn 2 datagram)) = Z.of_nat (length datagram)
      <-> Z.of_nat (length objects) <= 7280).
Proof.
  cbv zeta.
  assert (Hd : req_datagram (ReadPropertiesFromMultipleObjects m objects propertyID)
               = frameConfirmed
                   (req_apdu (ReadPropertiesFromMultipleObjects m objects propertyID)))
    by (destruct m; reflexivity).
  rewrite Hd, ReadPropertiesFromMultipleObjects_apdu.
  set (f := fun obj => [0x0C] ++ putUint32 (packObject obj)
                       ++ [0x1E; 0x09; propertyID mod 256; 0x1F]).
  assert (Hlen : length (flat_map f objects) = (9 * length objects)%nat).
  { clear Hd. induction objects as [|o os IH]; [reflexivity|].
    cbn [flat_map]. rewrite length_app, IH. unfold f. cbn [length putUint32 app]. lia. }
  assert (Hoct : Forall is_octet (flat_map f objects)).
  { apply Forall_flat_map. apply Forall_forall. intros o _. unfold f.
    apply Forall_app. split; [repeat constructor; unfold is_octet; lia|].
    apply Forall_app. split; [apply putUint32_octets|].
    unfold is_octet. repeat (constructor; [first [lia|apply Z.mod_pos_bound; lia]|]).
    constructor. }
  assert (Hlen' : length (frameConfirmed
                    ([0x02; 0x75; SERVICE_CONFIRMED_READ_PROPERTY_MULTIPLE]
                     ++ flat_map f objects)) = (9 + 9 * length objects)%nat).
  { unfold frameConfirmed, writeBVLCHeader, writeNPDU.
    rewrite !length_app, Hlen. cbn [length putUint16]. lia. }
  split; [exact Hlen'|]. split.
  - unfold frameConfirmed, writeBVLCHeader, writeNPDU.
    cbn [bvlc_Type bvlc_Function bvlc_Length npdu_Version npdu_Control].
    unfold is_octet.
    repeat first [ apply Forall_app; split
                 | apply Forall_cons; split
                 | apply Forall_nil_2
                 | exact Hoct
                 | apply Z.mod_pos_bound; lia
                 | (unfold BVLC_TYPE_BACNET_IP, BVLC_ORIGINAL_UNICAST_NPDU,
                     SERVICE_CONFIRMED_READ_PROPERTY_MULTIPLE; lia) ].
  - rewrite frameConfirmed_length_field, Hlen'. split; [reflexivity|].
    split; intros H.
    + pose proof (Z.mod_pos_bound (Z.of_nat (9 + 9 * length objects)) 65536 eq_refl).
      lia.
    + apply Z.mod_small. lia.
Qed.

(** X22.  The identifiers that the requests carry in one octet are cut to their
    low eight bits: two subscriber process identifiers, or two property
    identifiers, that agree modulo 256 give the same request. *)
Theorem request_identifiers_cut_to_octet (m : invokeIDManager) (object : BACnetObject)
    (issueConfirmedNotifications : bool) (lifetime : Z) (objects : list BACnetObject)
    (subscriberProcessIdentifier subscriberProcessIdentifier' : Z)
    (propertyID propertyID' : Z) (propertyIDs propertyIDs' : list Z) :
  subscriberProcessIdentifier mod 256 = subscriberProcessIdentifier' mod 256 ->
  propertyID mod 256 = propertyID' mod 256 ->
  (fun p => p mod 256) <$> propertyIDs = (fun p => p mod 256) <$> propertyIDs' ->
  sendSubscribeCOVRequest m object subscriberProcessIdentifier
    issueConfirmedNotifications lifetime
  = sendSubscribeCOVRequest m object subscriberProcessIdentifier'
      issueConfirmedNotifications lifetime
  /\ ReadPropertiesFromMultipleObjects m objects propertyID
     = ReadPropertiesFromMultipleObjects m objects propertyID'
  /\ ReadSpecificPropertiesFromObject m object propertyIDs
     = ReadSpecificPropertiesFromObject m object propertyIDs'.
Proof.
  intros Hs Hp Hps. destruct m as [l]. split; [|split].
  - unfold sendSubscribeCOVRequest. rewrite Hs. reflexivity.
  - unfold ReadPropertiesFromMultipleObjects. rewrite Hp. reflexivity.
  - unfold ReadSpecificPropertiesFromObject, Next. cbn [lastID].
    rewrite !(fold_left_app_flat_map _ (fun propID => [0x09; propID mod 256]))
      by reflexivity.
    assert (Hfm : forall ps, flat_map (fun propID => [0x09; propID mod 256]) ps
                             = flat_map (fun b => [0x09; b]) ((fun p => p mod 256) <$> ps)).
    { induction ps as [|p ps IH]; [reflexivity|]. cbn. rewrite IH. reflexivity. }
    rewrite (Hfm propertyIDs), (Hfm propertyIDs'), Hps. reflexivity.
Qed.

Lemma request_identifiers_cut_to_octet_witness :
  sendSubscribeCOVRequest (mkInvokeIDManager 0) (mkObject 0 3) 123 false 60
  = sendSubscribeCOVRequest (mkInvokeIDManager 0) (mkObject 0 3) 379 false 60
  /\ ReadPropertiesFromMultipleObjects (mkInvokeIDManager 0) [mkObject 0 3] 85
     = ReadPropertiesFromMultipleObjects (mkInvokeIDManager 0) [mkObject 0 3] 341
  /\ ReadSpecificPropertiesFromObject (mkInvokeIDManager 0) (mkObject 0 3) [85; 111]
     = ReadSpecificPropertiesFromObject (mkInvokeIDManager 0) (mkObject 0 3) [341; 367].
Proof.
  apply (request_identifiers_cut_to_octet (mkInvokeIDManager 0) (mkObject 0 3) false 60
           [mkObject 0 3] 123 379 85 341 [85; 111] [341; 367]); reflexivity.
Defined.

(** ** Object identifiers out of their ranges *)

Lemma lor_below_pow2 (a b n : Z) :
  0 <= n -> 0 <= a < 2^n -> 0 <= b < 2^n -> 0 <= Z.lor a b < 2^n.
Proof.
  intros Hn Ha Hb.
  assert (H : Z.lor a b = Z.lor a b mod 2^n).
  { rewrite <- Z.land_ones by exact Hn.
    rewrite Z.land_lor_distr_l, !Z.land_ones by exact Hn.
    rewrite !Z.mod_small by assumption. reflexivity. }
  rewrite H. apply Z.mod_pos_bound. lia.
Qed.

(** X23.  The identifier that the requests put on the wire for an object, read
    back as every decoder of the package reads it: the type is cut to ten
    bits and OR-ed with the bits of the instance above the 22nd, and the
    instance is cut to 22 bits.  An object whose instance is 4194304 or
    more is therefore sent as another object. *)
Theorem packObject_wire_identifier (t i : Z) :
  0 <= t < 2^32 -> 0 <= i < 2^32 ->
  unpackObject (be_value (putUint32 (packObject (mkObject t i))))
  = mkObject (Z.lor (t mod 1024) (i / 4194304)) (i mod 4194304).
Proof.
  intros Ht Hi. unfold packObject. cbn [obj_type obj_instance].
  assert (Ha : Z.shiftl t 22 mod 2^32 = (t mod 1024) * 2^22).
  { rewrite Z.shiftl_mul_pow2 by lia.
    change (2^32) with (1024 * 2^22).
    rewrite Z.mul_mod_distr_r by lia. reflexivity. }
  rewrite Ha.
  assert (Hrange : 0 <= Z.lor (t mod 1024 * 2^22) i < 2^32).
  { apply lor_below_pow2; [lia| |exact Hi].
    pose proof (Z.mod_pos_bound t 1024 eq_refl). lia. }
  rewrite be_value_putUint32 by exact Hrange.
  unfold unpackObject. f_equal.
  - rewrite Z.shiftr_lor, !Z.shiftr_div_pow2 by lia.
    rewrite Z.div_mul by lia. reflexivity.
  - change 0x3FFFFF with (Z.ones 22).
    rewrite Z.land_lor_distr_l, !Z.land_ones by lia.
    rewrite Z.mod_mul by lia. reflexivity.
Qed.

Lemma packObject_wire_identifier_witness :
  unpackObject (be_value (putUint32 (packObject (mkObject 0 4194307))))
  = mkObject (Z.lor (0 mod 1024) (4194307 / 4194304)) (4194307 mod 4194304).
Proof. apply (packObject_wire_identifier 0 4194307); lia. Defined.

(** ** From discovery to the first request *)

(** X24.  The device identifier of a DeviceInfo that parseIAm returns is below
    4194304, and the ReadProperty request that GetObjectList builds for
    that device names the object (Device, DeviceID) and asks for its
    object list. *)
Theorem GetObjectList_names_discovered_device (m : invokeIDManager) (data : list Z)
    (addr : UDPAddr) (device : DeviceInfo) :
  parseIAm data addr = Ok device ->
  0 <= DeviceID device <= 4194303
  /\ exists objectIdentifier,
       apdu_of (req_datagram (GetObjectList m device))
       = [0x02; 0x75; (lastID m + 1) mod 256; SERVICE_CONFIRMED_READ_PROPERTY; 0x0C]
         ++ objectIdentifier ++ [0x19; PROP_OBJECT_LIST]
       /\ length objectIdentifier = 4%nat
       /\ unpackObject (be_value objectIdentifier)
          = mkObject OBJECT_DEVICE (DeviceID device).
Proof.
  intros H. unfold parseIAm in H. apply run_Ok in H as [r H].
  minv H. cbn [DeviceID].
  match goal with
  | |- context [Z.land ?v 4194303] => set (oid := v)
  end.
  assert (Hid : 0 <= Z.land oid 4194303 <= 4194303).
  { change 4194303 with (Z.ones 22) at 1 2. rewrite Z.land_ones by lia.
    pose proof (Z.mod_pos_bound oid (2^22) eq_refl).
    change (2^22) with 4194304 in *. lia. }
  split; [exact Hid|].
  destruct m as [l].
  exists (putUint32 (packObject (mkObject OBJECT_DEVICE (Z.land oid 4194303)))).
  split; [reflexivity|]. split; [reflexivity|].
  rewrite packObject_in_range by (unfold OBJECT_DEVICE; lia).
  rewrite be_value_putUint32 by (unfold OBJECT_DEVICE; lia).
  apply unpackObject_split. exact Hid.
Qed.

Lemma GetObjectList_names_discovered_device_witness :
  0 <= DeviceID (mkDeviceInfo 1234 [192; 168; 1; 20] 47808 1476) <= 4194303
  /\ exists objectIdentifier,
       apdu_of (req_datagram (GetObjectList (mkInvokeIDManager 0)
                                (mkDeviceInfo 1234 [192; 168; 1; 20] 47808 1476)))
       = [0x02; 0x75; (lastID (mkInvokeIDManager 0) + 1) mod 256;
          SERVICE_CONFIRMED_READ_PROPERTY; 0x0C]
         ++ objectIdentifier ++ [0x19; PROP_OBJECT_LIST]
       /\ length objectIdentifier = 4%nat
       /\ unpackObject (be_value objectIdentifier)
          = mkObject OBJECT_DEVICE
              (DeviceID (mkDeviceInfo 1234 [192; 168; 1; 20] 47808 1476)).
Proof.
  apply (GetObjectList_names_discovered_device (mkInvokeIDManager 0)
           [0x81; 0x0B; 0x00; 0x19; 0x01; 0x00; 0x10; 0x00;
            0xC4; 0x02; 0x00; 0x04; 0xD2; 0x22; 0x05; 0xC4;
            0x91; 0x00; 0x22; 0x00; 0x2A]
           (mkUDPAddr [192; 168; 1; 20] 47808)).
  reflexivity.
Defined.

(** ** GetObjectAllPropertyList: the object of the reply *)

Lemma readComplexAckHeader_nine (expectedInvokeID h0 h1 h2 h3 h4 h5 h6 h7 h8 : Z)
    (rest : list Z) :
  readComplexAckHeader expectedInvokeID
    (h0 :: h1 :: h2 :: h3 :: h4 :: h5 :: h6 :: h7 :: h8 :: rest)
  = match readComplexAckHeader expectedInvokeID [h0; h1; h2; h3; h4; h5; h6; h7; h8] with
    | Ok _ => Ok (tt, rest)
    | Err e => Err e
    end.
Proof.
  unfold readComplexAckHeader.
  repeat erewrite bind_eval
    by first [ apply wrap_eval, readBVLCHeader_4
             | apply wrap_eval, readNPDU_2
             | apply wrap_eval; reflexivity ].
  destruct (Z.land h6 240 =? APDU_ERROR); [reflexivity|].
  destruct (Z.land h6 240 =? APDU_COMPLEX_ACK); cbn [negb]; [|reflexivity].
  repeat erewrite bind_eval by reflexivity.
  destruct (h7 =? expectedInvokeID); cbn [negb]; [|reflexivity].
  repeat erewrite bind_eval by (apply wrap_eval; reflexivity).
  destruct (h8 =? SERVICE_CONFIRMED_READ_PROPERTY_MULTIPLE); reflexivity.
Qed.

Lemma parseObjectPropertyList_nine (expectedInvokeID h0 h1 h2 h3 h4 h5 h6 h7 h8 : Z)
    (body : list Z) :
  parseObjectPropertyList (h0 :: h1 :: h2 :: h3 :: h4 :: h5 :: h6 :: h7 :: h8 :: body)
    expectedInvokeID
  = match readComplexAckHeader expectedInvokeID [h0; h1; h2; h3; h4; h5; h6; h7; h8] with
    | Ok _ => run (opl_results (S (9 + length body)) []) body
    | Err e => Err e
    end.
Proof.
  unfold parseObjectPropertyList, run, bind. rewrite readComplexAckHeader_nine.
  destruct (readComplexAckHeader expectedInvokeID _) as [[u r]|e]; reflexivity.
Qed.

(** X13.  parseObjectPropertyList reads the object identifier of a
    read-access-result and drops it: two replies that differ only in these
    four octets give the same result, so that GetObjectAllPropertyList
    takes the properties of any object for those of the object it asked
    about. *)
Theorem parseObjectPropertyList_ignores_object (expectedInvokeID : Z)
    (h0 h1 h2 h3 h4 h5 h6 h7 h8 b0 b1 b2 b3 c0 c1 c2 c3 : Z) (rest : list Z) :
  parseObjectPropertyList
    ([h0; h1; h2; h3; h4; h5; h6; h7; h8] ++ [0x0C; b0; b1; b2; b3] ++ rest)
    expectedInvokeID
  = parseObjectPropertyList
      ([h0; h1; h2; h3; h4; h5; h6; h7; h8] ++ [0x0C; c0; c1; c2; c3] ++ rest)
      expectedInvokeID.
Proof.
  cbn [app]. rewrite !parseObjectPropertyList_nine.
  destruct (readComplexAckHeader expectedInvokeID _) as [[u r]|e]; [|reflexivity].
  cbn [length]. unfold run. cbn [opl_results]. rewrite !Len_cons_pos.
  cbn [ReadByte Z.eqb Pos.eqb negb].
  rewrite !(bind_eval _ _ _ _ _ (wrap_eval _ _ _ _ _ (binaryRead_4 _ _ _ _ _))).
  reflexivity.
Qed.

(** ** handleCOVSubscription: renewal and expiry *)

Lemma reSubscribeInterval_formula (lifetime : Z) :
  0 <= lifetime <= 255 ->
  reSubscribeInterval lifetime = Z.max 1 (lifetime * 4 / 5) * Second.
Proof.
  intros Hl. pose proof interval_whole_seconds_all as Hall.
  rewrite forallb_forall in Hall.
  specialize (Hall (Z.to_nat lifetime)).
  rewrite Z2Nat.id in Hall by lia.
  apply Z.eqb_eq. apply Hall. apply in_seq. lia.
Qed.

(** X25.  For a lifetime of 2 to 255 seconds the subscription worker renews the
    subscription strictly before it expires, and not earlier than half of
    the lifetime; the interval does not decrease when the lifetime grows.
    For the lifetime 1 the interval is the lifetime itself, so that the
    renewal is not sent before the expiry. *)
Theorem reSubscribeInterval_before_expiry (lifetime lifetime' : Z) :
  2 <= lifetime <= 255 -> lifetime <= lifetime' <= 255 ->
  lifetime * Second <= reSubscribeInterval lifetime * 2
  /\ reSubscribeInterval lifetime < lifetime * Second
  /\ reSubscribeInterval lifetime <= reSubscribeInterval lifetime'
  /\ reSubscribeInterval 1 = 1 * Second.
Proof.
  intros Hl Hl'.
  rewrite (reSubscribeInterval_formula lifetime), (reSubscribeInterval_formula lifetime')
    by lia.
  unfold Second. repeat split; try reflexivity.
  all: Z.div_mod_to_equations; lia.
Qed.

Lemma reSubscribeInterval_before_expiry_witness :
  60 * Second <= reSubscribeInterval 60 * 2
  /\ reSubscribeInterval 60 < 60 * Second
  /\ reSubscribeInterval 60 <= reSubscribeInterval 120
  /\ reSubscribeInterval 1 = 1 * Second.
Proof. apply (reSubscribeInterval_before_expiry 60 120); lia. Defined.
